(** * domz: the realtime messaging core and the friendship routes

    A shallow embedding of the Socket.IO connection handler of the server
    entry point (the handlers of [user-connected], [join-chat],
    [send-message], [mark-messages-read], [user-active], [user-inactive],
    [user-disconnected] and [disconnect]), of the Mongoose models
    [models/Friendship.js] and [models/Message.js], and of the friendship
    routes of [routes/friends.js]; further, of the typing indicators, of
    the queries [getFriends], [getPendingRequests] and [getSentRequests],
    of the message routes of [routes/messages.js], of the times shown on
    the dashboard ([routes/basic.js], [models/Post.js]), of the likes of a
    post and of [escapeHtml] of the client script. The friend-request
    notifications, which touch no state, are left out.

    Conventions of the embedding:
    - ids, room names and message contents are strings of code units below
      256, compared code unit by code unit as JavaScript compares UTF-16
      code units; a payload field is [option string], [None] being
      [undefined];
    - a stored id is an ObjectId, written as the 24 lower-case hexadecimal
      digits it prints as; a string that a query or a new document takes
      for an id is cast as Mongoose casts it, and a string that does not
      cast rejects the query ([CastError]) or the save
      ([ValidationError]);
    - the MongoDB collections are explicit state; every call into the
      database may reject (a lost connection), which an oracle of the
      environment decides per call site, so that the [try]/[catch] of
      every handler is exercised;
    - every connection has its own closure variable [currentUser], kept
      per socket id;
    - [new Date()] and [Date.now()] read a clock of the environment, one
      reading per call;
    - what a handler sends is recorded in order, each emission with the
      Socket.IO target it was sent to; [console.log] output is not part of
      the model;
    - a handler or a route runs to completion: the interleaving of
      handlers at their [await]s is not modelled. *)

From stdpp Require Import gmap strings list fin_maps pretty sorting.
From Stdlib Require Import Ascii ZArith Lia.

Open Scope string_scope.

(** ** JavaScript primitives *)

Module Js.

(** White space and line terminators removed by [String.prototype.trim],
    among the code units below 256: tab, line feed, vertical tab, form
    feed, carriage return, space and the no-break space U+00A0. *)
Definition is_white_space (c : ascii) : bool :=
  match c with
  | "009" | "010" | "011" | "012" | "013" | " " | "160" => true
  | _ => false
  end%char.

Fixpoint trimStart (s : string) : string :=
  match s with
  | EmptyString => EmptyString
  | String c r => if is_white_space c then trimStart r else s
  end.

Fixpoint trimEnd (s : string) : string :=
  match s with
  | EmptyString => EmptyString
  | String c r =>
      match trimEnd r with
      | EmptyString => if is_white_space c then EmptyString else String c EmptyString
      | r' => String c r'
      end
  end.

(** [s.trim()] *)
Definition trim (s : string) : string := trimEnd (trimStart s).

(** The value of [v] when it is truthy: [undefined] and the empty string
    are falsy, every other string is truthy. *)
Definition truthy (v : option string) : option string :=
  match v with
  | Some EmptyString => None
  | Some s => Some s
  | None => None
  end.

(** [Array.prototype.sort] without a comparator: ascending by code unit,
    stable. *)
Fixpoint sort_insert (x : string) (l : list string) : list string :=
  match l with
  | [] => [x]
  | y :: l' => if String.leb x y then x :: l else y :: sort_insert x l'
  end.

Definition sort (l : list string) : list string := foldr sort_insert [] l.

(** [Array.prototype.join] *)
Definition join (sep : string) (l : list string) : string := String.concat sep l.

End Js.

(** ** ObjectIds

    [ObjectId.prototype.toString] prints an id as 24 lower-case hexadecimal
    digits, and this is how the model writes a stored id. Where Mongoose
    expects an ObjectId (a filter on [_id], [requester], [recipient] or
    [sender], a path of a new document) and is given a string, it casts
    it: 24 hexadecimal digits, in either case, are the id they spell; any
    other string is refused. *)

Definition is_hex_digit (c : ascii) : bool :=
  let n := nat_of_ascii c in
  (Nat.leb 48 n && Nat.leb n 57) || (Nat.leb 65 n && Nat.leb n 70)
  || (Nat.leb 97 n && Nat.leb n 102).

(** The digits [A] to [F] in lower case. *)
Definition lower_hex_digit (c : ascii) : ascii :=
  let n := nat_of_ascii c in
  if Nat.leb 65 n && Nat.leb n 70 then ascii_of_nat (n + 32) else c.

Fixpoint all_hex (s : string) : bool :=
  match s with
  | EmptyString => true
  | String c r => is_hex_digit c && all_hex r
  end.

Fixpoint lower_hex (s : string) : string :=
  match s with
  | EmptyString => EmptyString
  | String c r => String (lower_hex_digit c) (lower_hex r)
  end.

(** The cast of a string to an ObjectId: the stored form of the id, [None]
    when the string is refused. *)
Definition castObjectId (v : string) : option string :=
  if Nat.eqb (String.length v) 24 && all_hex v then Some (lower_hex v) else None.
Arguments castObjectId : simpl never.

Definition castable (v : string) : bool :=
  match castObjectId v with
  | Some _ => true
  | None => false
  end.

(** The value [v] of a filter matches the stored id [i]. *)
Definition is_id (v i : string) : bool :=
  match castObjectId v with
  | Some j => String.eqb j i
  | None => false
  end.

(** ** Channel identifiers *)

(** [const chatRoom = [senderId, recipientId].sort().join('-')], as the
    handlers [join-chat], [send-message], [typing-start] and [typing-stop]
    compute it. *)
Definition chatRoom (senderId recipientId : string) : string :=
  Js.join "-" (Js.sort [senderId; recipientId]).

(** The character is not the separator of [chatRoom]. *)
Definition not_dash (c : ascii) : bool :=
  match c with
  | "-"%char => false
  | _ => true
  end.

(** No character of the id is the separator. *)
Fixpoint dash_free (s : string) : bool :=
  match s with
  | EmptyString => true
  | String c r => not_dash c && dash_free r
  end.

(** ** Documents *)

Definition Time := Z.

(** Modelled from the spec: [models/User.js] is missing; the record has the
    fields the handlers read and write (display name, online flag, last-seen
    timestamp, current connection handle, nullable). *)
Record User := mkUser {
  username : string;
  isOnline : bool;
  lastSeen : Time;
  socketId : option string
}.

(** [status] of [FriendshipSchema]. *)
Inductive Status := pending | accepted | declined | blocked.

Definition Status_eqb (a b : Status) : bool :=
  match a, b with
  | pending, pending | accepted, accepted
  | declined, declined | blocked, blocked => true
  | _, _ => false
  end.

(** [FriendshipSchema] *)
Record Friendship := mkFriendship {
  f_id : nat;
  requester : string;
  recipient : string;
  status : Status;
  f_createdAt : Time;
  updatedAt : Time
}.

(** [messageType] of [MessageSchema]. *)
Inductive MessageType := text | image | video | audio | file.

(** [MessageSchema] *)
Record Message := mkMessage {
  m_id : nat;
  sender : string;
  m_recipient : string;
  content : string;
  messageType : MessageType;
  filePath : option string;
  fileSize : option Z;
  fileName : option string;
  isRead : bool;
  readAt : option Time;
  createdAt : Time
}.

(** ** Socket.IO *)

(** Where an emission goes. *)
Inductive Target :=
| ToSelf                              (* socket.emit *)
| ToRoom (room : option string)       (* io.to(room).emit *)
| ToRoomOthers (room : option string) (* socket.to(room).emit *)
| ToOthers.                           (* socket.broadcast.emit *)

(** Server-to-client events with their payloads. [NewMessage] carries the
    message document with [sender] and [recipient] populated by their
    [username]. *)
Inductive Event :=
| MessageError (error : string)
| MessageDelivered (messageId : nat) (timestamp : Time)
| NewMessage (m : Message) (senderName recipientName : option string)
| UserStatusUpdate (userId : option string) (online : bool) (seen : Time)
| MessagesRead (recipientId : option string) (at_ : Time).

Record Emission := Emit { target : Target; event : Event }.

(** A value of the closure variable [currentUser] of a connection. *)
Record CurrentUser := mkCurrentUser {
  cu_userId : option string;
  cu_username : option string
}.

(** ** State, environment and the handler monad *)

(** Call sites into the database; each may reject. *)
Inductive DbOp :=
| UserFindById | UserFindByIdAndUpdate
| FriendshipFindOne | FriendshipSave | FriendshipFindByIdAndDelete
| MessageSave | MessageUpdateMany
| PopulateFirst | PopulateSecond.

Record Env := mkEnv {
  sid : string;              (* socket.id of the connection *)
  fails : DbOp -> bool;      (* which database calls reject *)
  clock : nat -> Time        (* successive readings of the clock *)
}.

Record St := mkSt {
  users : gmap string User;
  messages : list Message;
  friendships : list Friendship;
  nextId : nat;                                 (* next fresh ObjectId *)
  rooms : gmap (option string) (gset string);   (* room -> socket ids *)
  currentUser : gmap string CurrentUser;        (* socket id -> its currentUser *)
  ticks : nat;                                  (* clock readings so far *)
  out : list Emission                           (* emissions, oldest first *)
}.

Definition set_users (f : gmap string User -> gmap string User) (st : St) : St :=
  mkSt (f (users st)) (messages st) (friendships st) (nextId st) (rooms st)
       (currentUser st) (ticks st) (out st).

Definition set_messages (f : list Message -> list Message) (st : St) : St :=
  mkSt (users st) (f (messages st)) (friendships st) (nextId st) (rooms st)
       (currentUser st) (ticks st) (out st).

Definition set_friendships (f : list Friendship -> list Friendship) (st : St) : St :=
  mkSt (users st) (messages st) (f (friendships st)) (nextId st) (rooms st)
       (currentUser st) (ticks st) (out st).

Definition set_nextId (n : nat) (st : St) : St :=
  mkSt (users st) (messages st) (friendships st) n (rooms st)
       (currentUser st) (ticks st) (out st).

Definition set_rooms
    (f : gmap (option string) (gset string) -> gmap (option string) (gset string))
    (st : St) : St :=
  mkSt (users st) (messages st) (friendships st) (nextId st) (f (rooms st))
       (currentUser st) (ticks st) (out st).

Definition set_currentUser
    (f : gmap string CurrentUser -> gmap string CurrentUser) (st : St) : St :=
  mkSt (users st) (messages st) (friendships st) (nextId st) (rooms st)
       (f (currentUser st)) (ticks st) (out st).

Definition set_ticks (n : nat) (st : St) : St :=
  mkSt (users st) (messages st) (friendships st) (nextId st) (rooms st)
       (currentUser st) n (out st).

Definition set_out (f : list Emission -> list Emission) (st : St) : St :=
  mkSt (users st) (messages st) (friendships st) (nextId st) (rooms st)
       (currentUser st) (ticks st) (f (out st)).

(** Outcome of a computation: a value or a thrown exception. *)
Inductive Result (A : Type) :=
| Ok (a : A)
| Throw (err : string).
Arguments Ok {A} a.
Arguments Throw {A} err.

Definition M (A : Type) : Type := Env -> St -> Result A * St.

Definition ret {A} (a : A) : M A := fun _ st => (Ok a, st).

Definition bind {A B} (c : M A) (k : A -> M B) : M B :=
  fun env st =>
    match c env st with
    | (Ok a, st') => k a env st'
    | (Throw e, st') => (Throw e, st')
    end.

#[global] Instance M_ret : MRet M := @ret.
#[global] Instance M_bind : MBind M := fun A B k c => bind c k.

Definition throw {A} (e : string) : M A := fun _ st => (Throw e, st).

(** [try { body } catch (error) { handler }] *)
Definition tryCatch (body : M unit) (handler : M unit) : M unit :=
  fun env st =>
    match body env st with
    | (Ok tt, st') => (Ok tt, st')
    | (Throw _, st') => handler env st'
    end.

Definition gets {A} (f : St -> A) : M A := fun _ st => (Ok (f st), st).
Definition modify (f : St -> St) : M unit := fun _ st => (Ok tt, f st).
Definition ask {A} (f : Env -> A) : M A := fun env st => (Ok (f env), st).

(** A call into the database: rejects when the environment says so. *)
Definition dbcall (op : DbOp) : M unit :=
  fun env st => if fails env op then (Throw "MongoError", st) else (Ok tt, st).

(** The strings that a query takes for ObjectIds are cast before the
    query is sent; one that does not cast rejects the query. *)
Definition cast_filter (values : list string) : M unit :=
  if forallb castable values then ret tt else throw "CastError".

(** [new Date()], [Date.now()] *)
Definition newDate : M Time :=
  fun env st => (Ok (clock env (ticks st)), set_ticks (S (ticks st)) st).

(** A fresh [ObjectId]. *)
Definition freshId : M nat :=
  fun _ st => (Ok (nextId st), set_nextId (S (nextId st)) st).

(** [const { ... } = data] throws a [TypeError] on [undefined]. *)
Definition destructure {A} (data : option A) : M A :=
  match data with
  | Some d => ret d
  | None => throw "TypeError"
  end.

(** The state a handler leaves behind. *)
Definition exec {A} (c : M A) (env : Env) (st : St) : St := snd (c env st).

(** *** Emitting and joining *)

Definition emit (t : Target) (e : Event) : M unit :=
  modify (set_out (fun o => (o ++ [Emit t e])%list)).

(** [socket.join(room)] *)
Definition socket_join (room : option string) : M unit :=
  s ← ask sid;
  modify (set_rooms (fun r => <[room := {[s]} ∪ default ∅ (r !! room)]> r)).

(** The connections an emission of the socket [origin] reaches, given the
    room table and the set [all] of live connections. *)
Definition deliver (rs : gmap (option string) (gset string)) (all : gset string)
    (origin : string) (t : Target) : gset string :=
  match t with
  | ToSelf => {[origin]}
  | ToRoom r => default ∅ (rs !! r)
  | ToRoomOthers r => default ∅ (rs !! r) ∖ {[origin]}
  | ToOthers => all ∖ {[origin]}
  end.

(** The terminal outcomes of [send-message]. *)
Definition is_terminal (e : Event) : bool :=
  match e with
  | MessageError _ | MessageDelivered _ _ => true
  | _ => false
  end.

(** The terminal events among [o] that reach the connection [c]. *)
Definition terminal_received (rs : gmap (option string) (gset string))
    (all : gset string) (origin c : string) (o : list Emission) : list Event :=
  event <$> filter (fun e => c ∈ deliver rs all origin (target e)
                             ∧ is_terminal (event e) = true) o.

(** ** [models/Friendship.js] *)

(** The filter [{ requester: a, recipient: b }], its two values cast. *)
Definition from_to (a b : string) (f : Friendship) : bool :=
  is_id a (requester f) && is_id b (recipient f).

(** The filter [{ requester: a, recipient: b, status: s }]. *)
Definition from_to_status (a b : string) (s : Status) (f : Friendship) : bool :=
  from_to a b f && Status_eqb (status f) s.

(** [Friendship.findOne(filter)]: the first document that matches;
    [values] are the user ids the filter names. *)
Definition Friendship_findOne (values : list string) (filter : Friendship -> bool)
    : M (option Friendship) :=
  cast_filter values;;
  dbcall FriendshipFindOne;;
  gets (fun st => List.find filter (friendships st)).

(** [FriendshipSchema.statics.areFriends] *)
Definition areFriends (userId1 userId2 : string) : M bool :=
  friendship ← Friendship_findOne [userId1; userId2]
    (fun f => from_to_status userId1 userId2 accepted f
              || from_to_status userId2 userId1 accepted f);
  mret (match friendship with Some _ => true | None => false end).

(** [new Friendship({ requester, recipient, status })], [createdAt] and
    [updatedAt] taking their default [Date.now]. The two ids are cast;
    when one does not cast the document is invalid ([None]), which its
    [save()] reports. *)
Definition new_Friendship (a b : string) (s : Status) : M (option Friendship) :=
  i ← freshId;
  t1 ← newDate;
  t2 ← newDate;
  mret (match castObjectId a, castObjectId b with
        | Some a', Some b' => Some (mkFriendship i a' b' s t1 t2)
        | _, _ => None
        end).

Definition with_updatedAt (t : Time) (f : Friendship) : Friendship :=
  mkFriendship (f_id f) (requester f) (recipient f) (status f) (f_createdAt f) t.

Definition with_status (s : Status) (f : Friendship) : Friendship :=
  mkFriendship (f_id f) (requester f) (recipient f) s (f_createdAt f) (updatedAt f).

(** The two documents have the same requester and the same recipient. *)
Definition same_ends (f g : Friendship) : bool :=
  String.eqb (requester g) (requester f) && String.eqb (recipient g) (recipient f).

(** [friendship.save()] of a new document: an invalid document is
    rejected by the validation; otherwise the [pre('save')] hook stamps
    [updatedAt], and the insertion is rejected by the unique index on
    [(requester, recipient)] when a document with the same ordered pair
    exists. *)
Definition Friendship_insert (doc : option Friendship) : M Friendship :=
  match doc with
  | None => throw "ValidationError"
  | Some f =>
      t ← newDate;
      dbcall FriendshipSave;;
      taken ← gets (fun st => existsb (same_ends f) (friendships st));
      if (taken : bool) then throw "E11000 duplicate key"
      else
        let f' := with_updatedAt t f in
        modify (set_friendships (fun l => (l ++ [f'])%list));;
        mret f'
  end.

(** [friendship.save()] of a document read from the collection: the hook
    stamps [updatedAt], the stored document of that [_id] is replaced. *)
Definition Friendship_update (f : Friendship) : M Friendship :=
  t ← newDate;
  dbcall FriendshipSave;;
  let f' := with_updatedAt t f in
  modify (set_friendships (map (fun g => if Nat.eqb (f_id g) (f_id f) then f' else g)));;
  mret f'.

Fixpoint delete_first (i : nat) (l : list Friendship) : list Friendship :=
  match l with
  | [] => []
  | f :: l' => if Nat.eqb (f_id f) i then l' else f :: delete_first i l'
  end.

(** [Friendship.findByIdAndDelete(id)] *)
Definition Friendship_findByIdAndDelete (i : nat) : M unit :=
  dbcall FriendshipFindByIdAndDelete;;
  modify (set_friendships (delete_first i)).

(** ** [models/User.js] queries *)

(** [User.findById(id)]: the id is cast; [undefined] finds nothing. *)
Definition User_findById (id : option string) : M (option User) :=
  cast_filter (option_list id);;
  dbcall UserFindById;;
  gets (fun st => match id ≫= castObjectId with
                  | Some i => users st !! i
                  | None => None
                  end).

(** [User.findByIdAndUpdate(id, update)]: the id is cast; nothing happens
    when no user has that id. *)
Definition User_findByIdAndUpdate (id : option string) (update : User -> User) : M unit :=
  cast_filter (option_list id);;
  dbcall UserFindByIdAndUpdate;;
  match id ≫= castObjectId with
  | Some i => modify (set_users (alter update i))
  | None => mret tt
  end.

(** [doc.populate(path, 'username')] of a stored reference: the referenced
    user's name, [null] when there is no such user. *)
Definition populate (op : DbOp) (id : string) : M (option string) :=
  dbcall op;;
  gets (fun st => username <$> users st !! id).

(** ** [models/Message.js] *)

(** [new Message({ sender, recipient, content, messageType })]: [sender]
    and [recipient] are cast, [content] goes through the [trim] setter of
    the schema, [isRead] and [createdAt] take their defaults. When an id
    does not cast the document is invalid ([None]), which its [save()]
    reports. *)
Definition new_Message (from to body : string) (ty : MessageType) : M (option Message) :=
  i ← freshId;
  t ← newDate;
  mret (match castObjectId from, castObjectId to with
        | Some from', Some to' =>
            Some (mkMessage i from' to' (Js.trim body) ty None None None false None t)
        | _, _ => None
        end).

(** [message.save()]: the validation rejects an invalid document, and the
    [required] validator of [content] the empty string; then the document
    is inserted. The result is the saved document. *)
Definition Message_save (doc : option Message) : M Message :=
  match doc with
  | None => throw "ValidationError"
  | Some m =>
      match content m with
      | EmptyString => throw "ValidationError"
      | _ =>
          dbcall MessageSave;;
          modify (set_messages (fun l => (l ++ [m])%list));;
          mret m
      end
  end.

Definition mark_read (t : Time) (m : Message) : Message :=
  mkMessage (m_id m) (sender m) (m_recipient m) (content m) (messageType m)
            (filePath m) (fileSize m) (fileName m) true (Some t) (createdAt m).

(** A filter value, cast, against a stored id; [undefined] matches no
    document. *)
Definition id_is (v : option string) (s : string) : bool :=
  match v with
  | Some x => is_id x s
  | None => false
  end.

(** The filter [{ sender: a, recipient: b, isRead: false }]. *)
Definition unread_from_to (a b : option string) (m : Message) : bool :=
  id_is a (sender m) && id_is b (m_recipient m) && negb (isRead m).

(** [Message.updateMany(filter, update)]; [values] are the user ids the
    filter names. *)
Definition Message_updateMany (values : list string)
    (filter : Message -> bool) (update : Message -> Message) : M unit :=
  cast_filter values;;
  dbcall MessageUpdateMany;;
  modify (set_messages (map (fun m => if filter m then update m else m))).

(** ** The connection handlers of [app.js] *)

Record UserConnectedData := mkUserConnectedData {
  uc_userId : option string;
  uc_username : option string
}.

Record PairData := mkPairData {
  senderId : option string;
  recipientId : option string
}.

Record SendMessageData := mkSendMessageData {
  sm_senderId : option string;
  sm_recipientId : option string;
  sm_content : option string
}.

Definition online_at (t : Time) (s : string) (u : User) : User :=
  mkUser (username u) true t (Some s).

Definition active_at (t : Time) (u : User) : User :=
  mkUser (username u) true t (socketId u).

Definition seen_at (t : Time) (u : User) : User :=
  mkUser (username u) (isOnline u) t (socketId u).

Definition offline_at (t : Time) (u : User) : User :=
  mkUser (username u) false t None.

(** [socket.on('user-connected', ...)] *)
Definition user_connected (data : option UserConnectedData) : M unit :=
  tryCatch
    (d ← destructure data;
     s ← ask sid;
     modify (set_currentUser (<[s := mkCurrentUser (uc_userId d) (uc_username d)]>));;
     t ← newDate;
     User_findByIdAndUpdate (uc_userId d) (online_at t s);;
     socket_join (uc_userId d);;
     t' ← newDate;
     emit ToOthers (UserStatusUpdate (uc_userId d) true t'))
    (mret tt).

(** [[senderId, recipientId].sort().join('-')] on raw payload fields:
    [sort] moves [undefined] to the end and [join] prints it as the empty
    string. *)
Definition chatRoom_raw (a b : option string) : string :=
  match a, b with
  | Some x, Some y => chatRoom x y
  | Some x, None => x ++ "-"
  | None, Some y => y ++ "-"
  | None, None => "-"
  end.

(** [socket.on('join-chat', ...)] *)
Definition join_chat (data : option PairData) : M unit :=
  tryCatch
    (d ← destructure data;
     socket_join (Some (chatRoom_raw (senderId d) (recipientId d))))
    (mret tt).

(** [socket.on('send-message', ...)] *)
Definition send_message (data : option SendMessageData) : M unit :=
  tryCatch
    (d ← destructure data;
     match Js.truthy (sm_senderId d), Js.truthy (sm_recipientId d),
           Js.truthy (sm_content d) with
     | Some from, Some to, Some body =>
         friends ← areFriends from to;
         if (friends : bool) then
           document ← new_Message from to (Js.trim body) text;
           message ← Message_save document;
           senderName ← populate PopulateFirst (sender message);
           recipientName ← populate PopulateSecond (m_recipient message);
           emit (ToRoom (Some (chatRoom from to)))
                (NewMessage message senderName recipientName);;
           emit (ToRoomOthers (Some to))
                (NewMessage message senderName recipientName);;
           emit ToSelf (MessageDelivered (m_id message) (createdAt message))
         else
           emit ToSelf (MessageError "You can only message friends")
     | _, _, _ =>
         emit ToSelf (MessageError "Missing required fields")
     end)
    (emit ToSelf (MessageError "Failed to send message")).

(** [socket.on('mark-messages-read', ...)] *)
Definition mark_messages_read (data : option PairData) : M unit :=
  tryCatch
    (d ← destructure data;
     t ← newDate;
     Message_updateMany (option_list (senderId d) ++ option_list (recipientId d))
                        (unread_from_to (senderId d) (recipientId d)) (mark_read t);;
     senderUser ← User_findById (senderId d);
     match Js.truthy (senderUser ≫= socketId) with
     | Some s =>
         t' ← newDate;
         emit (ToRoom (Some s)) (MessagesRead (recipientId d) t')
     | None => mret tt
     end)
    (mret tt).

(** [socket.on('user-active', ...)] *)
Definition user_active (userId : option string) : M unit :=
  tryCatch
    (t ← newDate;
     User_findByIdAndUpdate userId (active_at t);;
     t' ← newDate;
     emit ToOthers (UserStatusUpdate userId true t'))
    (mret tt).

(** [socket.on('user-inactive', ...)] *)
Definition user_inactive (userId : option string) : M unit :=
  tryCatch
    (t ← newDate;
     User_findByIdAndUpdate userId (seen_at t);;
     t' ← newDate;
     emit ToOthers (UserStatusUpdate userId false t'))
    (mret tt).

(** [socket.on('user-disconnected', ...)] *)
Definition user_disconnected (userId : option string) : M unit :=
  tryCatch
    (match Js.truthy userId with
     | Some u =>
         t ← newDate;
         User_findByIdAndUpdate (Some u) (offline_at t);;
         t' ← newDate;
         emit ToOthers (UserStatusUpdate (Some u) false t')
     | None => mret tt
     end)
    (mret tt).

(** [socket.on('disconnect', ...)] *)
Definition disconnect : M unit :=
  tryCatch
    (s ← ask sid;
     cu ← gets (fun st => currentUser st !! s);
     match Js.truthy (cu ≫= cu_userId) with
     | Some u =>
         t ← newDate;
         User_findByIdAndUpdate (Some u) (offline_at t);;
         t' ← newDate;
         emit ToOthers (UserStatusUpdate (Some u) false t')
     | None => mret tt
     end)
    (mret tt).

(** The events a client sends on a connection, and their dispatch. *)
Inductive ClientEvent :=
| UserConnected (data : option UserConnectedData)
| JoinChat (data : option PairData)
| SendMessage (data : option SendMessageData)
| MarkMessagesRead (data : option PairData)
| UserActive (userId : option string)
| UserInactive (userId : option string)
| UserDisconnected (userId : option string)
| Disconnect.

Definition handle (ev : ClientEvent) : M unit :=
  match ev with
  | UserConnected d => user_connected d
  | JoinChat d => join_chat d
  | SendMessage d => send_message d
  | MarkMessagesRead d => mark_messages_read d
  | UserActive u => user_active u
  | UserInactive u => user_inactive u
  | UserDisconnected u => user_disconnected u
  | Disconnect => disconnect
  end.

(** Events handled in arrival order, each with the socket id of its
    connection and with the database and the clock as they are at that
    time. *)
Fixpoint handle_all (evs : list (Env * ClientEvent)) (st : St) : St :=
  match evs with
  | [] => st
  | (env, ev) :: evs' => handle_all evs' (exec (handle ev) env st)
  end.

Definition is_UserConnected (ev : ClientEvent) : bool :=
  match ev with
  | UserConnected _ => true
  | _ => false
  end.

(** ** The friendship routes of [routes/friends.js] *)

Record Response := mkResponse {
  code : nat;
  body : string
}.

(** [res.json(...)], [res.status(c).json({ error })] *)
Definition json (c : nat) (msg : string) : M Response := mret (mkResponse c msg).

(** The [try]/[catch] of a route: a rejection becomes a 500 response. *)
Definition tryRoute (route : M Response) : M Response :=
  fun env st =>
    match route env st with
    | (Ok r, st') => (Ok r, st')
    | (Throw _, st') => (Ok (mkResponse 500 "Server error"), st')
    end.

(** The middleware [isLoggedIn] in front of a route: without a user id in
    the session the request is redirected. *)
Definition isLoggedIn (session : option string) (next : string -> M Response)
    : M Response :=
  match Js.truthy session with
  | Some userId => next userId
  | None => mret (mkResponse 302 "/login")
  end.

(** [router.post('/api/friends/request', ...)] *)
Definition friends_request (session recipientId : option string) : M Response :=
  isLoggedIn session (fun requesterId =>
    tryRoute
      match Js.truthy recipientId with
      | None => json 400 "Recipient ID required"
      | Some recipientId =>
          if String.eqb requesterId recipientId then
            json 400 "Cannot send friend request to yourself"
          else
            recipient_ ← User_findById (Some recipientId);
            match recipient_ with
            | None => json 404 "User not found"
            | Some _ =>
                existingFriendship ← Friendship_findOne [requesterId; recipientId]
                  (fun f => from_to requesterId recipientId f
                            || from_to recipientId requesterId f);
                let create :=
                  document ← new_Friendship requesterId recipientId pending;
                  friendship ← Friendship_insert document;
                  populate PopulateFirst (requester friendship);;
                  populate PopulateSecond (recipient friendship);;
                  json 200 "Friend request sent successfully" in
                match status <$> existingFriendship with
                | Some accepted => json 400 "You are already friends"
                | Some pending => json 400 "Friend request already sent"
                | _ => create
                end
            end
      end).

(** The filter [{ _id: i, recipient: u, status: 'pending' }]. *)
Definition pending_for (i : nat) (u : string) (f : Friendship) : bool :=
  Nat.eqb (f_id f) i && is_id u (recipient f) && Status_eqb (status f) pending.

(** [router.post('/api/friends/accept', ...)] *)
Definition friends_accept (session : option string) (friendshipId : option nat)
    : M Response :=
  isLoggedIn session (fun currentUserId =>
    tryRoute
      match friendshipId with
      | None => json 400 "Friendship ID required"
      | Some i =>
          friendship ← Friendship_findOne [currentUserId] (pending_for i currentUserId);
          match friendship with
          | None => json 404 "Friend request not found"
          | Some f =>
              f' ← Friendship_update (with_status accepted f);
              populate PopulateFirst (requester f');;
              populate PopulateSecond (recipient f');;
              json 200 "Friend request accepted"
          end
      end).

(** [router.post('/api/friends/decline', ...)] *)
Definition friends_decline (session : option string) (friendshipId : option nat)
    : M Response :=
  isLoggedIn session (fun currentUserId =>
    tryRoute
      match friendshipId with
      | None => json 400 "Friendship ID required"
      | Some i =>
          friendship ← Friendship_findOne [currentUserId] (pending_for i currentUserId);
          match friendship with
          | None => json 404 "Friend request not found"
          | Some _ =>
              Friendship_findByIdAndDelete i;;
              json 200 "Friend request declined"
          end
      end).

(** [router.post('/api/friends/remove', ...)] *)
Definition friends_remove (session friendId : option string) : M Response :=
  isLoggedIn session (fun currentUserId =>
    tryRoute
      match Js.truthy friendId with
      | None => json 400 "Friend ID required"
      | Some friendId =>
          friendship ← Friendship_findOne [currentUserId; friendId]
            (fun f => from_to_status currentUserId friendId accepted f
                      || from_to_status friendId currentUserId accepted f);
          match friendship with
          | None => json 404 "Friendship not found"
          | Some f =>
              Friendship_findByIdAndDelete (f_id f);;
              json 200 "Friend removed successfully"
          end
      end).

(** A request to one of the four routes, by the user of the session. *)
Inductive FriendOp :=
| Request (session recipientId : option string)
| Accept (session : option string) (friendshipId : option nat)
| Decline (session : option string) (friendshipId : option nat)
| Remove (session friendId : option string).

Definition friend_route (op : FriendOp) : M Response :=
  match op with
  | Request s r => friends_request s r
  | Accept s i => friends_accept s i
  | Decline s i => friends_decline s i
  | Remove s r => friends_remove s r
  end.

(** Requests served one after the other, each in its own environment. *)
Fixpoint serve (ops : list (Env * FriendOp)) (st : St) : St :=
  match ops with
  | [] => st
  | (env, op) :: ops' => serve ops' (exec (friend_route op) env st)
  end.

(** Two edges join the same unordered pair of users. *)
Definition same_pair (f g : Friendship) : Prop :=
  (requester f = requester g ∧ recipient f = recipient g)
  ∨ (requester f = recipient g ∧ recipient f = requester g).

(** At most one edge per unordered pair: two positions of the collection
    that hold edges of the same pair are the same position. *)
Definition one_edge_per_pair (l : list Friendship) : Prop :=
  ∀ i j f g, l !! i = Some f → l !! j = Some g → same_pair f g → i = j.

(** ** Vocabulary of the statements *)

(** The strings [a] and [b] cast to the two ends of the edge [f], in
    either direction. *)
Definition joins (f : Friendship) (a b : string) : Prop :=
  (castObjectId a = Some (requester f) ∧ castObjectId b = Some (recipient f))
  ∨ (castObjectId b = Some (requester f) ∧ castObjectId a = Some (recipient f)).

(** An accepted edge joins the users of the ids [a] and [b], in either
    direction. *)
Definition friends_in (l : list Friendship) (a b : string) : Prop :=
  ∃ f, f ∈ l ∧ status f = accepted ∧ joins f a b.

(** The answer of [areFriends] on the collection [l]. *)
Definition accepted_between (l : list Friendship) (a b : string) : bool :=
  match List.find (fun f => from_to_status a b accepted f
                            || from_to_status b a accepted f) l with
  | Some _ => true
  | None => false
  end.

(** No database call of the environment rejects. *)
Definition reliable (env : Env) : Prop := ∀ op, fails env op = false.

(** What a handler emitted: the emissions after those already in [st]. *)
Definition emitted {A} (c : M A) (env : Env) (st : St) : list Emission :=
  drop (length (out st)) (out (exec c env st)).

(** No two edges of the list join the same unordered pair. *)
Inductive distinct_pairs : list Friendship → Prop :=
| distinct_nil : distinct_pairs []
| distinct_cons f l :
    Forall (fun g => ¬ same_pair f g) l → distinct_pairs l →
    distinct_pairs (f :: l).

(** The statuses the routes leave in the collection. *)
Definition live (f : Friendship) : Prop := status f = pending ∨ status f = accepted.

(** The collection as the routes keep it: one edge per unordered pair,
    pending or accepted, with distinct ids below the next fresh id [n]. *)
Definition well_kept (n : nat) (l : list Friendship) : Prop :=
  distinct_pairs l ∧ Forall live l
  ∧ NoDup (f_id <$> l) ∧ Forall (fun f => f_id f < n) l.

Definition kept (st : St) : Prop := well_kept (nextId st) (friendships st).

(** What marking offline the user of the payload [u], whose id is [i],
    does to [st] under [env]: the user record of [i], if there is one,
    keeps its name and gets [isOnline] false, [lastSeen] the time of the
    update and [socketId] null; every other user record is as before; one
    user-status-update, naming [u] as offline, is broadcast; nothing else
    changes. *)
Definition went_offline (env : Env) (st : St) (u i : string) (st' : St) : Prop :=
  (∀ usr, users st !! i = Some usr →
          users st' !! i = Some (mkUser (username usr) false (clock env (ticks st)) None))
  ∧ (users st !! i = None → users st' !! i = None)
  ∧ (∀ k, k ≠ i → users st' !! k = users st !! k)
  ∧ out st' = (out st ++ [Emit ToOthers
                            (UserStatusUpdate (Some u) false
                                              (clock env (S (ticks st))))])%list
  ∧ messages st' = messages st ∧ friendships st' = friendships st
  ∧ rooms st' = rooms st ∧ currentUser st' = currentUser st.

(** The document [send-message] creates in [st] under [env], from the user
    of id [from] to the user of id [to]. *)
Definition created (env : Env) (st : St) (from to body : string) : Message :=
  mkMessage (nextId st) from to (Js.trim body) text None None None false None
            (clock env (ticks st)).

(** The state after [new Message] in [st], which takes an id and reads
    the clock, and the emissions [new]. *)
Definition after_new (st : St) (new : list Emission) : St :=
  set_out (fun o => (o ++ new)%list)
          (set_ticks (S (ticks st)) (set_nextId (S (nextId st)) st)).

(** How the error of a refused send-message reads: an empty field, a
    rejected lookup, a lookup that finds no accepted edge. *)
Definition error_text (env : Env) (from to : string) (body : option string)
    (error : string) : Prop :=
  (from = "" ∨ to = "" ∨ Js.truthy body = None → error = "Missing required fields")
  ∧ (from ≠ "" → to ≠ "" → Js.truthy body ≠ None →
     fails env FriendshipFindOne = true → error = "Failed to send message")
  ∧ (from ≠ "" → to ≠ "" → Js.truthy body ≠ None →
     fails env FriendshipFindOne = false →
     is_Some (castObjectId from) → is_Some (castObjectId to) →
     error = "You can only message friends").

(** The string is empty or starts with a character that is not white
    space. *)
Definition clean_start (s : string) : Prop :=
  match s with
  | EmptyString => True
  | String c _ => Js.is_white_space c = false
  end.

(** ** Sample states *)

Module Sample.

Definition env : Env := mkEnv "s1" (fun _ => false) (fun n => 1000 + Z.of_nat n)%Z.

(** The connection of another socket, with the same database and clock. *)
Definition env2 : Env := mkEnv "s2" (fun _ => false) (fun n => 1000 + Z.of_nat n)%Z.

(** The ids of two users, and the first of them as a client may also
    write it. *)
Definition a : string := "aaaaaaaaaaaaaaaaaaaaaaaa".
Definition b : string := "bbbbbbbbbbbbbbbbbbbbbbbb".
Definition a_upper : string := "AAAAAAAAAAAAAAAAAAAAAAAA".

Definition alice : User := mkUser "alice" true 0%Z (Some "s1").
Definition bob : User := mkUser "bob" true 0%Z (Some "s2").

Definition directory : gmap string User := <[a := alice]> (<[b := bob]> ∅).

(** [a] and [b] registered, no edge, no message, no connection that has
    identified itself. *)
Definition strangers : St := mkSt directory [] [] 0 ∅ ∅ 0 [].

(** The same with an accepted edge from [a] to [b]. *)
Definition friends : St :=
  mkSt directory [] [mkFriendship 0 a b accepted 0%Z 0%Z] 1 ∅ ∅ 0 [].

(** An unread message from [a] to [b], one [b] has read, and an unread
    one in the opposite direction. *)
Definition inbox : list Message :=
  [mkMessage 1 a b "one" text None None None false None 10%Z;
   mkMessage 2 a b "two" text None None None true (Some 25%Z) 20%Z;
   mkMessage 3 b a "three" text None None None false None 30%Z].

Definition chatting : St :=
  mkSt directory inbox [mkFriendship 0 a b accepted 0%Z 0%Z] 4 ∅ ∅ 0 [].

(** [a] asks [b], [b] asks back, [b] accepts the request of [a], [b]
    asks again, [a] removes [b], [b] asks [a]. *)
Definition courtship : list (Env * FriendOp) :=
  [(env, Request (Some a) (Some b));
   (env, Request (Some b) (Some a));
   (env, Accept (Some b) (Some 0));
   (env, Request (Some b) (Some a));
   (env, Remove (Some a) (Some b));
   (env, Request (Some b) (Some a))].

End Sample.

(** ** Times on the dashboard: [routes/basic.js] and [models/Post.js]

    Dates are milliseconds since the epoch; [Math.floor(a / b)] with a
    positive [b] is the floor division of [Z], [a % b] the remainder that
    takes the sign of [a]; a number in a template literal prints in
    decimal. *)

Module Feed.

Definition hour_ms : Z := 1000 * 60 * 60.
Definition minute_ms : Z := 1000 * 60.
Definition day_ms : Z := 86400000.

(** The hours and the minutes of a remaining time, as both copies of the
    computation take them. *)
Definition remainingHours (remainingMs : Z) : Z := remainingMs / hour_ms.
Definition remainingMinutes (remainingMs : Z) : Z :=
  Z.rem remainingMs hour_ms / minute_ms.

(** [PostSchema.virtual('timeRemaining')], at the time [now]. *)
Definition timeRemaining (now expiresAt : Z) : string :=
  let remainingMs := (expiresAt - now)%Z in
  if (remainingMs <=? 0)%Z then "Expired"
  else
    if (0 <? remainingHours remainingMs)%Z then
      pretty (remainingHours remainingMs) ++ "h "
      ++ pretty (remainingMinutes remainingMs) ++ "m left"
    else pretty (remainingMinutes remainingMs) ++ "m left".

(** The [timeRemaining] that the dashboard route computes for a post of
    the feed. *)
Definition dashboard_timeRemaining (now expiresAt : Z) : string :=
  let remainingMs := (expiresAt - now)%Z in
  let timeRemaining := "Expired" in
  if (0 <? remainingMs)%Z then
    if (0 <? remainingHours remainingMs)%Z then
      pretty (remainingHours remainingMs) ++ "h "
      ++ pretty (remainingMinutes remainingMs) ++ "m left"
    else pretty (remainingMinutes remainingMs) ++ "m left"
  else timeRemaining.

(** [`${n} ${unit}${n > 1 ? 's' : ''} ago`] *)
Definition ago (n : Z) (unit : string) : string :=
  pretty n ++ " " ++ unit ++ (if (1 <? n)%Z then "s" else "") ++ " ago".

(** The [timeAgo] that the dashboard route computes for a post of the
    feed. *)
Definition timeAgo (now createdAt : Z) : string :=
  let timeDiff := (now - createdAt)%Z in
  if (timeDiff <? 60000)%Z then "Just now"
  else if (timeDiff <? 3600000)%Z then ago (timeDiff / 60000) "minute"
  else if (timeDiff <? 86400000)%Z then ago (timeDiff / 3600000) "hour"
  else ago (timeDiff / 86400000) "day".

(** An element of [likes] of [PostSchema]. *)
Record Like := mkLike {
  like_user : string;
  like_createdAt : Time
}.

(** [PostSchema.methods.isLikedBy] *)
Definition isLikedBy (userId : string) (likes : list Like) : bool :=
  existsb (fun like => String.eqb (like_user like) userId) likes.

(** [PostSchema.methods.toggleLike]: the answer and the new [likes]; a new
    like takes the default [createdAt], the time [now]. *)
Definition toggleLike (now : Time) (userId : string) (likes : list Like)
    : bool * list Like :=
  match List.find (fun like => String.eqb (like_user like) userId) likes with
  | Some existingLike =>
      (false, List.filter (fun like => negb (String.eqb (like_user like) userId)) likes)
  | None => (true, (likes ++ [mkLike userId now])%list)
  end.

(** The virtual [likeCount]. *)
Definition likeCount (likes : list Like) : nat := length likes.

End Feed.

(** ** Queries and routes around the messaging core *)

(** A call into the database at a call site that [DbOp] does not name;
    whether it rejects is an argument of the model of its caller. *)
Definition dbcall_when (rejects : bool) : M unit :=
  fun _ st => if rejects then (Throw "MongoError", st) else (Ok tt, st).

(** [array.map(f)] with an [f] that may throw. *)
Fixpoint mapM {A B} (f : A → M B) (l : list A) : M (list B) :=
  match l with
  | [] => mret []
  | x :: l' =>
      y ← f x;
      ys ← mapM f l';
      mret (y :: ys)
  end.

(** [.sort(...)] of a query, by insertion; documents with equal keys stay
    in the order of the collection. *)
Fixpoint insert_by {A} (le : A → A → bool) (x : A) (l : list A) : list A :=
  match l with
  | [] => [x]
  | y :: l' => if le x y then x :: l else y :: insert_by le x l'
  end.

Definition sort_by {A} (le : A → A → bool) (l : list A) : list A :=
  foldr (insert_by le) [] l.

(** A populated reference: the id and the document of the user, [None]
    ([null]) when no user has the id. *)
Definition populated (us : gmap string User) (id : string) : option (string * User) :=
  (fun u => (id, u)) <$> us !! id.

(** [Friendship.find(filter)] with the populated [requester] and
    [recipient] of each edge; [values] are the user ids the filter names. *)
Definition Friendship_find
    (rejects : bool) (values : list string) (filter : Friendship → bool)
    : M (list (Friendship * option (string * User) * option (string * User))) :=
  cast_filter values;;
  dbcall_when rejects;;
  gets (fun st =>
          (fun f => (f, populated (users st) (requester f),
                        populated (users st) (recipient f)))
            <$> List.filter filter (friendships st)).

(** The filter [{ $or: [{ requester: u, status }, { recipient: u, status }] }]. *)
Definition end_with_status (u : string) (s : Status) (f : Friendship) : bool :=
  (is_id u (requester f) && Status_eqb (status f) s)
  || (is_id u (recipient f) && Status_eqb (status f) s).

(** [FriendshipSchema.statics.getFriends]: of every accepted edge of the
    user, the recipient when the id of the requester prints as [userId],
    the requester otherwise; reading [_id] of a requester that populated to
    [null] throws. *)
Definition getFriends (rejects : bool) (userId : string)
    : M (list (option (string * User))) :=
  friendships ← Friendship_find rejects [userId] (end_with_status userId accepted);
  mapM (fun '(_, requester_, recipient_) =>
          match requester_ with
          | None => throw "TypeError"
          | Some (i, u) =>
              if String.eqb i userId then mret recipient_ else mret (Some (i, u))
          end)
       friendships.

Definition newest_first (x y : Friendship * option (string * User) * option (string * User))
    : bool :=
  (f_createdAt y.1.1 <=? f_createdAt x.1.1)%Z.

(** [FriendshipSchema.statics.getPendingRequests] *)
Definition getPendingRequests (rejects : bool) (userId : string)
    : M (list (Friendship * option (string * User))) :=
  requests ← Friendship_find rejects [userId]
    (fun f => is_id userId (recipient f) && Status_eqb (status f) pending);
  mret ((fun r => (r.1.1, r.1.2)) <$> sort_by newest_first requests).

(** [FriendshipSchema.statics.getSentRequests] *)
Definition getSentRequests (rejects : bool) (userId : string)
    : M (list (Friendship * option (string * User))) :=
  requests ← Friendship_find rejects [userId]
    (fun f => is_id userId (requester f) && Status_eqb (status f) pending);
  mret ((fun r => (r.1.1, r.2)) <$> sort_by newest_first requests).

(** [io.on('connection', (socket) => { let currentUser = null; ... })]:
    Socket.IO puts a new socket in the room of its own id, and the
    [currentUser] of the new connection is null. *)
Definition connection : M unit :=
  s ← ask sid;
  socket_join (Some s);;
  modify (set_currentUser (delete s)).

(** The events of the handlers that keep no state. *)
Inductive Notice :=
| UserTyping (userId : option string) (isTyping : bool).

(** [socket.on('typing-start', ...)] ([isTyping] true) and
    [socket.on('typing-stop', ...)] ([isTyping] false): no [try], the
    destructuring of an [undefined] payload throws out of the handler. *)
Definition typing (isTyping : bool) (data : option PairData)
    : Result (Target * Notice) :=
  match data with
  | None => Throw "TypeError"
  | Some d =>
      Ok (ToRoomOthers (Some (chatRoom_raw (senderId d) (recipientId d))),
          UserTyping (senderId d) isTyping)
  end.

(** What a route of [routes/messages.js] answers. *)
Inductive Reply (A : Type) :=
| Redirect (location : string)
| Failure (code : nat) (error : string)
| Json (data : A).
Arguments Redirect {A} location.
Arguments Failure {A} code error.
Arguments Json {A} data.

(** The [try]/[catch] of these routes. *)
Definition tryReply {A} (route : M (Reply A)) : M (Reply A) :=
  fun env st =>
    match route env st with
    | (Ok r, st') => (Ok r, st')
    | (Throw _, st') => (Ok (Failure 500 "Server error"), st')
    end.

(** A message document with [sender] and [recipient] populated by their
    [username]. *)
Definition Enriched : Type := Message * option string * option string.

(** [router.post('/api/messages', ...)], the fallback for clients without
    a socket. *)
Definition api_messages_post (session recipientId content_ : option string)
    : M (Reply Enriched) :=
  match Js.truthy session with
  | None => mret (Redirect "/login")
  | Some senderId =>
      tryReply
        match Js.truthy recipientId, Js.truthy content_ with
        | Some to, Some body =>
            friends ← areFriends senderId to;
            if (friends : bool) then
              document ← new_Message senderId to (Js.trim body) text;
              message ← Message_save document;
              senderName ← populate PopulateFirst (sender message);
              recipientName ← populate PopulateSecond (m_recipient message);
              mret (Json (message, senderName, recipientName))
            else mret (Failure 403 "You can only message friends")
        | _, _ => mret (Failure 400 "Recipient and content required")
        end
  end.

(** The filter [{ $or: [{ sender: a, recipient: b }, { sender: b, recipient: a }] }]. *)
Definition between (a b : string) (m : Message) : bool :=
  (is_id a (sender m) && is_id b (m_recipient m))
  || (is_id b (sender m) && is_id a (m_recipient m)).

Definition oldest_first (x y : Message) : bool := (createdAt x <=? createdAt y)%Z.

(** [Message.find(filter).populate(...).populate(...).sort({ createdAt: 1 }).limit(50)] *)
Definition Message_history (rejects : bool) (a b : string) : M (list Enriched) :=
  cast_filter [a; b];;
  dbcall_when rejects;;
  gets (fun st =>
          (fun m => (m, username <$> users st !! sender m,
                        username <$> users st !! m_recipient m))
            <$> take 50 (sort_by oldest_first (List.filter (between a b) (messages st)))).

(** [router.get('/api/messages/:userId', ...)] *)
Definition api_messages_history (rejects : bool) (session : option string) (userId : string)
    : M (Reply (list Enriched)) :=
  match Js.truthy session with
  | None => mret (Redirect "/login")
  | Some currentUserId =>
      tryReply
        (friends ← areFriends currentUserId userId;
         if (friends : bool) then
           messages_ ← Message_history rejects currentUserId userId;
           t ← newDate;
           Message_updateMany [userId; currentUserId]
                              (unread_from_to (Some userId) (Some currentUserId))
                              (mark_read t);;
           mret (Json messages_)
         else mret (Failure 403 "You can only message friends"))
  end.

(** [router.get('/api/users', ...)] *)
Definition api_users (rejects : bool) (session : option string)
    : M (Reply (list (option (string * User)))) :=
  match Js.truthy session with
  | None => mret (Redirect "/login")
  | Some userId =>
      tryReply
        (friends ← getFriends rejects userId;
         mret (Json friends))
  end.

(** ** The GET routes of [routes/messages.js]

    Express tries the routes of a router in the order of their
    registration and hands the request to the first whose path matches; a
    segment [:name] of a path matches any one segment of the request. How a
    literal segment is compared (by default without regard to case) is left
    to [lit]. *)

Inductive Segment :=
| Lit (s : string)
| Param.

(** The parameters of the request path when it matches the route path. *)
Fixpoint match_path (lit : string → string → bool)
    (pattern : list Segment) (path : list string) : option (list string) :=
  match pattern, path with
  | [], [] => Some []
  | Lit s :: pattern', x :: path' =>
      if lit s x then match_path lit pattern' path' else None
  | Param :: pattern', x :: path' =>
      cons x <$> match_path lit pattern' path'
  | _, _ => None
  end.

(** The first route that matches, with its parameters. *)
Fixpoint dispatch {H} (lit : string → string → bool)
    (routes : list (list Segment * H)) (path : list string)
    : option (H * list string) :=
  match routes with
  | [] => None
  | (pattern, h) :: routes' =>
      match match_path lit pattern path with
      | Some params => Some (h, params)
      | None => dispatch lit routes' path
      end
  end.

Inductive MessagesGet := PageMessages | History | ApiUsers | UnreadCounts.

(** [router.get('/messages')], [router.get('/api/messages/:userId')],
    [router.get('/api/users')], [router.get('/api/messages/unread-counts')],
    in this order. *)
Definition messages_get_routes : list (list Segment * MessagesGet) :=
  [([Lit "messages"], PageMessages);
   ([Lit "api"; Lit "messages"; Param], History);
   ([Lit "api"; Lit "users"], ApiUsers);
   ([Lit "api"; Lit "messages"; Lit "unread-counts"], UnreadCounts)].

(** ** [public/js/script.js] *)

Module Client.

(** [s.replace(/c/g, by)] for a single character [c]. *)
Fixpoint replaceAll (c : ascii) (by_ : string) (s : string) : string :=
  match s with
  | EmptyString => EmptyString
  | String x r =>
      if Ascii.eqb x c then by_ ++ replaceAll c by_ r
      else String x (replaceAll c by_ r)
  end.

(** [escapeHtml] *)
Definition escapeHtml (unsafe : string) : string :=
  replaceAll "'" "&#039;"
    (replaceAll "034" "&quot;"
       (replaceAll ">" "&gt;"
          (replaceAll "<" "&lt;"
             (replaceAll "&" "&amp;" unsafe)))).

(** The entity of a character of markup, the character itself
    otherwise. *)
Definition entity (c : ascii) : string :=
  if Ascii.eqb c "&" then "&amp;"
  else if Ascii.eqb c "<" then "&lt;"
  else if Ascii.eqb c ">" then "&gt;"
  else if Ascii.eqb c "034" then "&quot;"
  else if Ascii.eqb c "'" then "&#039;"
  else String c EmptyString.

(** Every character replaced by its entity, in one pass. *)
Fixpoint escape_each (s : string) : string :=
  match s with
  | EmptyString => EmptyString
  | String c r => entity c ++ escape_each r
  end.

(** The character occurs in the string. *)
Fixpoint occurs (c : ascii) (s : string) : bool :=
  match s with
  | EmptyString => false
  | String x r => Ascii.eqb x c || occurs c r
  end.

End Client.

(** ** Vocabulary of the further statements *)

(** No edge joins the users of the ids [a] and [b], in either direction,
    whatever its status. *)
Definition unrelated (l : list Friendship) (a b : string) : Prop :=
  ∀ f, f ∈ l → ¬ joins f a b.

(** The message [m'] is [m] up to its read flag and read time, and is [m]
    itself when [m] was read. *)
Definition same_message (m m' : Message) : Prop :=
  m_id m' = m_id m ∧ sender m' = sender m ∧ m_recipient m' = m_recipient m
  ∧ content m' = content m ∧ messageType m' = messageType m
  ∧ filePath m' = filePath m ∧ fileSize m' = fileSize m
  ∧ fileName m' = fileName m
  ∧ createdAt m' = createdAt m
  ∧ (isRead m = true → m' = m).

(** Every message of [l] is still in [l'], at its position. *)
Definition messages_kept (l l' : list Message) : Prop :=
  ∀ i m, l !! i = Some m → ∃ m', l' !! i = Some m' ∧ same_message m m'.

(** The events among [o] that reach the connection [c]. *)
Definition received (rs : gmap (option string) (gset string)) (all : gset string)
    (origin c : string) (o : list Emission) : list Event :=
  event <$> filter (fun e => c ∈ deliver rs all origin (target e)) o.

(** ** Proof automation *)

(** One step of case analysis on the innermost scrutinee of the goal. *)
Ltac case_split :=
  match goal with
  | |- context [match ?x with _ => _ end] =>
      lazymatch x with
      | context [match _ with _ => _ end] => fail
      | _ => destruct x eqn:?
      end
  | |- context [if ?x then _ else _] =>
      lazymatch x with
      | context [if _ then _ else _] => fail
      | _ => destruct x eqn:?
      end
  end.

(** Unfold the monad and the primitives of the model. *)
Ltac unfold_monad :=
  unfold tryCatch, tryRoute, destructure, cast_filter, dbcall, emit, socket_join,
    newDate, freshId, gets, modify, ask, throw, json in *;
  unfold mbind, M_bind, bind, mret, M_ret, ret in *.

Ltac unfold_db :=
  unfold areFriends, Friendship_findOne, new_Friendship, Friendship_insert,
    Friendship_update, Friendship_findByIdAndDelete, User_findById,
    User_findByIdAndUpdate, populate, new_Message, Message_save,
    Message_updateMany in *.

(** * Properties *)

(** ** The pair channel *)

Section Channel.

Lemma append_empty (s : string) : "" ++ s = s.
Proof. reflexivity. Qed.

Lemma append_String (c : ascii) (s t : string) :
  String c s ++ t = String c (s ++ t).
Proof. reflexivity. Qed.

Lemma join_pair (a b : string) : Js.join "-" [a; b] = a ++ "-" ++ b.
Proof. reflexivity. Qed.

Lemma chatRoom_unfold (a b : string) :
  chatRoom a b = if String.leb a b then a ++ "-" ++ b else b ++ "-" ++ a.
Proof.
  unfold chatRoom. simpl. destruct (String.leb a b); reflexivity.
Qed.

(** Both arguments in ascending order. *)
Lemma chatRoom_sorted (a b : string) :
  ∃ x y, chatRoom a b = x ++ "-" ++ y
         ∧ ((x = a ∧ y = b) ∨ (x = b ∧ y = a)).
Proof.
  rewrite chatRoom_unfold. destruct (String.leb a b); eauto 6.
Qed.

(** In a joined pair whose first component has no separator, the first
    separator is the one [join] put there. *)
Lemma split_at_dash (x x' y y' : string) :
  dash_free x = true → dash_free x' = true →
  x ++ "-" ++ y = x' ++ "-" ++ y' → x = x' ∧ y = y'.
Proof.
  revert x'. induction x as [|c x IH]; intros [|c' x'] Hx Hx' Heq;
    repeat (rewrite append_empty in Heq || rewrite append_String in Heq);
    simpl in *.
  - injection Heq as ->. auto.
  - injection Heq as <- _. discriminate Hx'.
  - injection Heq as -> _. discriminate Hx.
  - injection Heq as -> Heq.
    apply andb_prop in Hx as [_ Hx]. apply andb_prop in Hx' as [_ Hx'].
    destruct (IH x' Hx Hx' Heq) as [-> ->]. auto.
Qed.

End Channel.

(** C6: the pair channel of [a] and [b] is the pair channel of [b] and
    [a], for all strings: both participants compute the same identifier
    whoever initiates. *)
Theorem chatRoom_symmetric (a b : string) : chatRoom a b = chatRoom b a.
Proof.
  rewrite !chatRoom_unfold.
  destruct (String.leb a b) eqn:Hab, (String.leb b a) eqn:Hba; try reflexivity.
  - rewrite (String.leb_antisym a b Hab Hba). reflexivity.
  - destruct (String.leb_total a b); congruence.
Qed.

(** C5, as stated, fails: ids that contain the separator collide, even
    with one id in common. *)
Lemma chatRoom_collision :
  "y-x" ≠ "x-y" ∧ chatRoom "x-y-x" "y-x" = chatRoom "x-y-x" "x-y".
Proof. split; [discriminate | reflexivity]. Qed.

(** C5, amended: on ids without the separator ['-'] the pair channel is
    collision-free: equal channel identifiers come from the same unordered
    pair. *)
Theorem chatRoom_injective (a b c d : string) :
  dash_free a = true → dash_free b = true →
  dash_free c = true → dash_free d = true →
  chatRoom a b = chatRoom c d →
  (a = c ∧ b = d) ∨ (a = d ∧ b = c).
Proof.
  intros Ha Hb Hc Hd Heq.
  destruct (chatRoom_sorted a b) as (x & y & Hxy & Hab).
  destruct (chatRoom_sorted c d) as (x' & y' & Hxy' & Hcd).
  rewrite Hxy, Hxy' in Heq.
  assert (dash_free x = true) by (destruct Hab as [[-> _]|[-> _]]; assumption).
  assert (dash_free x' = true) by (destruct Hcd as [[-> _]|[-> _]]; assumption).
  destruct (split_at_dash x x' y y') as [-> ->]; [assumption..|].
  destruct Hab as [[-> ->]|[-> ->]], Hcd as [[? ?]|[? ?]]; auto.
Qed.

Lemma chatRoom_injective_witness :
  ("u1" = "u2" ∧ "u2" = "u1") ∨ ("u1" = "u1" ∧ "u2" = "u2").
Proof.
  apply (chatRoom_injective "u1" "u2" "u2" "u1"); reflexivity.
Defined.

(** With one participant fixed, different partners give different
    channels, again on ids without the separator. *)
Corollary chatRoom_partner (a b c : string) :
  dash_free a = true → dash_free b = true → dash_free c = true →
  b ≠ c → chatRoom a b ≠ chatRoom a c.
Proof.
  intros Ha Hb Hc Hne Heq.
  destruct (chatRoom_injective a b a c Ha Hb Ha Hc Heq) as [[_ ?]|[? ?]]; congruence.
Qed.

(** ** ObjectIds *)

Section ObjectIds.

Lemma is_id_true (v i : string) : is_id v i = true ↔ castObjectId v = Some i.
Proof.
  unfold is_id. destruct (castObjectId v) as [j|]; [|split; discriminate].
  rewrite String.eqb_eq. split; congruence.
Qed.

Lemma is_id_cast (v i : string) : castObjectId v = Some i → is_id v i = true.
Proof. apply is_id_true. Qed.

Lemma castable_cast (v i : string) : castObjectId v = Some i → castable v = true.
Proof. unfold castable. intros ->. reflexivity. Qed.

(** The empty string is no ObjectId. *)
Lemma castObjectId_nonempty (v i : string) : castObjectId v = Some i → v ≠ "".
Proof. intros H ->. discriminate H. Qed.

Lemma lower_hex_digit_idem (c : ascii) :
  lower_hex_digit (lower_hex_digit c) = lower_hex_digit c.
Proof.
  unfold lower_hex_digit.
  destruct (Nat.leb 65 (nat_of_ascii c) && Nat.leb (nat_of_ascii c) 70) eqn:E.
  - apply andb_prop in E as [E1 E2].
    apply Nat.leb_le in E1, E2.
    rewrite nat_ascii_embedding by lia.
    destruct (Nat.leb_spec (nat_of_ascii c + 32) 70); [lia|].
    rewrite andb_false_r. reflexivity.
  - rewrite E. reflexivity.
Qed.

Lemma is_hex_digit_lower (c : ascii) :
  is_hex_digit c = true → is_hex_digit (lower_hex_digit c) = true.
Proof.
  unfold is_hex_digit, lower_hex_digit. intros H.
  destruct (Nat.leb 65 (nat_of_ascii c) && Nat.leb (nat_of_ascii c) 70) eqn:E;
    [|rewrite E; exact H].
  apply andb_prop in E as [E1 E2]. apply Nat.leb_le in E1, E2.
  rewrite nat_ascii_embedding by lia.
  apply orb_true_iff. right. apply andb_true_iff.
  split; apply Nat.leb_le; lia.
Qed.

Lemma lower_hex_stored (v : string) :
  all_hex v = true →
  String.length (lower_hex v) = String.length v
  ∧ all_hex (lower_hex v) = true ∧ lower_hex (lower_hex v) = lower_hex v.
Proof.
  induction v as [|c r IH]; simpl; [auto|]. intros H.
  apply andb_prop in H as [Hc Hr]. destruct (IH Hr) as (Hl & Hh & Hi).
  rewrite Hl, Hh, Hi, (is_hex_digit_lower c Hc), lower_hex_digit_idem. auto.
Qed.

(** A stored id casts to itself: a client that sends back an id it was
    given names the same user. *)
Lemma castObjectId_stored (v i : string) :
  castObjectId v = Some i → castObjectId i = Some i.
Proof.
  unfold castObjectId.
  destruct (Nat.eqb (String.length v) 24) eqn:El; [|discriminate].
  destruct (all_hex v) eqn:Eh; [|discriminate]. simpl. intros [= <-].
  destruct (lower_hex_stored v Eh) as (Hl & Hh & Hi).
  rewrite Hl, El, Hh, Hi. reflexivity.
Qed.

Lemma from_to_true (a b : string) (f : Friendship) :
  from_to a b f = true
  ↔ castObjectId a = Some (requester f) ∧ castObjectId b = Some (recipient f).
Proof. unfold from_to. rewrite andb_true_iff, !is_id_true. reflexivity. Qed.

Lemma from_to_either (a b : string) (f : Friendship) :
  from_to a b f || from_to b a f = true ↔ joins f a b.
Proof. unfold joins. rewrite orb_true_iff, !from_to_true. tauto. Qed.

Lemma joins_sym (f : Friendship) (a b : string) : joins f a b → joins f b a.
Proof. unfold joins. tauto. Qed.

Lemma joins_castable (f : Friendship) (a b : string) :
  joins f a b → castable a = true ∧ castable b = true.
Proof. intros [[Ha Hb]|[Hb Ha]]; split; eapply castable_cast; eassumption. Qed.

Lemma Status_eqb_true (s s' : Status) : Status_eqb s s' = true ↔ s = s'.
Proof. destruct s, s'; simpl; split; congruence. Qed.

End ObjectIds.

(** An id written in upper case is the id written in lower case, and a
    string that is not 24 hexadecimal digits is no id. *)
Example castObjectId_samples :
  castObjectId Sample.a_upper = Some Sample.a
  ∧ castObjectId Sample.a = Some Sample.a
  ∧ castObjectId "a" = None ∧ castObjectId "" = None
  ∧ castObjectId "zzzzzzzzzzzzzzzzzzzzzzzz" = None.
Proof. repeat split. Qed.

(** ** Running the handlers *)

Section Running.

Variables (env : Env) (st : St).

Lemma emitted_app {A} (c : M A) (new : list Emission) :
  out (exec c env st) = (out st ++ new)%list → emitted c env st = new.
Proof. unfold emitted. intros ->. apply drop_app_length. Qed.

Lemma accepted_filter (a b : string) (f : Friendship) :
  from_to_status a b accepted f || from_to_status b a accepted f = true
  ↔ status f = accepted ∧ joins f a b.
Proof.
  unfold from_to_status.
  rewrite orb_true_iff, !andb_true_iff, !Status_eqb_true, <- from_to_either,
    orb_true_iff.
  tauto.
Qed.

Lemma accepted_between_true (l : list Friendship) (a b : string) :
  accepted_between l a b = true ↔ friends_in l a b.
Proof.
  unfold accepted_between, friends_in. split.
  - destruct (List.find _ l) as [f|] eqn:E; [intros _|discriminate].
    apply find_some in E as [Hin Hf]. exists f.
    apply list_elem_of_In in Hin. split; [assumption|].
    apply accepted_filter, Hf.
  - intros (f & Hin & Hs & Hf).
    destruct (List.find _ l) as [g|] eqn:E; [reflexivity|]. exfalso.
    apply list_elem_of_In in Hin.
    pose proof (find_none _ _ E f Hin) as Hn. simpl in Hn.
    rewrite (proj2 (accepted_filter a b f)) in Hn by auto. discriminate.
Qed.

Lemma friends_in_castable (l : list Friendship) (a b : string) :
  friends_in l a b → castable a = true ∧ castable b = true.
Proof. intros (f & _ & _ & Hf). exact (joins_castable f a b Hf). Qed.

Lemma accepted_between_false (l : list Friendship) (a b : string) :
  accepted_between l a b = false ↔ ¬ friends_in l a b.
Proof.
  rewrite <- accepted_between_true. destruct (accepted_between l a b); split;
    congruence.
Qed.

Lemma areFriends_run (a b : string) :
  areFriends a b env st =
  if castable a && castable b then
    if fails env FriendshipFindOne then (Throw "MongoError", st)
    else (Ok (accepted_between (friendships st) a b), st)
  else (Throw "CastError", st).
Proof.
  unfold areFriends, Friendship_findOne, accepted_between. unfold_monad.
  simpl. rewrite andb_true_r.
  destruct (castable a && castable b); [|reflexivity]. simpl.
  destruct (fails env FriendshipFindOne); [reflexivity|]. simpl.
  destruct (List.find _ _); reflexivity.
Qed.

Lemma truthy_Some (s : string) : s ≠ "" → Js.truthy (Some s) = Some s.
Proof. destruct s; [congruence|reflexivity]. Qed.

Lemma truthy_Some_inv (v : option string) (s : string) :
  Js.truthy v = Some s → v = Some s ∧ s ≠ "".
Proof. destruct v as [[|c r]|]; simpl; intros [= <-]; split; congruence. Qed.

Lemma trim_nonempty (s : string) : Js.trim s ≠ "" → s ≠ "".
Proof. intros H ->. apply H. reflexivity. Qed.

Lemma trimStart_clean (s : string) : clean_start (Js.trimStart s).
Proof.
  induction s as [|c r IH]; simpl; [exact I|].
  destruct (Js.is_white_space c) eqn:E; [exact IH|exact E].
Qed.

Lemma trimStart_id (s : string) : clean_start s → Js.trimStart s = s.
Proof. destruct s as [|c r]; simpl; [reflexivity|]. intros ->. reflexivity. Qed.

Lemma trimEnd_clean (s : string) : clean_start s → clean_start (Js.trimEnd s).
Proof.
  destruct s as [|c r]; simpl; [auto|]. intros Hc.
  destruct (Js.trimEnd r); [rewrite Hc|]; exact Hc.
Qed.

Lemma trimEnd_idem (s : string) : Js.trimEnd (Js.trimEnd s) = Js.trimEnd s.
Proof.
  induction s as [|c r IH]; simpl; [reflexivity|].
  destruct (Js.trimEnd r) as [|c' r'] eqn:E.
  - destruct (Js.is_white_space c) eqn:Ec; simpl; [reflexivity|].
    rewrite Ec. reflexivity.
  - change (Js.trimEnd (String c (String c' r'))) with
      (match Js.trimEnd (String c' r') with
       | EmptyString =>
           if Js.is_white_space c then EmptyString else String c EmptyString
       | String a b => String c (String a b)
       end).
    rewrite IH. reflexivity.
Qed.

(** Trimming what is trimmed changes nothing: the [trim] setter of the
    schema leaves [content.trim()] as it is. *)
Lemma trim_idem (s : string) : Js.trim (Js.trim s) = Js.trim s.
Proof.
  unfold Js.trim.
  rewrite (trimStart_id (Js.trimEnd (Js.trimStart s))).
  - apply trimEnd_idem.
  - apply trimEnd_clean, trimStart_clean.
Qed.

End Running.

Arguments areFriends : simpl never.
Arguments Js.truthy : simpl never.

(** ** [send-message] *)

Section SendMessage.

Variables (env : Env) (st : St).

(** The handler between friends, by the database calls that are rejected:
    the save, then the two [populate], then the three emissions. *)
Lemma send_message_run (from to body i j : string) :
  castObjectId from = Some i → castObjectId to = Some j →
  Js.trim body ≠ "" → fails env FriendshipFindOne = false →
  friends_in (friendships st) from to →
  let m := created env st i j body in
  let announce :=
    NewMessage m (username <$> users st !! i) (username <$> users st !! j) in
  let failed := [Emit ToSelf (MessageError "Failed to send message")] in
  send_message (Some (mkSendMessageData (Some from) (Some to) (Some body))) env st
  = (Ok tt,
     if fails env MessageSave then after_new st failed
     else if fails env PopulateFirst || fails env PopulateSecond
          then set_messages (fun l => (l ++ [m])%list) (after_new st failed)
          else set_messages (fun l => (l ++ [m])%list)
                 (after_new st
                            [Emit (ToRoom (Some (chatRoom from to))) announce;
                             Emit (ToRoomOthers (Some to)) announce;
                             Emit ToSelf (MessageDelivered (m_id m) (createdAt m))])).
Proof.
  intros Hi Hj Hbody Hf Hfr m announce failed. subst m announce failed.
  apply accepted_between_true in Hfr.
  pose proof (castObjectId_nonempty _ _ Hi) as Hfrom.
  pose proof (castObjectId_nonempty _ _ Hj) as Hto.
  pose proof (trim_nonempty _ Hbody) as Hbody'.
  unfold send_message, created, after_new. unfold_monad. simpl.
  rewrite !truthy_Some by assumption.
  rewrite areFriends_run, (castable_cast _ _ Hi), (castable_cast _ _ Hj), Hf, Hfr.
  unfold new_Message, Message_save, populate. unfold_monad. simpl.
  rewrite Hi, Hj, trim_idem. simpl.
  destruct (Js.trim body) eqn:Ht; [congruence|].
  destruct (fails env MessageSave); [reflexivity|]. simpl.
  destruct (fails env PopulateFirst); [reflexivity|]. simpl.
  destruct (fails env PopulateSecond); [reflexivity|]. simpl.
  unfold set_messages, set_out. simpl. rewrite <- !app_assoc. reflexivity.
Qed.

(** The successful path, field by field. *)
Lemma send_message_delivers (from to body i j : string) :
  castObjectId from = Some i → castObjectId to = Some j →
  fails env FriendshipFindOne = false → fails env MessageSave = false →
  fails env PopulateFirst = false → fails env PopulateSecond = false →
  Js.trim body ≠ "" →
  friends_in (friendships st) from to →
  let c := send_message (Some (mkSendMessageData (Some from) (Some to) (Some body))) in
  let m := created env st i j body in
  let announce :=
    NewMessage m (username <$> users st !! i) (username <$> users st !! j) in
  messages (exec c env st) = (messages st ++ [m])%list
  ∧ out (exec c env st) =
      (out st ++ [Emit (ToRoom (Some (chatRoom from to))) announce;
                  Emit (ToRoomOthers (Some to)) announce;
                  Emit ToSelf (MessageDelivered (m_id m) (createdAt m))])%list
  ∧ users (exec c env st) = users st
  ∧ friendships (exec c env st) = friendships st.
Proof.
  intros Hi Hj Hf Hs Hp1 Hp2 Hbody Hfr c m announce. subst c m announce.
  unfold exec. rewrite (send_message_run from to body i j) by assumption.
  rewrite Hs, Hp1, Hp2. simpl. auto.
Qed.

End SendMessage.

Section Rejection.

Variables (env : Env) (st : St).

Lemma truthy_cases (s : string) :
  (s = "" ∧ Js.truthy (Some s) = None) ∨ (s ≠ "" ∧ Js.truthy (Some s) = Some s).
Proof. destruct s; [left|right]; split; congruence || reflexivity. Qed.

(** Without an accepted edge the handler only reports an error. *)
Lemma send_message_rejects (from to : string) (body : option string) :
  ¬ friends_in (friendships st) from to →
  ∃ error,
    send_message (Some (mkSendMessageData (Some from) (Some to) body)) env st
    = (Ok tt, set_out (fun o => (o ++ [Emit ToSelf (MessageError error)])%list) st)
    ∧ error_text env from to body error.
Proof.
  intros Hfr. apply accepted_between_false in Hfr.
  unfold send_message, error_text. unfold_monad. simpl.
  destruct (truthy_cases from) as [[Hfrom ->]|[Hfrom ->]];
    [eexists; split; [reflexivity|]; repeat split; congruence|].
  destruct (truthy_cases to) as [[Hto ->]|[Hto ->]];
    [eexists; split; [reflexivity|]; repeat split; congruence|].
  destruct (Js.truthy body) as [body'|];
    [|eexists; split; [reflexivity|]; repeat split; congruence].
  rewrite areFriends_run, Hfr. unfold castable.
  destruct (castObjectId from) as [i|]; simpl.
  - destruct (castObjectId to) as [j|]; simpl.
    + destruct (fails env FriendshipFindOne); simpl;
        (eexists; split; [reflexivity|]); repeat split;
        try congruence; intros [?|[?|?]]; congruence.
    + eexists. split; [reflexivity|]. repeat split.
      * intros [?|[?|?]]; congruence.
      * intros _ _ _ _ _ [? ?]. discriminate.
  - eexists. split; [reflexivity|]. repeat split.
    + intros [?|[?|?]]; congruence.
    + intros _ _ _ _ [? ?]. discriminate.
Qed.

End Rejection.

(** C1, as stated, fails: between strangers an event with an empty
    [content] is answered with the validation error, not with the
    authorization error. *)
Lemma send_message_strangers_empty_content :
  ¬ friends_in (friendships Sample.strangers) Sample.a Sample.b
  ∧ emitted (send_message
               (Some (mkSendMessageData (Some Sample.a) (Some Sample.b) (Some ""))))
            Sample.env Sample.strangers
    = [Emit ToSelf (MessageError "Missing required fields")].
Proof.
  split; [|reflexivity].
  intros (f & Hin & _). simpl in Hin. inversion Hin.
Qed.

(** C1, amended: for every send-message event whose sender and recipient
    have no accepted friendship edge (a sender messaging themself
    included), no Message record is persisted and the handler emits exactly
    one event, a message-error to the originating connection only; the
    error is 'Missing required fields' when senderId, recipientId or
    content is empty, and when the three are non-empty it is 'Failed to
    send message' when the friendship lookup is rejected and 'You can only
    message friends' when the lookup answers, the two ids being
    ObjectIds. *)
Theorem send_message_non_friends
    (env : Env) (st : St) (from to : string) (body : option string) :
  ¬ friends_in (friendships st) from to →
  let c := send_message (Some (mkSendMessageData (Some from) (Some to) body)) in
  messages (exec c env st) = messages st
  ∧ (∃ error, emitted c env st = [Emit ToSelf (MessageError error)]
       ∧ (from = "" ∨ to = "" ∨ Js.truthy body = None →
          error = "Missing required fields")
       ∧ (from ≠ "" → to ≠ "" → Js.truthy body ≠ None →
          fails env FriendshipFindOne = true →
          error = "Failed to send message")
       ∧ (from ≠ "" → to ≠ "" → Js.truthy body ≠ None →
          fails env FriendshipFindOne = false →
          is_Some (castObjectId from) → is_Some (castObjectId to) →
          error = "You can only message friends"))
  ∧ ∀ (all : gset string) (e : Emission) (x : string),
      e ∈ emitted c env st →
      x ∈ deliver (rooms (exec c env st)) all (sid env) (target e) ↔ x = sid env.
Proof.
  intros Hfr c. subst c.
  destruct (send_message_rejects env st from to body Hfr) as (error & Hrun & Herr).
  unfold emitted, exec. rewrite Hrun. simpl. rewrite drop_app_length.
  split; [reflexivity|split].
  - exists error. split; [reflexivity|exact Herr].
  - intros all e x He. apply list_elem_of_singleton in He. subst e. simpl.
    apply elem_of_singleton.
Qed.

Lemma send_message_non_friends_witness :
  messages (exec (send_message
                    (Some (mkSendMessageData (Some Sample.a) (Some Sample.a) (Some "hi"))))
                 Sample.env Sample.friends)
  = messages Sample.friends
  ∧ emitted (send_message
               (Some (mkSendMessageData (Some Sample.a) (Some Sample.a) (Some "hi"))))
            Sample.env Sample.friends
    = [Emit ToSelf (MessageError "You can only message friends")].
Proof.
  destruct (send_message_non_friends Sample.env Sample.friends Sample.a Sample.a
              (Some "hi")) as (Hm & (error & He & _ & _ & Herr) & _).
  - intros (f & Hin & _ & Hf). simpl in Hin.
    apply list_elem_of_singleton in Hin. subst f.
    destruct Hf as [[_ Hf]|[_ Hf]]; vm_compute in Hf; discriminate Hf.
  - split; [exact Hm|]. rewrite He. do 3 f_equal.
    apply Herr; try discriminate; try reflexivity; eexists; reflexivity.
Defined.

(** C2, as stated, fails: a [content] of white space only is non-empty,
    yet between accepted friends nothing is persisted and the sender gets
    an error, because the trimmed content does not pass the [required]
    validator of the schema. *)
Lemma send_message_blank_content :
  friends_in (friendships Sample.friends) Sample.a Sample.b
  ∧ (let c := send_message
                (Some (mkSendMessageData (Some Sample.a) (Some Sample.b) (Some "   "))) in
     messages (exec c Sample.env Sample.friends) = []
     ∧ emitted c Sample.env Sample.friends
       = [Emit ToSelf (MessageError "Failed to send message")]).
Proof.
  split; [|split; reflexivity].
  eexists. split; [apply list_elem_of_here|]. split; [reflexivity|].
  left. split; reflexivity.
Qed.

(** [trim] takes the no-break space U+00A0 for white space, as it takes
    the space: a content of no-break spaces only is refused in the same
    way. *)
Example send_message_no_break_space :
  Js.trim (String "160" (String " " (String "160" "hi"))) = "hi"
  ∧ (let c := send_message
                (Some (mkSendMessageData (Some Sample.a) (Some Sample.b)
                                         (Some (String "160" (String "160" ""))))) in
     messages (exec c Sample.env Sample.friends) = []
     ∧ emitted c Sample.env Sample.friends
       = [Emit ToSelf (MessageError "Failed to send message")]).
Proof. repeat split. Qed.

(** C2, amended: for every send-message event between accepted friends
    whose senderId and recipientId are non-empty and whose content is
    non-empty after trimming, when no database call is rejected, the
    handler, in this order, persists exactly one new Message record with
    the trimmed content and messageType 'text', then publishes the message
    once to the pair channel and once to the recipient's personal mailbox,
    then emits one delivery acknowledgment to the sender alone carrying the
    new message's id and creation timestamp. The order shows when a call is
    rejected: when the save is rejected nothing is persisted and nothing is
    published, and when a call after the save is rejected the record is
    persisted and nothing is published; the sender then gets one
    message-error. *)
Theorem send_message_between_friends
    (env : Env) (st : St) (from to body : string) :
  from ≠ "" → to ≠ "" → Js.trim body ≠ "" →
  friends_in (friendships st) from to →
  fails env FriendshipFindOne = false →
  let c := send_message (Some (mkSendMessageData (Some from) (Some to) (Some body))) in
  let failed := [Emit ToSelf (MessageError "Failed to send message")] in
  ∃ m senderName recipientName,
    castObjectId from = Some (sender m) ∧ castObjectId to = Some (m_recipient m)
    ∧ content m = Js.trim body ∧ messageType m = text ∧ isRead m = false
    ∧ senderName = username <$> users st !! sender m
    ∧ recipientName = username <$> users st !! m_recipient m
    ∧ (fails env MessageSave = false → fails env PopulateFirst = false →
       fails env PopulateSecond = false →
       messages (exec c env st) = (messages st ++ [m])%list
       ∧ emitted c env st =
           [Emit (ToRoom (Some (chatRoom from to))) (NewMessage m senderName recipientName);
            Emit (ToRoomOthers (Some to)) (NewMessage m senderName recipientName);
            Emit ToSelf (MessageDelivered (m_id m) (createdAt m))])
    ∧ (fails env MessageSave = true →
       messages (exec c env st) = messages st ∧ emitted c env st = failed)
    ∧ (fails env MessageSave = false →
       fails env PopulateFirst = true ∨ fails env PopulateSecond = true →
       messages (exec c env st) = (messages st ++ [m])%list
       ∧ emitted c env st = failed).
Proof.
  intros _ _ Hbody Hfr Hf c failed. subst c failed.
  destruct (friends_in_castable _ _ _ Hfr) as [Hcf Hct]. unfold castable in Hcf, Hct.
  destruct (castObjectId from) as [i|] eqn:Hi; [|discriminate].
  destruct (castObjectId to) as [j|] eqn:Hj; [|discriminate].
  pose proof (send_message_run env st from to body i j Hi Hj Hbody Hf Hfr) as Hrun.
  simpl in Hrun.
  exists (created env st i j body), (username <$> users st !! i),
         (username <$> users st !! j).
  do 7 (split; [reflexivity|]).
  unfold emitted, exec. rewrite Hrun. split; [|split].
  - intros -> -> ->. simpl. rewrite drop_app_length. auto.
  - intros ->. simpl. rewrite drop_app_length. auto.
  - intros -> Hp. simpl.
    replace (fails env PopulateFirst || fails env PopulateSecond) with true
      by (destruct Hp as [-> | ->]; rewrite ?orb_true_r; reflexivity).
    simpl. rewrite drop_app_length. auto.
Qed.

Lemma send_message_between_friends_witness :
  ∃ m senderName recipientName,
    content m = "hi" ∧ sender m = Sample.a ∧ m_recipient m = Sample.b
    ∧ messages (exec (send_message
                        (Some (mkSendMessageData (Some Sample.a_upper) (Some Sample.b)
                                                 (Some " hi "))))
                     Sample.env Sample.friends)
      = [m]
    ∧ emitted (send_message
                 (Some (mkSendMessageData (Some Sample.a_upper) (Some Sample.b)
                                          (Some " hi "))))
              Sample.env Sample.friends =
        [Emit (ToRoom (Some (chatRoom Sample.a_upper Sample.b)))
              (NewMessage m senderName recipientName);
         Emit (ToRoomOthers (Some Sample.b)) (NewMessage m senderName recipientName);
         Emit ToSelf (MessageDelivered (m_id m) (createdAt m))].
Proof.
  destruct (send_message_between_friends Sample.env Sample.friends
              Sample.a_upper Sample.b " hi ")
    as (m & sn & rn & Hs & Hr & Hc & _ & _ & _ & _ & Hok & _).
  - discriminate.
  - discriminate.
  - discriminate.
  - eexists. split; [apply list_elem_of_here|]. split; [reflexivity|].
    left. split; reflexivity.
  - reflexivity.
  - destruct Hok as [Hm Ho]; try reflexivity.
    vm_compute in Hs, Hr. injection Hs as Hs. injection Hr as Hr.
    exists m, sn, rn.
    split; [exact Hc|]. split; [symmetry; exact Hs|]. split; [symmetry; exact Hr|].
    split; [exact Hm|exact Ho].
Defined.

Section Outcome.

Variables (env : Env) (st : St).

(** Whatever the payload and whichever database calls are rejected, the
    handler returns normally, and among what it emitted exactly one event
    is terminal; it went to the socket itself. *)
Lemma send_message_paths (data : option SendMessageData) :
  fst (send_message data env st) = Ok tt
  ∧ ∃ new e,
      out (exec (send_message data) env st) = (out st ++ new)%list
      ∧ filter (fun x => is_terminal (event x) = true) new = [Emit ToSelf e]
      ∧ is_terminal e = true.
Proof.
  unfold exec, send_message. unfold_db. unfold_monad. unfold Js.truthy.
  repeat (simpl; case_split); simpl.
  all: split; [reflexivity|].
  all: rewrite <- ?app_assoc; simpl.
  all: eexists _, _; split; [reflexivity|]; simpl.
  all: split; reflexivity.
Qed.

(** Who receives the terminal events, when only one was emitted and it
    went to the socket itself. *)
Lemma terminal_received_self (rs : gmap (option string) (gset string))
    (all : gset string) (origin c : string) (o : list Emission) (e : Event) :
  filter (fun x => is_terminal (event x) = true) o = [Emit ToSelf e] →
  terminal_received rs all origin c o = if decide (c = origin) then [e] else [].
Proof.
  intros Ho. unfold terminal_received.
  rewrite <- (list_filter_filter
                (fun x => c ∈ deliver rs all origin (target x))
                (fun x => is_terminal (event x) = true)).
  rewrite Ho, filter_cons, filter_nil.
  simpl. destruct (decide (c = origin)) as [->|Hne].
  - rewrite decide_True by set_solver. reflexivity.
  - rewrite decide_False by set_solver. reflexivity.
Qed.

End Outcome.

(** C4: every send-message event, whatever its payload, the stored state
    and the database calls that are rejected, is handled without an
    exception leaving the handler, and the originating connection receives
    exactly one terminal outcome, a message-delivered acknowledgment or a
    message-error; no other connection receives a terminal outcome. *)
Theorem send_message_one_terminal_outcome
    (env : Env) (st : St) (data : option SendMessageData) (all : gset string) :
  let new := emitted (send_message data) env st in
  let st' := exec (send_message data) env st in
  fst (send_message data env st) = Ok tt
  ∧ out st' = (out st ++ new)%list
  ∧ ∃ e, is_terminal e = true
         ∧ terminal_received (rooms st') all (sid env) (sid env) new = [e]
         ∧ ∀ c, c ≠ sid env →
                terminal_received (rooms st') all (sid env) c new = [].
Proof.
  intros new st'. subst new st'.
  destruct (send_message_paths env st data) as (Hok & new & e & Hout & Hfilter & He).
  rewrite (emitted_app env st _ new Hout).
  split; [exact Hok|]. split; [exact Hout|].
  exists e. split; [exact He|]. split.
  - rewrite (terminal_received_self _ _ _ _ _ e Hfilter).
    rewrite decide_True; reflexivity.
  - intros c Hc. rewrite (terminal_received_self _ _ _ _ _ e Hfilter).
    rewrite decide_False; [reflexivity|exact Hc].
Qed.

(** ** [mark-messages-read] *)

Section MarkRead.

Variables (env : Env) (st : St).

(** The bulk update as [Message.updateMany] applies it, in place, when the
    ids of its filter cast and the call is not rejected. *)
Lemma mark_messages_read_messages (a b : option string) :
  messages (exec (mark_messages_read (Some (mkPairData a b))) env st) =
  if forallb castable (option_list a ++ option_list b)
     && negb (fails env MessageUpdateMany)
  then map (fun m => if unread_from_to a b m
                     then mark_read (clock env (ticks st)) m else m)
           (messages st)
  else messages st.
Proof.
  unfold exec, mark_messages_read. unfold_db. unfold_monad. simpl.
  destruct (forallb castable (option_list a ++ option_list b)); simpl;
    [|reflexivity].
  destruct (fails env MessageUpdateMany); simpl; [reflexivity|].
  destruct (forallb castable (option_list a)); simpl; [|reflexivity].
  destruct (fails env UserFindById); simpl; [reflexivity|].
  destruct (Js.truthy _); reflexivity.
Qed.

Lemma unread_from_to_true (A B : string) (m : Message) :
  unread_from_to (Some A) (Some B) m = true
  ↔ castObjectId A = Some (sender m) ∧ castObjectId B = Some (m_recipient m)
    ∧ isRead m = false.
Proof.
  unfold unread_from_to, id_is.
  rewrite !andb_true_iff, !is_id_true, negb_true_iff. tauto.
Qed.

End MarkRead.

(** C3: when the bulk update of mark-messages-read(A,B) executes, exactly
    the Message records whose sender is the user of id A, whose recipient
    is the user of id B and whose isRead is false are mutated, each in
    place to isRead true with the read timestamp, its other fields as they
    were; every other record is unchanged: a message already read keeps its
    readAt, a message in the opposite direction is untouched; and a message
    from A to B created after the update is unread. *)
Theorem mark_messages_read_frame (env : Env) (st : St) (A B a b : string) :
  castObjectId A = Some a → castObjectId B = Some b →
  fails env MessageUpdateMany = false →
  let st' := exec (mark_messages_read (Some (mkPairData (Some A) (Some B)))) env st in
  let t := clock env (ticks st) in
  length (messages st') = length (messages st)
  ∧ (∀ i m, messages st !! i = Some m →
       sender m = a → m_recipient m = b → isRead m = false →
       messages st' !! i
       = Some (mkMessage (m_id m) a b (content m) (messageType m)
                         (filePath m) (fileSize m) (fileName m)
                         true (Some t) (createdAt m)))
  ∧ (∀ i m, messages st !! i = Some m →
       isRead m = true ∨ sender m ≠ a ∨ m_recipient m ≠ b →
       messages st' !! i = Some m)
  ∧ (∀ env2 st2 body,
       messages st2 = messages st' →
       reliable env2 → Js.trim body ≠ "" →
       friends_in (friendships st2) A B →
       ∃ m, messages (exec (send_message
                              (Some (mkSendMessageData (Some A) (Some B) (Some body))))
                           env2 st2)
            = (messages st' ++ [m])%list
            ∧ sender m = a ∧ m_recipient m = b
            ∧ isRead m = false ∧ readAt m = None).
Proof.
  intros HA HB Hup st' t. subst st' t.
  rewrite mark_messages_read_messages, Hup. simpl.
  rewrite (castable_cast _ _ HA), (castable_cast _ _ HB). simpl.
  split; [apply length_map|]. split; [|split].
  - intros i m Hi Hs Hr Hu. rewrite list_lookup_fmap, Hi. simpl.
    rewrite (proj2 (unread_from_to_true A B m)) by (subst a b; auto).
    subst a b. reflexivity.
  - intros i m Hi Hm. rewrite list_lookup_fmap, Hi. simpl.
    destruct (unread_from_to (Some A) (Some B) m) eqn:E; [|reflexivity].
    apply unread_from_to_true in E as (? & ? & ?).
    destruct Hm as [?|[?|?]]; congruence.
  - intros env2 st2 body Hst2 Hrel Hbody Hfr.
    destruct (send_message_delivers env2 st2 A B body a b) as (Hm & _);
      try apply Hrel; try assumption.
    eexists. rewrite <- Hst2. split; [exact Hm|]. simpl. auto.
Qed.

Lemma mark_messages_read_frame_witness :
  messages (exec (mark_messages_read
                    (Some (mkPairData (Some Sample.a_upper) (Some Sample.b))))
                 Sample.env Sample.chatting)
  = [mkMessage 1 Sample.a Sample.b "one" text None None None true (Some 1000%Z) 10%Z;
     mkMessage 2 Sample.a Sample.b "two" text None None None true (Some 25%Z) 20%Z;
     mkMessage 3 Sample.b Sample.a "three" text None None None false None 30%Z].
Proof.
  destruct (mark_messages_read_frame Sample.env Sample.chatting
              Sample.a_upper Sample.b Sample.a Sample.b)
    as (Hlen & Hmarked & Hkept & _).
  - reflexivity.
  - reflexivity.
  - reflexivity.
  - pose proof (Hmarked 0%nat _ eq_refl eq_refl eq_refl eq_refl) as H0.
    pose proof (Hkept 1%nat _ eq_refl (or_introl eq_refl)) as H1.
    assert (H2 : messages
                   (exec (mark_messages_read
                            (Some (mkPairData (Some Sample.a_upper) (Some Sample.b))))
                         Sample.env Sample.chatting) !! 2%nat
                 = Some (mkMessage 3 Sample.b Sample.a "three" text None None None
                                   false None 30%Z)).
    { apply Hkept; [reflexivity|]. right. left. discriminate. }
    destruct (messages _) as [|m0 [|m1 [|m2 [|m3 l]]]]; try discriminate Hlen.
    simpl in H0, H1, H2. injection H0 as ->. injection H1 as ->. injection H2 as ->.
    reflexivity.
Defined.

(** ** Presence *)

Section Presence.

Variables (env : Env) (st : St).

(** The update of a presence handler on the user of the payload [u]. *)
Lemma presence_run (u i : string) (update : Time → User → User) (online : bool)
    (handler : M unit) :
  handler = tryCatch
              (t ← newDate;
               User_findByIdAndUpdate (Some u) (update t);;
               t' ← newDate;
               emit ToOthers (UserStatusUpdate (Some u) online t'))
              (mret tt) →
  castObjectId u = Some i → fails env UserFindByIdAndUpdate = false →
  handler env st
  = (Ok tt,
     set_out (fun o => (o ++ [Emit ToOthers
                                (UserStatusUpdate (Some u) online
                                                  (clock env (S (ticks st))))])%list)
             (set_users (alter (update (clock env (ticks st))) i)
                        (set_ticks (S (S (ticks st))) st))).
Proof.
  intros -> Hi Hf. unfold_db. unfold_monad. unfold castable. simpl.
  rewrite Hi. simpl. rewrite Hf. reflexivity.
Qed.

Lemma user_disconnected_run (u i : string) :
  castObjectId u = Some i → fails env UserFindByIdAndUpdate = false →
  user_disconnected (Some u) env st
  = (Ok tt,
     set_out (fun o => (o ++ [Emit ToOthers
                                (UserStatusUpdate (Some u) false
                                                  (clock env (S (ticks st))))])%list)
             (set_users (alter (offline_at (clock env (ticks st))) i)
                        (set_ticks (S (S (ticks st))) st))).
Proof.
  intros Hi Hf. rewrite <- (presence_run u i offline_at false _ eq_refl Hi Hf).
  unfold user_disconnected. rewrite (truthy_Some u (castObjectId_nonempty u i Hi)).
  reflexivity.
Qed.

Lemma user_disconnected_same (u : string) (name : option string) :
  currentUser st !! sid env = Some (mkCurrentUser (Some u) name) →
  user_disconnected (Some u) env st = disconnect env st.
Proof.
  intros Hcu. unfold user_disconnected, disconnect. unfold_db. unfold_monad.
  simpl. rewrite Hcu. reflexivity.
Qed.

Lemma user_disconnected_payload (u i : string) :
  castObjectId u = Some i → fails env UserFindByIdAndUpdate = false →
  went_offline env st u i (exec (user_disconnected (Some u)) env st).
Proof.
  intros Hi Hf. unfold went_offline, exec.
  rewrite (user_disconnected_run u i Hi Hf). simpl.
  split; [|split; [|split]]; [| | |auto 10].
  - intros usr Hu. rewrite lookup_alter, decide_True, Hu by reflexivity. reflexivity.
  - intros Hu. rewrite lookup_alter, decide_True, Hu by reflexivity. reflexivity.
  - intros k Hk. rewrite lookup_alter, decide_False by congruence. reflexivity.
Qed.

Lemma disconnect_bound (u i : string) (name : option string) :
  currentUser st !! sid env = Some (mkCurrentUser (Some u) name) →
  castObjectId u = Some i → fails env UserFindByIdAndUpdate = false →
  went_offline env st u i (exec disconnect env st).
Proof.
  intros Hcu Hi Hf. unfold exec.
  rewrite <- (user_disconnected_same u name Hcu).
  exact (user_disconnected_payload u i Hi Hf).
Qed.

Lemma user_disconnected_empty (v : option string) :
  Js.truthy v = None → user_disconnected v env st = (Ok tt, st).
Proof.
  intros Hv. unfold user_disconnected. unfold_monad. simpl. rewrite Hv. reflexivity.
Qed.

Lemma user_disconnected_ignores_binding
    (v : option string) (cu : gmap string CurrentUser) :
  exec (user_disconnected v) env (set_currentUser (fun _ => cu) st)
  = set_currentUser (fun _ => cu) (exec (user_disconnected v) env st).
Proof.
  unfold exec, user_disconnected. unfold_db. unfold_monad. unfold castable. simpl.
  destruct (Js.truthy v); [|reflexivity]. simpl.
  destruct (castObjectId _); [|reflexivity]. simpl.
  destruct (fails env UserFindByIdAndUpdate); reflexivity.
Qed.

Lemma disconnect_without_identity :
  currentUser st !! sid env = None → disconnect env st = (Ok tt, st).
Proof.
  intros Hcu. unfold disconnect. unfold_monad. simpl. rewrite Hcu. reflexivity.
Qed.

(** Only [user-connected] assigns [currentUser], and only the one of its
    own connection. *)
Lemma handle_currentUser (ev : ClientEvent) (s : string) :
  is_UserConnected ev = false ∨ sid env ≠ s →
  currentUser (exec (handle ev) env st) !! s = currentUser st !! s.
Proof.
  intros H. destruct ev as [d|d|d|d|u|u|u|].
  1: destruct H as [H|H]; [discriminate|].
  all: unfold exec, handle, user_connected, join_chat, send_message,
         mark_messages_read, user_active, user_inactive, user_disconnected,
         disconnect;
       unfold_db; unfold_monad; unfold Js.truthy;
       repeat (simpl; case_split); simpl;
       rewrite ?lookup_insert_ne by exact H; reflexivity.
Qed.

End Presence.

(** C7, as stated, fails: on a connection without a bound identity the
    explicit user-disconnected event still marks the user of its payload
    offline and broadcasts, while the transport disconnect does nothing. *)
Lemma user_disconnected_unbound :
  currentUser Sample.friends !! sid Sample.env = None
  ∧ disconnect Sample.env Sample.friends = (Ok tt, Sample.friends)
  ∧ users (exec (user_disconnected (Some Sample.a)) Sample.env Sample.friends)
      !! Sample.a
    = Some (mkUser "alice" false 1000%Z None)
  ∧ emitted (user_disconnected (Some Sample.a)) Sample.env Sample.friends
    = [Emit ToOthers (UserStatusUpdate (Some Sample.a) false 1001%Z)].
Proof. repeat split; vm_compute; reflexivity. Qed.

(** C7, amended: the transport disconnect is gated on the identity bound to
    the connection, the explicit user-disconnected event on the user id of
    its payload, whatever the connection is bound to. When the payload is
    the bound user id the two paths are the same computation: same state,
    same broadcast; when that id is the id of a user and the update is not
    rejected, the record of that user keeps its name and gets isOnline
    false, lastSeen the time of the update and a null socketId, no other
    user record changes, and one user-status-update naming the user as
    offline is broadcast. *)
Theorem disconnect_paths_agree
    (env : Env) (st : St) (u : string) (name : option string) :
  currentUser st !! sid env = Some (mkCurrentUser (Some u) name) →
  user_disconnected (Some u) env st = disconnect env st
  ∧ (∀ i, castObjectId u = Some i → fails env UserFindByIdAndUpdate = false →
       let st' := exec disconnect env st in
       (∀ usr, users st !! i = Some usr →
               users st' !! i
               = Some (mkUser (username usr) false (clock env (ticks st)) None))
       ∧ (∀ k, k ≠ i → users st' !! k = users st !! k)
       ∧ emitted disconnect env st
         = [Emit ToOthers (UserStatusUpdate (Some u) false (clock env (S (ticks st))))]
       ∧ went_offline env st u i st')
  ∧ (∀ v cu, exec (user_disconnected v) env (set_currentUser (fun _ => cu) st)
             = set_currentUser (fun _ => cu) (exec (user_disconnected v) env st))
  ∧ (∀ v i, castObjectId v = Some i → fails env UserFindByIdAndUpdate = false →
            went_offline env st v i (exec (user_disconnected (Some v)) env st))
  ∧ (∀ v, Js.truthy v = None → user_disconnected v env st = (Ok tt, st)).
Proof.
  intros Hcu. split; [|split; [|split; [|split]]].
  - exact (user_disconnected_same env st u name Hcu).
  - intros i Hi Hf st'.
    pose proof (disconnect_bound env st u i name Hcu Hi Hf) as Hoff.
    destruct Hoff as (H1 & H2 & H3 & H4 & H5).
    split; [exact H1|]. split; [exact H3|]. split; [apply emitted_app, H4|].
    repeat split; assumption || apply H5.
  - exact (user_disconnected_ignores_binding env st).
  - exact (user_disconnected_payload env st).
  - exact (user_disconnected_empty env st).
Qed.

Lemma disconnect_paths_agree_witness :
  let st := set_currentUser
              (fun _ => {[ "s1" := mkCurrentUser (Some Sample.a_upper) (Some "alice") ]})
              Sample.friends in
  user_disconnected (Some Sample.a_upper) Sample.env st = disconnect Sample.env st
  ∧ users (exec disconnect Sample.env st) !! Sample.a
    = Some (mkUser "alice" false 1000%Z None)
  ∧ users (exec disconnect Sample.env st) !! Sample.b = Some Sample.bob.
Proof.
  intros st.
  destruct (disconnect_paths_agree Sample.env st Sample.a_upper (Some "alice"))
    as (Hsame & Hoff & _).
  - reflexivity.
  - destruct (Hoff Sample.a) as (Hrec & Hrest & _); [reflexivity..|].
    split; [exact Hsame|]. split.
    + exact (Hrec Sample.alice eq_refl).
    + rewrite (Hrest Sample.b) by discriminate. reflexivity.
Defined.

(** C8: on a connection on which no user-connected event was handled, so
    that no identity is bound to it, the transport disconnect changes
    nothing, whatever was handled on this and on other connections: no user
    record is updated and nothing is broadcast. *)
Theorem disconnect_unbound
    (env : Env) (st : St) (evs : list (Env * ClientEvent)) :
  currentUser st !! sid env = None →
  forallb (fun ev => negb (is_UserConnected ev.2 && String.eqb (sid ev.1) (sid env)))
          evs = true →
  let st1 := handle_all evs st in
  currentUser st1 !! sid env = None
  ∧ disconnect env st1 = (Ok tt, st1)
  ∧ users (exec disconnect env st1) = users st1
  ∧ emitted disconnect env st1 = [].
Proof.
  intros Hcu Hevs st1. subst st1.
  assert (Hnone : currentUser (handle_all evs st) !! sid env = None).
  { revert st Hcu Hevs. induction evs as [|[e ev] evs IH]; intros st Hcu Hevs.
    - exact Hcu.
    - simpl in Hevs. apply andb_prop in Hevs as [Hev Hevs]. simpl.
      apply IH; [|exact Hevs].
      rewrite handle_currentUser; [exact Hcu|].
      apply negb_true_iff, andb_false_iff in Hev as [Hev|Hev]; [left; exact Hev|].
      right. apply String.eqb_neq, Hev. }
  pose proof (disconnect_without_identity env _ Hnone) as Hrun.
  split; [exact Hnone|]. split; [exact Hrun|].
  unfold emitted, exec. rewrite Hrun. simpl.
  split; [reflexivity|]. apply drop_all.
Qed.

Lemma disconnect_unbound_witness :
  let evs :=
    [(Sample.env, JoinChat (Some (mkPairData (Some Sample.a) (Some Sample.b))));
     (Sample.env2, UserConnected (Some (mkUserConnectedData (Some Sample.b) (Some "bob"))))] in
  disconnect Sample.env (handle_all evs Sample.friends)
  = (Ok tt, handle_all evs Sample.friends).
Proof.
  intros evs.
  refine (proj1 (proj2 (disconnect_unbound Sample.env Sample.friends evs _ _))).
  - reflexivity.
  - reflexivity.
Defined.

(** C10: user-inactive(userId), for the id of a user and when its update
    is not rejected, changes only the lastSeen field of that user: the
    record keeps its name, its isOnline flag and its socketId and gets the
    time of the update as lastSeen, and nothing else of the state changes;
    so the stored isOnline flag of every user is as before, and a user
    stored as online still reads as online, while the user-status-update
    broadcast to the other clients says isOnline false. *)
Theorem user_inactive_presence_disagrees
    (env : Env) (st : St) (userId i : string) :
  castObjectId userId = Some i →
  fails env UserFindByIdAndUpdate = false →
  let st' := exec (user_inactive (Some userId)) env st in
  (∀ usr, users st !! i = Some usr →
          users st' !! i
          = Some (mkUser (username usr) (isOnline usr) (clock env (ticks st))
                         (socketId usr)))
  ∧ (∀ k, k ≠ i → users st' !! k = users st !! k)
  ∧ (∀ k, isOnline <$> users st' !! k = isOnline <$> users st !! k)
  ∧ (messages st' = messages st ∧ friendships st' = friendships st
     ∧ rooms st' = rooms st ∧ currentUser st' = currentUser st)
  ∧ emitted (user_inactive (Some userId)) env st
    = [Emit ToOthers (UserStatusUpdate (Some userId) false (clock env (S (ticks st))))]
  ∧ (∀ usr, users st !! i = Some usr → isOnline usr = true →
       ∃ usr', users st' !! i = Some usr' ∧ isOnline usr' = true
               ∧ event <$> emitted (user_inactive (Some userId)) env st
                 = [UserStatusUpdate (Some userId) false (clock env (S (ticks st)))]).
Proof.
  intros Hi Hf st'.
  pose proof (presence_run env st userId i seen_at false (user_inactive (Some userId))
                eq_refl Hi Hf) as Hrun.
  assert (Hrec : ∀ usr, users st !! i = Some usr →
            users st' !! i
            = Some (mkUser (username usr) (isOnline usr) (clock env (ticks st))
                           (socketId usr))).
  { intros usr Hu. subst st'. unfold exec. rewrite Hrun. simpl.
    rewrite lookup_alter, decide_True, Hu by reflexivity. reflexivity. }
  assert (Hrest : ∀ k, k ≠ i → users st' !! k = users st !! k).
  { intros k Hk. subst st'. unfold exec. rewrite Hrun. simpl.
    rewrite lookup_alter, decide_False by congruence. reflexivity. }
  assert (Hout : emitted (user_inactive (Some userId)) env st
    = [Emit ToOthers (UserStatusUpdate (Some userId) false (clock env (S (ticks st))))]).
  { apply emitted_app. unfold exec. rewrite Hrun. reflexivity. }
  split; [exact Hrec|]. split; [exact Hrest|]. split; [|split; [|split; [exact Hout|]]].
  - intros k. destruct (decide (k = i)) as [->|Hk]; [|rewrite Hrest by exact Hk; reflexivity].
    destruct (users st !! i) as [usr|] eqn:Hu.
    + rewrite (Hrec usr eq_refl). reflexivity.
    + subst st'. unfold exec. rewrite Hrun. simpl.
      rewrite lookup_alter, decide_True, Hu by reflexivity. reflexivity.
  - subst st'. unfold exec. rewrite Hrun. simpl. auto.
  - intros usr Hu Hon. eexists. split; [exact (Hrec usr Hu)|].
    split; [exact Hon|]. rewrite Hout. reflexivity.
Qed.

Lemma user_inactive_presence_disagrees_witness :
  emitted (user_inactive (Some Sample.a_upper)) Sample.env Sample.friends
  = [Emit ToOthers (UserStatusUpdate (Some Sample.a_upper) false 1001%Z)]
  ∧ users (exec (user_inactive (Some Sample.a_upper)) Sample.env Sample.friends)
      !! Sample.a
    = Some (mkUser "alice" true 1000%Z (Some "s1")).
Proof.
  destruct (user_inactive_presence_disagrees Sample.env Sample.friends
              Sample.a_upper Sample.a)
    as (Hrec & _ & _ & _ & Hout & _).
  - reflexivity.
  - reflexivity.
  - split; [exact Hout|]. exact (Hrec Sample.alice eq_refl).
Defined.

(** ** The friendship collection *)

Section Edges.

Lemma same_pair_sym (f g : Friendship) : same_pair f g → same_pair g f.
Proof. unfold same_pair. intuition congruence. Qed.

(** A change of status or of [updatedAt] keeps the pair. *)
Lemma same_pair_ends (f f' g g' : Friendship) :
  requester f' = requester f → recipient f' = recipient f →
  requester g' = requester g → recipient g' = recipient g →
  same_pair f' g' → same_pair f g.
Proof. unfold same_pair. intros -> -> -> ->. auto. Qed.

Lemma distinct_pairs_one_edge (l : list Friendship) :
  distinct_pairs l → one_edge_per_pair l.
Proof.
  induction 1 as [|f l Hf Hl IH]; intros i j x y Hi Hj Hxy.
  - rewrite lookup_nil in Hi. discriminate.
  - rewrite Forall_forall in Hf.
    destruct i as [|i], j as [|j]; simpl in Hi, Hj.
    + reflexivity.
    + injection Hi as <-. exfalso. apply (Hf y); [|exact Hxy].
      eapply list_elem_of_lookup_2. exact Hj.
    + injection Hj as <-. exfalso. apply (Hf x); [|apply same_pair_sym, Hxy].
      eapply list_elem_of_lookup_2. exact Hi.
    + f_equal. exact (IH i j x y Hi Hj Hxy).
Qed.

Lemma distinct_pairs_snoc (l : list Friendship) (e : Friendship) :
  distinct_pairs l → Forall (fun g => ¬ same_pair g e) l →
  distinct_pairs (l ++ [e]).
Proof.
  induction 1 as [|f l Hf Hl IH]; intros He; simpl.
  - constructor; constructor.
  - inversion He as [|? ? Hfe He']; subst. constructor.
    + apply Forall_app. split; [exact Hf|]. constructor; [exact Hfe|constructor].
    + apply IH. exact He'.
Qed.

(** Rewriting edges without touching their ends keeps the pairs apart. *)
Lemma distinct_pairs_map (h : Friendship → Friendship) (l : list Friendship) :
  Forall (fun g => requester (h g) = requester g ∧ recipient (h g) = recipient g) l →
  distinct_pairs l → distinct_pairs (map h l).
Proof.
  intros Hh Hl. induction Hl as [|f l Hf Hl IH]; simpl; [constructor|].
  inversion Hh as [|? ? [Hf1 Hf2] Hh']; subst. constructor.
  - rewrite Forall_forall in Hf, Hh'. apply Forall_forall. intros g' Hg'.
    apply list_elem_of_fmap in Hg' as (g & -> & Hg).
    destruct (Hh' g Hg) as [Hg1 Hg2]. intros Hsame. apply (Hf g Hg).
    exact (same_pair_ends f (h f) g (h g) Hf1 Hf2 Hg1 Hg2 Hsame).
  - apply IH. exact Hh'.
Qed.

Lemma delete_first_subset (i : nat) (l : list Friendship) (g : Friendship) :
  g ∈ delete_first i l → g ∈ l.
Proof.
  induction l as [|f l IH]; simpl; [auto|].
  destruct (Nat.eqb (f_id f) i); rewrite !elem_of_cons; tauto.
Qed.

Lemma distinct_pairs_delete (i : nat) (l : list Friendship) :
  distinct_pairs l → distinct_pairs (delete_first i l).
Proof.
  induction 1 as [|f l Hf Hl IH]; simpl; [constructor|].
  destruct (Nat.eqb (f_id f) i); [exact Hl|]. constructor; [|exact IH].
  rewrite Forall_forall in Hf. apply Forall_forall. intros g Hg.
  apply Hf. eapply delete_first_subset. exact Hg.
Qed.

Lemma NoDup_id_eq (l : list Friendship) (f g : Friendship) :
  NoDup (f_id <$> l) → f ∈ l → g ∈ l → f_id f = f_id g → f = g.
Proof.
  induction l as [|x l IH]; intros Hnd Hf Hg Hid.
  - apply elem_of_nil in Hf. destruct Hf.
  - rewrite fmap_cons in Hnd. apply NoDup_cons in Hnd as [Hx Hnd].
    apply elem_of_cons in Hf as [->|Hf], Hg as [->|Hg].
    + reflexivity.
    + exfalso. apply Hx. rewrite Hid. apply list_elem_of_fmap_2. exact Hg.
    + exfalso. apply Hx. rewrite <- Hid. apply list_elem_of_fmap_2. exact Hf.
    + exact (IH Hnd Hf Hg Hid).
Qed.

Lemma well_kept_mono (n n' : nat) (l : list Friendship) :
  (n ≤ n')%nat → well_kept n l → well_kept n' l.
Proof.
  intros Hn (Hd & Hl & Hnd & Hlt). repeat split; try assumption.
  eapply Forall_impl; [exact Hlt|]. simpl. intros. lia.
Qed.

Lemma well_kept_snoc (n : nat) (l : list Friendship) (e : Friendship) :
  well_kept n l → f_id e = n → live e →
  Forall (fun g => ¬ same_pair g e) l →
  well_kept (S n) (l ++ [e]).
Proof.
  intros (Hd & Hl & Hnd & Hlt) Hid He Hnew. repeat split.
  - apply distinct_pairs_snoc; assumption.
  - apply Forall_app. split; [exact Hl|]. constructor; [exact He|constructor].
  - rewrite fmap_app. apply NoDup_app. split; [exact Hnd|]. split.
    + intros i Hi. simpl. rewrite list_elem_of_singleton. intros ->.
      apply list_elem_of_fmap in Hi as (g & Hg & Hin).
      rewrite Forall_forall in Hlt. specialize (Hlt g Hin). lia.
    + simpl. apply NoDup_singleton.
  - apply Forall_app. split.
    + eapply Forall_impl; [exact Hlt|]. simpl. intros. lia.
    + constructor; [lia|constructor].
Qed.

Lemma well_kept_update (n : nat) (l : list Friendship) (f f' : Friendship) :
  well_kept n l → f ∈ l → live f' → f_id f' = f_id f →
  requester f' = requester f → recipient f' = recipient f →
  well_kept n (map (fun g => if Nat.eqb (f_id g) (f_id f) then f' else g) l).
Proof.
  intros (Hd & Hl & Hnd & Hlt) Hf Hlive Hid Hreq Hrec.
  rewrite Forall_forall in Hl, Hlt.
  repeat split.
  - apply distinct_pairs_map; [|exact Hd]. apply Forall_forall. intros g Hg.
    destruct (Nat.eqb (f_id g) (f_id f)) eqn:E; [|auto].
    apply Nat.eqb_eq in E. rewrite (NoDup_id_eq l g f Hnd Hg Hf E). auto.
  - apply Forall_forall. intros g' Hg'.
    apply list_elem_of_fmap in Hg' as (g & -> & Hg).
    destruct (Nat.eqb (f_id g) (f_id f)); auto.
  - replace (f_id <$> map _ l) with (f_id <$> l); [exact Hnd|].
    clear -Hid. induction l as [|g l IH]; simpl; [reflexivity|].
    f_equal; [|exact IH].
    destruct (Nat.eqb (f_id g) (f_id f)) eqn:E; [|reflexivity].
    apply Nat.eqb_eq in E. congruence.
  - apply Forall_forall. intros g' Hg'.
    apply list_elem_of_fmap in Hg' as (g & -> & Hg).
    destruct (Nat.eqb (f_id g) (f_id f)); [|auto].
    rewrite Hid. auto.
Qed.

Lemma well_kept_delete (n i : nat) (l : list Friendship) :
  well_kept n l → well_kept n (delete_first i l).
Proof.
  intros (Hd & Hl & Hnd & Hlt). rewrite Forall_forall in Hl, Hlt.
  repeat split.
  - apply distinct_pairs_delete. exact Hd.
  - apply Forall_forall. intros g Hg. apply Hl. eapply delete_first_subset, Hg.
  - clear Hd Hl Hlt. induction l as [|f l IH]; simpl; [constructor|].
    rewrite fmap_cons in Hnd. apply NoDup_cons in Hnd as [Hf Hnd].
    destruct (Nat.eqb (f_id f) i); [exact Hnd|].
    rewrite fmap_cons. apply NoDup_cons. split; [|exact (IH Hnd)].
    intros Hin. apply Hf.
    apply list_elem_of_fmap in Hin as (g & -> & Hg).
    apply list_elem_of_fmap_2. eapply delete_first_subset, Hg.
  - apply Forall_forall. intros g Hg. apply Hlt. eapply delete_first_subset, Hg.
Qed.

End Edges.

Section Routes.

Variables (env : Env) (st : St).

(** When the lookup of the request route finds no pending or accepted
    edge in a well-kept collection, no edge joins the two users. *)
Lemma no_edge_between (l : list Friendship) (a b i j : string) (e : Friendship) :
  Forall live l →
  status <$> List.find (fun f => from_to a b f || from_to b a f) l ≠ Some pending →
  status <$> List.find (fun f => from_to a b f || from_to b a f) l ≠ Some accepted →
  castObjectId a = Some i → castObjectId b = Some j →
  requester e = i → recipient e = j →
  Forall (fun g => ¬ same_pair g e) l.
Proof.
  intros Hl Hp Ha Hi Hj <- <-. rewrite Forall_forall in Hl.
  destruct (List.find _ l) as [f|] eqn:E.
  - apply find_some in E as [Hin _]. apply list_elem_of_In in Hin.
    destruct (Hl f Hin) as [Hs|Hs]; simpl in Hp, Ha; congruence.
  - apply Forall_forall. intros g Hg Hsame.
    apply list_elem_of_In in Hg.
    pose proof (find_none _ _ E g Hg) as Hn. simpl in Hn.
    assert (Hj' : joins g a b).
    { unfold joins. destruct Hsame as [[E1 E2]|[E1 E2]]; rewrite E1, E2; auto. }
    apply from_to_either in Hj'. congruence.
Qed.

Lemma friends_request_kept (s r : option string) :
  kept st → kept (exec (friends_request s r) env st).
Proof.
  intros H. unfold kept, exec, friends_request, isLoggedIn.
  unfold_db. unfold_monad.
  repeat (simpl; case_split); simpl.
  all: try exact H.
  all: try (apply (well_kept_mono (nextId st)); [lia|exact H]).
  all: apply well_kept_snoc; [exact H | reflexivity | left; reflexivity |].
  all: match goal with
       | E : status <$> List.find (fun f => from_to ?a ?b f || _) _ = _ |- _ =>
           eapply (no_edge_between _ a b);
           [apply H | rewrite E; discriminate | rewrite E; discriminate
           | eassumption | eassumption | reflexivity | reflexivity]
       end.
Qed.

Lemma friends_accept_kept (s : option string) (i : option nat) :
  kept st → kept (exec (friends_accept s i) env st).
Proof.
  intros H. unfold kept, exec, friends_accept, isLoggedIn.
  unfold_db. unfold_monad.
  repeat (simpl; case_split); simpl.
  all: try exact H.
  all: match goal with E : List.find _ _ = Some ?f |- _ =>
         apply find_some in E as [Hin _]; apply list_elem_of_In in Hin;
         apply (well_kept_update _ _ f); auto; right; reflexivity
       end.
Qed.

Lemma friends_decline_kept (s : option string) (i : option nat) :
  kept st → kept (exec (friends_decline s i) env st).
Proof.
  intros H. unfold kept, exec, friends_decline, isLoggedIn.
  unfold_db. unfold_monad.
  repeat (simpl; case_split); simpl.
  all: try exact H.
  all: apply well_kept_delete; exact H.
Qed.

Lemma friends_remove_kept (s r : option string) :
  kept st → kept (exec (friends_remove s r) env st).
Proof.
  intros H. unfold kept, exec, friends_remove, isLoggedIn.
  unfold_db. unfold_monad.
  repeat (simpl; case_split); simpl.
  all: try exact H.
  all: apply well_kept_delete; exact H.
Qed.

Lemma friend_route_kept (op : FriendOp) :
  kept st → kept (exec (friend_route op) env st).
Proof.
  destruct op; simpl.
  - apply friends_request_kept.
  - apply friends_accept_kept.
  - apply friends_decline_kept.
  - apply friends_remove_kept.
Qed.

End Routes.

Lemma serve_kept (ops : list (Env * FriendOp)) (st : St) :
  kept st → kept (serve ops st).
Proof.
  revert st. induction ops as [|[env op] ops IH]; intros st H; simpl.
  - exact H.
  - apply IH, friend_route_kept, H.
Qed.

(** C9, as stated, fails: the pair is not put in a canonical order before
    the insert; the edge is stored in the direction of the request, from
    [a] to [b] when [a] asks and from [b] to [a] when [b] asks. *)
Lemma friends_request_not_normalized :
  (fun f => (requester f, recipient f))
    <$> friendships (serve [(Sample.env, Request (Some Sample.a) (Some Sample.b))]
                           Sample.strangers)
  = [(Sample.a, Sample.b)]
  ∧ (fun f => (requester f, recipient f))
      <$> friendships (serve [(Sample.env, Request (Some Sample.b) (Some Sample.a))]
                             Sample.strangers)
    = [(Sample.b, Sample.a)].
Proof. split; vm_compute; reflexivity. Qed.

(** C9, amended: the friendship store keeps at most one edge per unordered
    pair of users: the request route looks for an existing edge in both
    directions and refuses when one is pending or accepted, and stores a
    new edge in the direction of the request; so no sequence of
    send-request, accept, decline and remove operations, served one after
    the other on a collection that starts empty, leaves two edges for the
    same pair. *)
Theorem friendships_one_edge_per_pair (ops : list (Env * FriendOp)) (st : St) :
  friendships st = [] →
  one_edge_per_pair (friendships (serve ops st)).
Proof.
  intros Hempty. apply distinct_pairs_one_edge.
  refine (proj1 (serve_kept ops st _)).
  unfold kept, well_kept. rewrite Hempty.
  repeat split; constructor.
Qed.

Lemma friendships_one_edge_per_pair_witness :
  one_edge_per_pair (friendships (serve Sample.courtship Sample.strangers)).
Proof.
  apply (friendships_one_edge_per_pair Sample.courtship Sample.strangers).
  reflexivity.
Defined.

(** The requests of [Sample.courtship] that meet an existing edge are
    refused: after the third one the only edge is the accepted one from
    [a] to [b], and at the end the only edge is the pending one from [b]
    to [a]. *)
Example courtship_edges :
  (fun f => (requester f, recipient f, status f))
    <$> friendships (serve (take 4 Sample.courtship) Sample.strangers)
  = [(Sample.a, Sample.b, accepted)]
  ∧ (fun f => (requester f, recipient f, status f))
      <$> friendships (serve Sample.courtship Sample.strangers)
    = [(Sample.b, Sample.a, pending)].
Proof. split; vm_compute; reflexivity. Qed.

(** * Further properties of the code *)

(** ** Times on the dashboard *)

Section FeedTimes.

Import Feed.

Lemma length_append (s t : string) :
  String.length (s ++ t) = (String.length s + String.length t)%nat.
Proof.
  induction s as [|c s IH]; [reflexivity|].
  rewrite append_String. simpl. rewrite IH. reflexivity.
Qed.

Lemma remaining_parts (r : Z) :
  (0 < r)%Z →
  (0 ≤ remainingHours r ∧ 0 ≤ remainingMinutes r < 60
   ∧ remainingHours r * hour_ms + remainingMinutes r * minute_ms ≤ r
   ∧ r < remainingHours r * hour_ms + remainingMinutes r * minute_ms + minute_ms)%Z.
Proof.
  intros Hr. unfold remainingHours, remainingMinutes, hour_ms, minute_ms.
  rewrite Z.rem_mod_nonneg by lia.
  change (1000 * 60 * 60)%Z with 3600000%Z. change (1000 * 60)%Z with 60000%Z.
  pose proof (Z.div_mod r 3600000 ltac:(lia)) as H1.
  pose proof (Z.mod_pos_bound r 3600000 ltac:(lia)) as H2.
  pose proof (Z.div_mod (r mod 3600000) 60000 ltac:(lia)) as H3.
  pose proof (Z.mod_pos_bound (r mod 3600000) 60000 ltac:(lia)) as H4.
  assert (0 ≤ r / 3600000)%Z by (apply Z.div_pos; lia).
  assert (0 ≤ r mod 3600000 / 60000)%Z by (apply Z.div_pos; lia).
  lia.
Qed.

Lemma left_not_Expired (s : string) : s ++ "m left" ≠ "Expired".
Proof.
  intros H. destruct s as [|c [|c' s]].
  - discriminate H.
  - rewrite append_String, append_empty in H. injection H as _ H. discriminate H.
  - apply (f_equal String.length) in H.
    rewrite length_append in H. simpl in H. lia.
Qed.

End FeedTimes.

(** X1: the remaining time that the dashboard route computes for a post
    is the one the virtual [timeRemaining] of the Post model gives, for all
    dates. *)
Theorem dashboard_timeRemaining_agrees (now expiresAt : Z) :
  Feed.dashboard_timeRemaining now expiresAt = Feed.timeRemaining now expiresAt.
Proof.
  unfold Feed.dashboard_timeRemaining, Feed.timeRemaining.
  destruct (Z.ltb_spec 0 (expiresAt - now)), (Z.leb_spec (expiresAt - now) 0);
    try lia; reflexivity.
Qed.

(** X2: a post reads 'Expired' exactly when its expiry date is not after
    the current time; otherwise the text ends in 'm left'. *)
Theorem timeRemaining_Expired (now expiresAt : Z) :
  Feed.timeRemaining now expiresAt = "Expired" ↔ (expiresAt ≤ now)%Z.
Proof.
  unfold Feed.timeRemaining.
  destruct (Z.leb_spec (expiresAt - now) 0) as [Hle|Hgt].
  - split; [lia|reflexivity].
  - split; [|lia]. intros H. exfalso.
    destruct (0 <? Feed.remainingHours (expiresAt - now))%Z.
    + apply (f_equal String.length) in H. rewrite !length_append in H.
      simpl in H. lia.
    + exact (left_not_Expired _ H).
Qed.

(** X3: for a post that has not expired, the hours and minutes shown are
    the remaining time rounded down to the minute: the minutes are below
    60, and the remaining time is at least the time shown and less than a
    minute more; the hours are left out when they are zero. *)
Theorem timeRemaining_rounds_down (now expiresAt : Z) :
  (now < expiresAt)%Z →
  ∃ h m : Z,
    (0 ≤ h ∧ 0 ≤ m < 60
     ∧ h * 3600000 + m * 60000 ≤ expiresAt - now < h * 3600000 + m * 60000 + 60000)%Z
    ∧ Feed.timeRemaining now expiresAt =
        if (0 <? h)%Z then pretty h ++ "h " ++ pretty m ++ "m left"
        else pretty m ++ "m left".
Proof.
  intros Hlt.
  exists (Feed.remainingHours (expiresAt - now)),
         (Feed.remainingMinutes (expiresAt - now)).
  pose proof (remaining_parts (expiresAt - now) ltac:(lia)) as H.
  unfold Feed.hour_ms, Feed.minute_ms in H.
  split; [lia|].
  unfold Feed.timeRemaining.
  destruct (Z.leb_spec (expiresAt - now) 0); [lia|reflexivity].
Qed.

Lemma timeRemaining_rounds_down_witness :
  ∃ h m : Z,
    (0 ≤ h ∧ 0 ≤ m < 60
     ∧ h * 3600000 + m * 60000 ≤ 180000000 - 0 < h * 3600000 + m * 60000 + 60000)%Z
    ∧ Feed.timeRemaining 0 180000000 =
        if (0 <? h)%Z then pretty h ++ "h " ++ pretty m ++ "m left"
        else pretty m ++ "m left".
Proof. apply (timeRemaining_rounds_down 0 180000000). lia. Defined.

(** X4: the age shown for a post is 'Just now' below one minute (a
    creation date in the future included); above, it is a count of whole
    minutes from 1 to 59, of whole hours from 1 to 23, or of whole days
    from 1 on, rounded down, the unit in the plural exactly when the count
    exceeds 1. *)
Theorem timeAgo_units (now createdAt : Z) :
  let d := (now - createdAt)%Z in
  ((d < 60000)%Z → Feed.timeAgo now createdAt = "Just now")
  ∧ ((60000 ≤ d)%Z →
     ∃ (n : Z) (unit : string) (ms : Z),
       Feed.timeAgo now createdAt
       = pretty n ++ " " ++ unit ++ (if (1 <? n)%Z then "s" else "") ++ " ago"
       ∧ (1 ≤ n ∧ n * ms ≤ d < n * ms + ms)%Z
       ∧ ((unit = "minute" ∧ ms = 60000%Z ∧ (n < 60)%Z)
          ∨ (unit = "hour" ∧ ms = 3600000%Z ∧ (n < 24)%Z)
          ∨ (unit = "day" ∧ ms = 86400000%Z))).
Proof.
  intros d. subst d. unfold Feed.timeAgo. split.
  - intros H. destruct (Z.ltb_spec (now - createdAt) 60000); [reflexivity|lia].
  - intros H.
    destruct (Z.ltb_spec (now - createdAt) 60000) as [?|_]; [lia|].
    destruct (Z.ltb_spec (now - createdAt) 3600000) as [H1|H1];
      [|destruct (Z.ltb_spec (now - createdAt) 86400000) as [H2|H2]].
    + exists ((now - createdAt) / 60000)%Z, "minute", 60000%Z.
      pose proof (Z.div_mod (now - createdAt) 60000 ltac:(lia)).
      pose proof (Z.mod_pos_bound (now - createdAt) 60000 ltac:(lia)).
      split; [reflexivity|]. split; [lia|]. left; repeat split; lia.
    + exists ((now - createdAt) / 3600000)%Z, "hour", 3600000%Z.
      pose proof (Z.div_mod (now - createdAt) 3600000 ltac:(lia)).
      pose proof (Z.mod_pos_bound (now - createdAt) 3600000 ltac:(lia)).
      split; [reflexivity|]. split; [lia|]. right; left; repeat split; lia.
    + exists ((now - createdAt) / 86400000)%Z, "day", 86400000%Z.
      pose proof (Z.div_mod (now - createdAt) 86400000 ltac:(lia)).
      pose proof (Z.mod_pos_bound (now - createdAt) 86400000 ltac:(lia)).
      split; [reflexivity|]. split; [lia|]. right; right; split; reflexivity.
Qed.

(** ** Likes of a post *)

Section Likes.

Import Feed.

Variables (now : Time) (userId : string).

Lemma find_isLikedBy (likes : list Like) :
  isLikedBy userId likes
  = match List.find (fun like => String.eqb (like_user like) userId) likes with
    | Some _ => true
    | None => false
    end.
Proof.
  unfold isLikedBy. induction likes as [|l likes IH]; simpl; [reflexivity|].
  destruct (String.eqb (like_user l) userId); [reflexivity|exact IH].
Qed.

Lemma filter_not_liked (likes : list Like) :
  isLikedBy userId likes = false →
  List.filter (fun like => negb (String.eqb (like_user like) userId)) likes = likes.
Proof.
  unfold isLikedBy. induction likes as [|l likes IH]; simpl; [reflexivity|].
  destruct (String.eqb (like_user l) userId); simpl; [discriminate|].
  intros H. rewrite (IH H). reflexivity.
Qed.

Lemma isLikedBy_filtered (likes : list Like) :
  isLikedBy userId
    (List.filter (fun like => negb (String.eqb (like_user like) userId)) likes)
  = false.
Proof.
  unfold isLikedBy. induction likes as [|l likes IH]; simpl; [reflexivity|].
  destruct (String.eqb (like_user l) userId) eqn:E; simpl; [exact IH|].
  rewrite E. exact IH.
Qed.

Lemma isLikedBy_app (u : string) (l1 l2 : list Like) :
  isLikedBy u (l1 ++ l2) = isLikedBy u l1 || isLikedBy u l2.
Proof. unfold isLikedBy. apply existsb_app. Qed.

End Likes.

(** X5: toggling a like answers with the new state, which is the opposite
    of the old one: afterwards the post is liked by the user exactly when
    the answer is true; the likes of every other user are kept, in their
    order. *)
Theorem toggleLike_flips (now : Time) (userId : string) (likes : list Feed.Like) :
  let r := Feed.toggleLike now userId likes in
  r.1 = negb (Feed.isLikedBy userId likes)
  ∧ Feed.isLikedBy userId r.2 = r.1
  ∧ ∀ other, other ≠ userId →
      List.filter (fun like => String.eqb (Feed.like_user like) other) r.2
      = List.filter (fun like => String.eqb (Feed.like_user like) other) likes.
Proof.
  intros r. subst r. unfold Feed.toggleLike.
  rewrite (find_isLikedBy userId likes).
  destruct (List.find _ likes) as [l|] eqn:E; simpl.
  - split; [reflexivity|]. split; [apply isLikedBy_filtered|].
    intros other Hne. induction likes as [|x likes IH] in E |- *; simpl; [reflexivity|].
    simpl in E. destruct (String.eqb (Feed.like_user x) userId) eqn:Ex; simpl.
    + apply String.eqb_eq in Ex.
      destruct (String.eqb_spec (Feed.like_user x) other) as [Ho|_]; [congruence|].
      clear E IH. induction likes as [|y likes IH]; simpl; [reflexivity|].
      destruct (String.eqb (Feed.like_user y) userId) eqn:Ey; simpl.
      * apply String.eqb_eq in Ey.
        destruct (String.eqb_spec (Feed.like_user y) other); [congruence|exact IH].
      * rewrite IH. reflexivity.
    + rewrite (IH E). reflexivity.
  - split; [reflexivity|]. split.
    + rewrite isLikedBy_app. simpl. rewrite String.eqb_refl.
      apply orb_true_iff. right. reflexivity.
    + intros other Hne. rewrite List.filter_app. simpl.
      destruct (String.eqb_spec userId other); [congruence|]. apply app_nil_r.
Qed.

(** X6: liking a post the user has not liked adds one like, and unliking
    it again gives back the former likes. *)
Theorem toggleLike_round_trip
    (t1 t2 : Time) (userId : string) (likes : list Feed.Like) :
  Feed.isLikedBy userId likes = false →
  let liked := (Feed.toggleLike t1 userId likes).2 in
  Feed.likeCount liked = S (Feed.likeCount likes)
  ∧ Feed.toggleLike t2 userId liked = (false, likes).
Proof.
  intros Hno liked. subst liked. unfold Feed.toggleLike at 1 3.
  pose proof (find_isLikedBy userId likes) as Hfind. rewrite Hno in Hfind.
  destruct (List.find _ likes) eqn:E; [discriminate|]. simpl.
  split.
  - unfold Feed.likeCount. rewrite length_app. simpl. lia.
  - unfold Feed.toggleLike.
    pose proof (find_isLikedBy userId (likes ++ [Feed.mkLike userId t1])) as H2.
    rewrite isLikedBy_app in H2. simpl in H2. rewrite String.eqb_refl in H2.
    rewrite orb_true_r in H2.
    destruct (List.find _ (likes ++ _)); [|discriminate].
    f_equal. rewrite List.filter_app. simpl. rewrite String.eqb_refl. simpl.
    rewrite app_nil_r. apply filter_not_liked. exact Hno.
Qed.

Lemma toggleLike_round_trip_witness :
  Feed.toggleLike 7%Z "a" (Feed.toggleLike 5%Z "a" [Feed.mkLike "b" 1%Z]).2
  = (false, [Feed.mkLike "b" 1%Z]).
Proof.
  refine (proj2 (toggleLike_round_trip 5%Z 7%Z "a" [Feed.mkLike "b" 1%Z] _)).
  reflexivity.
Defined.

(** ** The friendship gate and the friendship routes *)

Section Gate.

Variables (env : Env) (st : St).

Lemma friends_in_sym (l : list Friendship) (a b : string) :
  friends_in l a b → friends_in l b a.
Proof.
  intros (f & Hin & Hs & Hf). exists f. split; [exact Hin|].
  split; [exact Hs|apply joins_sym, Hf].
Qed.

Lemma accepted_between_sym (l : list Friendship) (a b : string) :
  accepted_between l a b = accepted_between l b a.
Proof.
  destruct (accepted_between l b a) eqn:E.
  - apply accepted_between_true, friends_in_sym, accepted_between_true, E.
  - apply accepted_between_false. intros H.
    apply accepted_between_false in E. apply E, friends_in_sym, H.
Qed.

(** Two edges that join the same two users are edges of the same pair. *)
Lemma joins_same_pair (f g : Friendship) (a b : string) :
  joins f a b → joins g a b → same_pair f g.
Proof.
  unfold joins, same_pair.
  intros [[F1 F2]|[F1 F2]] [[G1 G2]|[G1 G2]];
    rewrite F1 in *; rewrite F2 in *;
    injection G1 as G1; injection G2 as G2; auto.
Qed.

(** A route answers, whatever happens. *)
Lemma friend_route_answers (op : FriendOp) :
  ∃ r, (friend_route op env st).1 = Ok r.
Proof.
  destruct op; unfold friend_route, friends_request, friends_accept,
    friends_decline, friends_remove, isLoggedIn; unfold_db; unfold_monad;
    repeat (simpl; case_split); simpl; eauto.
Qed.

Lemma friend_route_refusal (op : FriendOp) (r : Response) (st' : St) :
  friend_route op env st = (Ok r, st') →
  code r ≠ 200 → code r ≠ 500 → st' = st.
Proof.
  destruct op; unfold friend_route, friends_request, friends_accept,
    friends_decline, friends_remove, isLoggedIn; unfold_db; unfold_monad;
    repeat (simpl; case_split); simpl; intros [= <- <-]; simpl;
    congruence.
Qed.

End Gate.

(** X7: the friendship gate is symmetric: [areFriends] gives the same
    answer, or rejects alike, whichever of the two users is named first. *)
Theorem areFriends_symmetric (env : Env) (st : St) (a b : string) :
  areFriends a b env st = areFriends b a env st.
Proof.
  rewrite !areFriends_run, (accepted_between_sym (friendships st) a b),
    (andb_comm (castable a)).
  reflexivity.
Qed.

(** X8: a friendship route always answers (no exception leaves it), and
    an answer other than 200 and 500, that is the redirect to the login
    page of a request without a session, a 400 or a 404, leaves the whole
    state as it was. *)
Theorem friend_route_refuses_without_effect
    (env : Env) (st : St) (op : FriendOp) :
  ∃ r st', friend_route op env st = (Ok r, st')
           ∧ (code r ≠ 200 → code r ≠ 500 → st' = st).
Proof.
  destruct (friend_route_answers env st op) as [r Hr].
  destruct (friend_route op env st) as [res st'] eqn:E. simpl in Hr. subst res.
  exists r, st'. split; [reflexivity|].
  exact (friend_route_refusal env st op r st' E).
Qed.

Section RouteRuns.

Variables (env : Env) (st : St).

Lemma find_first_by_id (l : list Friendship) (p : Friendship → bool) (f : Friendship) :
  NoDup (f_id <$> l) → f ∈ l → p f = true →
  (∀ g, p g = true → f_id g = f_id f) →
  List.find p l = Some f.
Proof.
  intros Hnd Hf Hp Hid. destruct (List.find p l) as [g|] eqn:E.
  - apply find_some in E as [Hg Hpg]. apply list_elem_of_In in Hg.
    f_equal. apply (NoDup_id_eq l g f Hnd Hg Hf). apply Hid, Hpg.
  - apply list_elem_of_In in Hf. pose proof (find_none _ _ E f Hf). congruence.
Qed.

Lemma find_none_by_id (l : list Friendship) (p : Friendship → bool) (f : Friendship) :
  NoDup (f_id <$> l) → f ∈ l → p f = false →
  (∀ g, p g = true → f_id g = f_id f) →
  List.find p l = None.
Proof.
  intros Hnd Hf Hp Hid. destruct (List.find p l) as [g|] eqn:E; [|reflexivity].
  apply find_some in E as [Hg Hpg]. apply list_elem_of_In in Hg.
  rewrite (NoDup_id_eq l g f Hnd Hg Hf (Hid g Hpg)) in Hpg. congruence.
Qed.

Lemma unrelated_lookup (a b i j : string) (e : Friendship) :
  unrelated (friendships st) a b →
  castObjectId a = Some i → castObjectId b = Some j →
  requester e = i → recipient e = j →
  List.find (fun f => from_to a b f || from_to b a f) (friendships st) = None
  ∧ existsb (same_ends e) (friendships st) = false.
Proof.
  intros Hun Hi Hj Hre Hrc. split.
  - destruct (List.find _ _) as [f|] eqn:E; [|reflexivity]. exfalso.
    apply find_some in E as [Hin Hf]. apply list_elem_of_In in Hin.
    apply (Hun f Hin), from_to_either, Hf.
  - destruct (existsb _ _) eqn:E; [|reflexivity]. exfalso.
    apply existsb_exists in E as (f & Hin & Hf). apply list_elem_of_In in Hin.
    apply (Hun f Hin). unfold same_ends in Hf. apply andb_prop in Hf as [H1 H2].
    apply String.eqb_eq in H1, H2. left. split; congruence.
Qed.

Lemma related_lookup (a b : string) (f : Friendship) :
  Forall live (friendships st) → f ∈ friendships st → joins f a b →
  ∃ g, List.find (fun f => from_to a b f || from_to b a f) (friendships st) = Some g
       ∧ live g.
Proof.
  intros Hl Hf Hab. rewrite Forall_forall in Hl.
  destruct (List.find _ _) as [g|] eqn:E.
  - exists g. split; [reflexivity|]. apply find_some in E as [Hin _].
    apply Hl, list_elem_of_In, Hin.
  - exfalso. apply list_elem_of_In in Hf.
    pose proof (find_none _ _ E f Hf) as Hn. simpl in Hn.
    apply from_to_either in Hab. congruence.
Qed.

(** The request route on a pair without an edge. *)
Lemma friends_request_creates (a b i j : string) (u : User) :
  reliable env → a ≠ "" → b ≠ "" → a ≠ b →
  castObjectId a = Some i → castObjectId b = Some j →
  users st !! j = Some u → unrelated (friendships st) a b →
  ∃ st1,
    friends_request (Some a) (Some b) env st
    = (Ok (mkResponse 200 "Friend request sent successfully"), st1)
    ∧ friendships st1
      = (friendships st
         ++ [mkFriendship (nextId st) i j pending (clock env (ticks st))
                          (clock env (S (S (ticks st))))])%list
    ∧ nextId st1 = S (nextId st) ∧ users st1 = users st
    ∧ messages st1 = messages st.
Proof.
  intros Hrel Ha Hb Hab Hi Hj Hu Hun.
  destruct (unrelated_lookup a b i j
              (mkFriendship (nextId st) i j pending (clock env (ticks st))
                            (clock env (S (ticks st)))) Hun Hi Hj eq_refl eq_refl)
    as [Hfind Hex].
  unfold friends_request, isLoggedIn. rewrite (truthy_Some a Ha).
  unfold_db. unfold_monad. simpl. rewrite (truthy_Some b Hb).
  destruct (String.eqb_spec a b) as [?|_]; [congruence|].
  simpl. rewrite (castable_cast _ _ Hi), (castable_cast _ _ Hj). simpl.
  rewrite (Hrel UserFindById). simpl. rewrite Hj. simpl. rewrite Hu. simpl.
  rewrite (Hrel FriendshipFindOne). simpl. rewrite Hfind. simpl.
  rewrite Hi. simpl.
  rewrite (Hrel FriendshipSave). simpl. rewrite Hex. simpl.
  rewrite (Hrel PopulateFirst). simpl. rewrite (Hrel PopulateSecond). simpl.
  eexists. split; [reflexivity|]. simpl. auto.
Qed.

(** The accept route on a pending request, by its recipient. *)
Lemma friends_accept_accepts (u : string) (f : Friendship) :
  fails env FriendshipFindOne = false → fails env FriendshipSave = false →
  u ≠ "" → NoDup (f_id <$> friendships st) →
  f ∈ friendships st → castObjectId u = Some (recipient f) → status f = pending →
  let f' := with_updatedAt (clock env (ticks st)) (with_status accepted f) in
  ∃ r, (friends_accept (Some u) (Some (f_id f)) env st).1 = Ok r
       ∧ friendships (exec (friends_accept (Some u) (Some (f_id f))) env st)
         = map (fun g => if Nat.eqb (f_id g) (f_id f) then f' else g) (friendships st).
Proof.
  intros Hfo Hsv Hu Hnd Hf Hrec Hst f'. subst f'.
  assert (Hfind : List.find (pending_for (f_id f) u) (friendships st) = Some f).
  { apply find_first_by_id; [assumption..| |].
    - unfold pending_for. rewrite Nat.eqb_refl, (is_id_cast _ _ Hrec), Hst.
      reflexivity.
    - intros g Hg. unfold pending_for in Hg.
      apply andb_prop in Hg as [Hg _]. apply andb_prop in Hg as [Hg _].
      apply Nat.eqb_eq, Hg. }
  unfold exec, friends_accept, isLoggedIn. rewrite (truthy_Some u Hu).
  unfold_db. unfold_monad. simpl. rewrite (castable_cast _ _ Hrec). simpl.
  rewrite Hfo, Hfind. simpl. rewrite Hsv. simpl.
  destruct (fails env PopulateFirst); simpl; [eauto|].
  destruct (fails env PopulateSecond); simpl; eauto.
Qed.

End RouteRuns.

(** X9: while an edge between two users is pending or accepted, a request
    from either of them to the other is refused and nothing changes,
    whoever sent the first request and however the two ids are written. *)
Theorem friends_request_duplicate_refused
    (env : Env) (st : St) (a b : string) (f : Friendship) :
  Forall live (friendships st) → f ∈ friendships st →
  (castObjectId a = Some (requester f) ∧ castObjectId b = Some (recipient f))
  ∨ (castObjectId b = Some (requester f) ∧ castObjectId a = Some (recipient f)) →
  ∃ r, friends_request (Some a) (Some b) env st = (Ok r, st) ∧ code r ≠ 200.
Proof.
  intros Hl Hf Hab.
  destruct (related_lookup st a b f Hl Hf Hab) as (g & Hfind & Hg).
  destruct (joins_castable f a b Hab) as [Hca Hcb].
  assert (Hno : ∀ c msg, c ≠ 200 →
            ∃ r, (Ok (mkResponse c msg), st) = (Ok r, st) ∧ code r ≠ 200)
    by (intros c msg Hc; eexists; split; [reflexivity|exact Hc]).
  unfold friends_request, isLoggedIn. unfold_db. unfold_monad.
  destruct (truthy_cases a) as [[_ ->]|[_ ->]]; [apply Hno; discriminate|].
  simpl.
  destruct (truthy_cases b) as [[_ ->]|[_ ->]]; [apply Hno; discriminate|].
  destruct (String.eqb a b); [apply Hno; discriminate|].
  simpl. rewrite Hca, Hcb. simpl.
  destruct (fails env UserFindById); [apply Hno; discriminate|]. simpl.
  destruct (castObjectId b); [|apply Hno; discriminate].
  destruct (users st !! _); [|apply Hno; discriminate]. simpl.
  destruct (fails env FriendshipFindOne); [apply Hno; discriminate|]. simpl.
  rewrite Hfind. simpl. destruct Hg as [-> | ->]; apply Hno; discriminate.
Qed.

Lemma friends_request_duplicate_refused_witness :
  ∃ r, friends_request (Some Sample.b) (Some Sample.a_upper) Sample.env Sample.friends
       = (Ok r, Sample.friends) ∧ code r ≠ 200.
Proof.
  apply (friends_request_duplicate_refused Sample.env Sample.friends
           Sample.b Sample.a_upper (mkFriendship 0 Sample.a Sample.b accepted 0%Z 0%Z)).
  - constructor; [right; reflexivity|constructor].
  - apply list_elem_of_here.
  - right. split; reflexivity.
Defined.

(** X10: a request between two users without an edge, once accepted by
    its recipient, opens the friendship gate: after the two routes the two
    users are friends, in both directions. *)
Theorem friends_request_then_accept
    (env1 env2 : Env) (st : St) (a b i j : string) (u : User) :
  kept st → reliable env1 → reliable env2 →
  a ≠ "" → b ≠ "" → a ≠ b →
  castObjectId a = Some i → castObjectId b = Some j →
  users st !! j = Some u → unrelated (friendships st) a b →
  let st1 := exec (friends_request (Some a) (Some b)) env1 st in
  let st2 := exec (friends_accept (Some b) (Some (nextId st))) env2 st1 in
  friends_in (friendships st2) a b ∧ friends_in (friendships st2) b a
  ∧ accepted_between (friendships st2) a b = true.
Proof.
  intros Hk Hr1 Hr2 Ha Hb Hab Hi Hj Hu Hun st1 st2.
  destruct (friends_request_creates env1 st a b i j u Hr1 Ha Hb Hab Hi Hj Hu Hun)
    as (s1 & Hrun & Hfs & Hnext & _).
  assert (Hst1 : st1 = s1) by (subst st1; unfold exec; rewrite Hrun; reflexivity).
  set (f := mkFriendship (nextId st) i j pending (clock env1 (ticks st))
                         (clock env1 (S (S (ticks st))))) in *.
  assert (Hk1 : kept st1).
  { subst st1. apply friends_request_kept, Hk. }
  destruct Hk1 as (_ & _ & Hnd & _).
  assert (Hin : f ∈ friendships st1).
  { rewrite Hst1, Hfs. apply elem_of_app. right. apply list_elem_of_here. }
  destruct (friends_accept_accepts env2 st1 b f) as (r & _ & Hmap);
    try apply Hr2; try assumption; try reflexivity.
  assert (Hfr : friends_in (friendships st2) a b).
  { subst st2. change (nextId st) with (f_id f). rewrite Hmap.
    exists (with_updatedAt (clock env2 (ticks st1)) (with_status accepted f)).
    split; [|split; [reflexivity|left; split; assumption]].
    apply list_elem_of_fmap. exists f. split; [|exact Hin].
    rewrite Nat.eqb_refl. reflexivity. }
  split; [exact Hfr|]. split; [apply friends_in_sym, Hfr|].
  apply accepted_between_true, Hfr.
Qed.

Lemma friends_request_then_accept_witness :
  accepted_between
    (friendships
       (exec (friends_accept (Some Sample.b) (Some (nextId Sample.strangers))) Sample.env
             (exec (friends_request (Some Sample.a) (Some Sample.b)) Sample.env
                   Sample.strangers)))
    Sample.a Sample.b = true.
Proof.
  refine (proj2 (proj2 (friends_request_then_accept Sample.env Sample.env
    Sample.strangers Sample.a Sample.b Sample.a Sample.b Sample.bob
    _ _ _ _ _ _ _ _ _ _))).
  - repeat split; constructor.
  - intros op. reflexivity.
  - intros op. reflexivity.
  - discriminate.
  - discriminate.
  - discriminate.
  - reflexivity.
  - reflexivity.
  - reflexivity.
  - intros f Hf. simpl in Hf. apply elem_of_nil in Hf. destruct Hf.
Defined.

(** X11: only the recipient of a request can accept or decline it: for
    any other user of the session both routes answer 404 and change
    nothing. *)
Theorem friends_accept_only_recipient
    (env : Env) (st : St) (u i : string) (f : Friendship) :
  NoDup (f_id <$> friendships st) → f ∈ friendships st →
  castObjectId u = Some i → recipient f ≠ i → u ≠ "" →
  fails env FriendshipFindOne = false →
  friends_accept (Some u) (Some (f_id f)) env st
  = (Ok (mkResponse 404 "Friend request not found"), st)
  ∧ friends_decline (Some u) (Some (f_id f)) env st
    = (Ok (mkResponse 404 "Friend request not found"), st).
Proof.
  intros Hnd Hf Hi Hrec Hu Hfo.
  assert (Hfind : List.find (pending_for (f_id f) u) (friendships st) = None).
  { apply (find_none_by_id _ _ f); [assumption..| |].
    - unfold pending_for.
      destruct (is_id u (recipient f)) eqn:E;
        [apply is_id_true in E; congruence|].
      rewrite andb_false_r. reflexivity.
    - intros g Hg. unfold pending_for in Hg.
      apply andb_prop in Hg as [Hg _]. apply andb_prop in Hg as [Hg _].
      apply Nat.eqb_eq, Hg. }
  unfold friends_accept, friends_decline, isLoggedIn. rewrite (truthy_Some u Hu).
  unfold_db. unfold_monad. simpl. rewrite (castable_cast _ _ Hi). simpl.
  rewrite Hfo, Hfind. split; reflexivity.
Qed.

Lemma friends_accept_only_recipient_witness :
  friends_accept (Some Sample.a) (Some 0) Sample.env
    (exec (friends_request (Some Sample.a) (Some Sample.b)) Sample.env Sample.strangers)
  = (Ok (mkResponse 404 "Friend request not found"),
     exec (friends_request (Some Sample.a) (Some Sample.b)) Sample.env Sample.strangers).
Proof.
  refine (proj1 (friends_accept_only_recipient Sample.env
    (exec (friends_request (Some Sample.a) (Some Sample.b)) Sample.env Sample.strangers)
    Sample.a Sample.a
    (mkFriendship 0 Sample.a Sample.b pending 1000%Z 1002%Z) _ _ _ _ _ _)).
  - vm_compute. repeat constructor. intros H. inversion H.
  - vm_compute. apply list_elem_of_here.
  - reflexivity.
  - discriminate.
  - discriminate.
  - reflexivity.
Defined.

Section Unfriend.

Variables (env : Env) (st : St).

(** In a well-kept collection, deleting an edge leaves no edge of its
    pair. *)
Lemma delete_first_unpairs (l : list Friendship) (f g : Friendship) :
  distinct_pairs l → NoDup (f_id <$> l) → f ∈ l →
  g ∈ delete_first (f_id f) l → ¬ same_pair f g.
Proof.
  induction 1 as [|x l Hx Hl IH]; intros Hnd Hf Hg.
  - apply elem_of_nil in Hf. destruct Hf.
  - simpl in Hg. rewrite Forall_forall in Hx.
    destruct (Nat.eqb (f_id x) (f_id f)) eqn:E.
    + apply Nat.eqb_eq in E.
      assert (x = f) as ->.
      { apply (NoDup_id_eq (x :: l) x f Hnd); [apply list_elem_of_here|assumption..]. }
      apply Hx, Hg.
    + apply Nat.eqb_neq in E.
      apply elem_of_cons in Hf as [->|Hf]; [congruence|].
      rewrite fmap_cons in Hnd. apply NoDup_cons in Hnd as [_ Hnd].
      apply elem_of_cons in Hg as [->|Hg].
      * intros Hs. apply (Hx f Hf), same_pair_sym, Hs.
      * exact (IH Hnd Hf Hg).
Qed.

Lemma friends_remove_removes (a b : string) :
  kept st → a ≠ "" → b ≠ "" →
  fails env FriendshipFindOne = false →
  fails env FriendshipFindByIdAndDelete = false →
  friends_in (friendships st) a b →
  ∃ st',
    friends_remove (Some a) (Some b) env st
    = (Ok (mkResponse 200 "Friend removed successfully"), st')
    ∧ ¬ friends_in (friendships st') a b
    ∧ messages st' = messages st.
Proof.
  intros (Hd & _ & Hnd & _) Ha Hb Hfo Hdel Hfr.
  destruct (friends_in_castable _ _ _ Hfr) as [Hca Hcb].
  apply accepted_between_true in Hfr. unfold accepted_between in Hfr.
  destruct (List.find _ (friendships st)) as [f|] eqn:Hfind; [|discriminate].
  unfold friends_remove, isLoggedIn. rewrite (truthy_Some a Ha).
  unfold_db. unfold_monad. simpl. rewrite (truthy_Some b Hb), Hca, Hcb. simpl.
  rewrite Hfo. simpl.
  rewrite Hfind. simpl. rewrite Hdel. simpl.
  eexists. split; [reflexivity|]. simpl. split; [|reflexivity].
  apply find_some in Hfind as [Hin Hf]. apply list_elem_of_In in Hin.
  apply accepted_filter in Hf as [_ Hf].
  intros (g & Hg & _ & Hgab).
  apply (delete_first_unpairs (friendships st) f g Hd Hnd Hin Hg).
  exact (joins_same_pair f g a b Hf Hgab).
Qed.

End Unfriend.

(** X12: removing a friend closes the friendship gate: in a collection
    with one edge per pair, after the remove route has answered 200 the two
    users are no longer friends, and a send-message between them persists
    nothing and is answered with 'You can only message friends'. *)
Theorem friends_remove_closes_gate
    (env env' : Env) (st : St) (a b body : string) :
  kept st → a ≠ "" → b ≠ "" → body ≠ "" →
  fails env FriendshipFindOne = false →
  fails env FriendshipFindByIdAndDelete = false →
  fails env' FriendshipFindOne = false →
  friends_in (friendships st) a b →
  let st1 := exec (friends_remove (Some a) (Some b)) env st in
  let send := send_message (Some (mkSendMessageData (Some a) (Some b) (Some body))) in
  (friends_remove (Some a) (Some b) env st).1
  = Ok (mkResponse 200 "Friend removed successfully")
  ∧ ¬ friends_in (friendships st1) a b
  ∧ messages (exec send env' st1) = messages st
  ∧ emitted send env' st1 = [Emit ToSelf (MessageError "You can only message friends")].
Proof.
  intros Hk Ha Hb Hbody Hfo Hdel Hfo' Hfr st1 send. subst st1 send.
  destruct (friends_in_castable _ _ _ Hfr) as [Hca Hcb]. unfold castable in Hca, Hcb.
  destruct (friends_remove_removes env st a b Hk Ha Hb Hfo Hdel Hfr)
    as (st' & Hrun & Hno & Hmsg).
  assert (Hst1 : exec (friends_remove (Some a) (Some b)) env st = st')
    by (unfold exec; rewrite Hrun; reflexivity).
  rewrite Hst1, Hrun. simpl.
  split; [reflexivity|]. split; [exact Hno|].
  destruct (send_message_rejects env' st' a b (Some body) Hno)
    as (error & Hsend & _ & _ & Herr).
  rewrite Herr in Hsend; try assumption.
  - unfold emitted, exec. rewrite Hsend. simpl. rewrite drop_app_length.
    split; [exact Hmsg|reflexivity].
  - rewrite (truthy_Some body Hbody). discriminate.
  - destruct (castObjectId a); [eauto|discriminate].
  - destruct (castObjectId b); [eauto|discriminate].
Qed.

Lemma friends_remove_closes_gate_witness :
  emitted (send_message
             (Some (mkSendMessageData (Some Sample.a) (Some Sample.b) (Some "hi"))))
          Sample.env
          (exec (friends_remove (Some Sample.a) (Some Sample.b)) Sample.env Sample.friends)
  = [Emit ToSelf (MessageError "You can only message friends")].
Proof.
  refine (proj2 (proj2 (proj2 (friends_remove_closes_gate Sample.env Sample.env
    Sample.friends Sample.a Sample.b "hi" _ _ _ _ _ _ _ _)))).
  - repeat split.
    + constructor; constructor.
    + constructor; [right; reflexivity|constructor].
    + vm_compute. repeat constructor. intros H. inversion H.
    + constructor; [simpl; lia|constructor].
  - discriminate.
  - discriminate.
  - discriminate.
  - reflexivity.
  - reflexivity.
  - reflexivity.
  - eexists. split; [apply list_elem_of_here|]. split; [reflexivity|].
    left. split; reflexivity.
Defined.

(** ** What the connection handlers leave alone *)

Ltac unfold_handlers :=
  unfold handle, user_connected, join_chat, send_message, mark_messages_read,
    user_active, user_inactive, user_disconnected, disconnect in *.

Section Frames.

Lemma same_message_refl (m : Message) : same_message m m.
Proof. repeat split; reflexivity. Qed.

Lemma messages_kept_refl (l : list Message) : messages_kept l l.
Proof. intros i m Hi. exists m. split; [exact Hi|apply same_message_refl]. Qed.

Lemma messages_kept_app (l k : list Message) : messages_kept l (l ++ k).
Proof.
  intros i m Hi. exists m. split; [|apply same_message_refl].
  apply lookup_app_l_Some, Hi.
Qed.

Lemma messages_kept_mark (a b : option string) (t : Time) (l : list Message) :
  messages_kept l (map (fun m => if unread_from_to a b m then mark_read t m else m) l).
Proof.
  intros i m Hi. rewrite list_lookup_fmap, Hi. simpl.
  destruct (unread_from_to a b m) eqn:E.
  - exists (mark_read t m). split; [reflexivity|].
    repeat split; try reflexivity. intros Hr.
    unfold unread_from_to in E. rewrite Hr, andb_false_r in E. discriminate.
  - exists m. split; [reflexivity|apply same_message_refl].
Qed.

End Frames.

(** X13: no event of a client, whatever its payload and whichever
    database calls are rejected, makes a handler throw, changes the
    friendship collection, or adds or removes a user record. *)
Theorem handle_leaves_registry (env : Env) (st : St) (ev : ClientEvent) :
  (handle ev env st).1 = Ok tt
  ∧ friendships (exec (handle ev) env st) = friendships st
  ∧ dom (users (exec (handle ev) env st)) = dom (users st).
Proof.
  destruct ev; unfold exec; unfold_handlers; unfold_db; unfold_monad;
    unfold Js.truthy;
    repeat (simpl; case_split); simpl;
    repeat split; rewrite ?dom_alter_L; reflexivity.
Qed.

(** X14: no event of a client deletes or rewrites a message: every
    message stays at its position with its id, sender, recipient, content,
    type and creation date; only its read flag and read time can change,
    and only while it is unread. *)
Theorem handle_keeps_messages (env : Env) (st : St) (ev : ClientEvent) :
  messages_kept (messages st) (messages (exec (handle ev) env st)).
Proof.
  destruct ev; unfold exec; unfold_handlers; unfold_db; unfold_monad;
    unfold Js.truthy;
    repeat (simpl; case_split); simpl;
    first [ apply messages_kept_refl | apply messages_kept_app
          | apply messages_kept_mark
          | rewrite List.map_id; apply messages_kept_refl ].
Qed.

(** ** Reading, presence and delivery *)

(** X15: marking the messages of a sender as read twice is the same as
    marking them once: when the first bulk update was executed, a second
    mark-messages-read for the same pair changes no message, the read times
    of the first one included. *)
Theorem mark_messages_read_idempotent
    (env1 env2 : Env) (st : St) (a b : option string) :
  fails env1 MessageUpdateMany = false →
  let mr := mark_messages_read (Some (mkPairData a b)) in
  messages (exec mr env2 (exec mr env1 st)) = messages (exec mr env1 st).
Proof.
  intros Hup mr. subst mr.
  rewrite (mark_messages_read_messages env2 (exec _ env1 st)).
  destruct (forallb castable (option_list a ++ option_list b)) eqn:Hc;
    [|reflexivity].
  destruct (fails env2 MessageUpdateMany); [reflexivity|].
  rewrite (mark_messages_read_messages env1 st), Hc, Hup. simpl.
  rewrite List.map_map. apply List.map_ext. intros m.
  destruct (unread_from_to a b m) eqn:E.
  - unfold unread_from_to. simpl. rewrite andb_false_r. reflexivity.
  - rewrite E. reflexivity.
Qed.

Lemma mark_messages_read_idempotent_witness :
  messages (exec (mark_messages_read (Some (mkPairData (Some Sample.a) (Some Sample.b))))
                 Sample.env
                 (exec (mark_messages_read
                          (Some (mkPairData (Some Sample.a) (Some Sample.b))))
                       Sample.env Sample.chatting))
  = messages (exec (mark_messages_read
                      (Some (mkPairData (Some Sample.a) (Some Sample.b))))
                   Sample.env Sample.chatting).
Proof.
  apply (mark_messages_read_idempotent Sample.env Sample.env Sample.chatting
           (Some Sample.a) (Some Sample.b)).
  reflexivity.
Defined.

Section Rooms.

Variables (env : Env) (st : St).

Lemma chatRoom_swap (a b : string) : chatRoom a b = chatRoom b a.
Proof.
  rewrite !chatRoom_unfold.
  destruct (String.leb a b) eqn:Hab, (String.leb b a) eqn:Hba; try reflexivity.
  - rewrite (String.leb_antisym a b Hab Hba). reflexivity.
  - destruct (String.leb_total a b); congruence.
Qed.

(** A socket stays in a room when a socket joins a room. *)
Lemma joined_stays (r : gmap (option string) (gset string))
    (k k' : option string) (s s' : string) :
  s ∈ default ∅ (r !! k) →
  s ∈ default ∅ (<[k' := {[s']} ∪ default ∅ (r !! k')]> r !! k).
Proof.
  intros Hs. destruct (decide (k' = k)) as [->|Hne].
  - rewrite lookup_insert_eq. simpl. set_solver.
  - rewrite lookup_insert_ne by exact Hne. exact Hs.
Qed.

Lemma joined_in (r : gmap (option string) (gset string)) (k : option string) (s : string) :
  s ∈ default ∅ (<[k := {[s]} ∪ default ∅ (r !! k)]> r !! k).
Proof. rewrite lookup_insert_eq. simpl. set_solver. Qed.

Lemma connection_run :
  connection env st
  = (Ok tt, set_currentUser (delete (sid env))
              (set_rooms (fun r => <[Some (sid env) :=
                                       {[sid env]} ∪ default ∅ (r !! Some (sid env))]> r)
                         st)).
Proof. reflexivity. Qed.

(** A new connection has no identity, and the identities of the other
    connections stay bound. *)
Lemma connection_currentUser (s : string) :
  currentUser (exec connection env st) !! s
  = if decide (s = sid env) then None else currentUser st !! s.
Proof.
  unfold exec. rewrite connection_run. simpl.
  destruct (decide (s = sid env)) as [->|Hne].
  - apply lookup_delete_eq.
  - apply lookup_delete_ne. congruence.
Qed.

Lemma user_connected_run (userId i : string) (name : option string) :
  castObjectId userId = Some i →
  fails env UserFindByIdAndUpdate = false →
  ∃ st1,
    user_connected (Some (mkUserConnectedData (Some userId) name)) env st = (Ok tt, st1)
    ∧ users st1 = alter (online_at (clock env (ticks st)) (sid env)) i (users st)
    ∧ rooms st1 = <[Some userId := {[sid env]} ∪ default ∅ (rooms st !! Some userId)]>
                    (rooms st)
    ∧ currentUser st1
      = <[sid env := mkCurrentUser (Some userId) name]> (currentUser st)
    ∧ ticks st1 = S (S (ticks st))
    ∧ out st1 = (out st ++ [Emit ToOthers
                              (UserStatusUpdate (Some userId) true
                                                (clock env (S (ticks st))))])%list
    ∧ friendships st1 = friendships st ∧ messages st1 = messages st.
Proof.
  intros Hi Hf. unfold user_connected. unfold_db. unfold_monad. simpl.
  rewrite (castable_cast _ _ Hi). simpl. rewrite Hf. simpl. rewrite Hi. simpl.
  eexists. split; [reflexivity|]. simpl. auto 10.
Qed.

Lemma join_chat_run (a b : option string) :
  join_chat (Some (mkPairData a b)) env st
  = (Ok tt, set_rooms (fun r => <[Some (chatRoom_raw a b) :=
                                    {[sid env]} ∪ default ∅ (r !! Some (chatRoom_raw a b))]> r)
                      st).
Proof. reflexivity. Qed.

Lemma send_message_rooms (data : option SendMessageData) :
  rooms (exec (send_message data) env st) = rooms st.
Proof.
  unfold exec, send_message. unfold_db. unfold_monad. unfold Js.truthy.
  repeat (simpl; case_split); reflexivity.
Qed.

Lemma mark_messages_read_rooms (data : option PairData) :
  rooms (exec (mark_messages_read data) env st) = rooms st.
Proof.
  unfold exec, mark_messages_read. unfold_db. unfold_monad. unfold Js.truthy.
  repeat (simpl; case_split); reflexivity.
Qed.

(** What mark-messages-read emits when its two ids are ids and its calls
    are not rejected: the receipt, to the stored handle of the sender. *)
Lemma mark_messages_read_out (A B i j : string) :
  castObjectId A = Some i → castObjectId B = Some j →
  fails env MessageUpdateMany = false → fails env UserFindById = false →
  out (exec (mark_messages_read (Some (mkPairData (Some A) (Some B)))) env st)
  = match Js.truthy (users st !! i ≫= socketId) with
    | Some s => (out st ++ [Emit (ToRoom (Some s))
                              (MessagesRead (Some B) (clock env (S (ticks st))))])%list
    | None => out st
    end.
Proof.
  intros Hi Hj Hup Hfind. unfold exec, mark_messages_read.
  unfold_db. unfold_monad. simpl.
  rewrite (castable_cast _ _ Hi), (castable_cast _ _ Hj). simpl.
  rewrite Hup. simpl. rewrite Hfind. simpl. rewrite Hi. simpl.
  destruct (Js.truthy _); reflexivity.
Qed.

End Rooms.

(** X16: connecting and then disconnecting brings a user back offline: a
    user-connected for a registered user stores the user as online with the
    socket id as connection handle, and the transport disconnect that
    follows on that connection stores the user as offline with the handle
    cleared and the time of the disconnect as last-seen time, broadcasts
    it, and touches no other user; the disconnect of another connection,
    which has not identified itself, changes nothing. *)
Theorem presence_round_trip
    (env1 env2 : Env) (st : St) (A i : string) (name : option string) (u : User) :
  fails env1 UserFindByIdAndUpdate = false →
  fails env2 UserFindByIdAndUpdate = false →
  sid env2 = sid env1 →
  A ≠ "" → castObjectId A = Some i → users st !! i = Some u →
  let st1 := exec (user_connected (Some (mkUserConnectedData (Some A) name))) env1 st in
  let st2 := exec disconnect env2 st1 in
  users st1 !! i = Some (mkUser (username u) true (clock env1 (ticks st)) (Some (sid env1)))
  ∧ users st2 !! i = Some (mkUser (username u) false (clock env2 (ticks st1)) None)
  ∧ (∀ k, k ≠ i → users st2 !! k = users st !! k)
  ∧ emitted disconnect env2 st1
    = [Emit ToOthers (UserStatusUpdate (Some A) false (clock env2 (S (ticks st1))))]
  ∧ (∀ env3, sid env3 ≠ sid env1 → currentUser st !! sid env3 = None →
             disconnect env3 st1 = (Ok tt, st1)).
Proof.
  intros Hf1 Hf2 Hsid _ Hi Hu st1 st2.
  destruct (user_connected_run env1 st A i name Hi Hf1)
    as (s1 & Hrun & Hus & _ & Hcu & _).
  assert (Hst1 : st1 = s1) by (subst st1; unfold exec; rewrite Hrun; reflexivity).
  destruct (disconnect_bound env2 st1 A i name) as (Hrec & _ & Hrest & Hout & _);
    [rewrite Hst1, Hcu, Hsid; apply lookup_insert_eq|exact Hi|exact Hf2|].
  fold st2 in Hrec, Hrest, Hout.
  assert (H1 : users st1 !! i
               = Some (mkUser (username u) true (clock env1 (ticks st)) (Some (sid env1)))).
  { rewrite Hst1, Hus, lookup_alter, decide_True, Hu by reflexivity. reflexivity. }
  split; [exact H1|]. split; [|split; [|split]].
  - rewrite (Hrec _ H1). reflexivity.
  - intros k Hk. rewrite (Hrest k Hk).
    rewrite Hst1, Hus, lookup_alter, decide_False by congruence. reflexivity.
  - apply emitted_app. exact Hout.
  - intros env3 Hne Hnone. apply disconnect_without_identity.
    rewrite Hst1, Hcu, lookup_insert_ne by congruence. exact Hnone.
Qed.

Lemma presence_round_trip_witness :
  users (exec disconnect Sample.env
          (exec (user_connected
                   (Some (mkUserConnectedData (Some Sample.b) (Some "bob"))))
                Sample.env Sample.strangers)) !! Sample.b
  = Some (mkUser "bob" false 1002%Z None).
Proof.
  refine (proj1 (proj2 (presence_round_trip Sample.env Sample.env Sample.strangers
    Sample.b Sample.b (Some "bob") Sample.bob _ _ _ _ _ _))).
  - reflexivity.
  - reflexivity.
  - reflexivity.
  - discriminate.
  - reflexivity.
  - reflexivity.
Defined.

(** X17: the read receipt follows the stored connection handle of the
    sender: after the sender has connected and identified, a
    mark-messages-read for the sender's messages emits exactly one
    messages-read event, to the room of the sender's socket id, which that
    socket receives; when the stored handle of the sender is null nothing
    is emitted. *)
Theorem read_receipt_reaches_sender
    (envA envB : Env) (st : St) (A B i j : string) (name : option string) (u : User)
    (all : gset string) :
  fails envA UserFindByIdAndUpdate = false →
  fails envB MessageUpdateMany = false → fails envB UserFindById = false →
  sid envA ≠ "" →
  castObjectId A = Some i → castObjectId B = Some j → users st !! i = Some u →
  let mr := mark_messages_read (Some (mkPairData (Some A) (Some B))) in
  let st1 := exec (user_connected (Some (mkUserConnectedData (Some A) name))) envA
                  (exec connection envA st) in
  (∃ t, emitted mr envB st1 = [Emit (ToRoom (Some (sid envA))) (MessagesRead (Some B) t)]
        ∧ sid envA ∈ deliver (rooms (exec mr envB st1)) all (sid envB)
                             (ToRoom (Some (sid envA))))
  ∧ (socketId u = None → emitted mr envB st = []).
Proof.
  intros HfA Hup Hfind Hsid Hi Hj Hu mr st1. split.
  - set (st0 := exec connection envA st) in *.
    assert (Hu0 : users st0 !! i = Some u) by exact Hu.
    assert (Hr0 : sid envA ∈ default ∅ (rooms st0 !! Some (sid envA)))
      by apply joined_in.
    destruct (user_connected_run envA st0 A i name Hi HfA)
      as (s1 & Hrun & Hus & Hrooms & _).
    assert (Hst1 : st1 = s1) by (subst st1; unfold exec; rewrite Hrun; reflexivity).
    assert (H1 : users st1 !! i
                 = Some (mkUser (username u) true (clock envA (ticks st0))
                                (Some (sid envA)))).
    { rewrite Hst1, Hus, lookup_alter, decide_True, Hu0 by reflexivity. reflexivity. }
    exists (clock envB (S (ticks st1))). split.
    + apply emitted_app. subst mr.
      rewrite (mark_messages_read_out envB st1 A B i j Hi Hj Hup Hfind), H1. simpl.
      rewrite (truthy_Some (sid envA) Hsid). reflexivity.
    + subst mr. rewrite mark_messages_read_rooms. simpl.
      rewrite Hst1, Hrooms. apply joined_stays. exact Hr0.
  - intros Hsock. apply emitted_app. subst mr.
    rewrite (mark_messages_read_out envB st A B i j Hi Hj Hup Hfind), Hu. simpl.
    rewrite Hsock. simpl. rewrite app_nil_r. reflexivity.
Qed.

Lemma read_receipt_reaches_sender_witness :
  ∃ t, emitted (mark_messages_read (Some (mkPairData (Some Sample.a) (Some Sample.b))))
               Sample.env2
               (exec (user_connected
                        (Some (mkUserConnectedData (Some Sample.a) (Some "alice"))))
                     Sample.env (exec connection Sample.env Sample.chatting))
       = [Emit (ToRoom (Some "s1")) (MessagesRead (Some Sample.b) t)]
       ∧ "s1" ∈ deliver
           (rooms (exec (mark_messages_read
                           (Some (mkPairData (Some Sample.a) (Some Sample.b))))
                        Sample.env2
                        (exec (user_connected
                                 (Some (mkUserConnectedData (Some Sample.a) (Some "alice"))))
                              Sample.env (exec connection Sample.env Sample.chatting))))
           ∅ "s2" (ToRoom (Some "s1")).
Proof.
  refine (proj1 (read_receipt_reaches_sender Sample.env Sample.env2 Sample.chatting
    Sample.a Sample.b Sample.a Sample.b (Some "alice") Sample.alice ∅ _ _ _ _ _ _ _)).
  - reflexivity.
  - reflexivity.
  - reflexivity.
  - discriminate.
  - reflexivity.
  - reflexivity.
  - reflexivity.
Defined.

(** X18: a message reaches the recipient through the personal mailbox,
    and twice when the recipient has the chat open: once the recipient has
    connected and identified on another socket, that socket receives the
    new-message of a successful send-message; when it has also joined the
    pair channel (in either order of the two ids), it receives the same
    new-message two times, and nothing else of that send-message. *)
Theorem new_message_reaches_recipient
    (envA envB : Env) (st : St) (A B body : string) (nameB : option string)
    (all : gset string) :
  fails envB UserFindByIdAndUpdate = false → reliable envA →
  A ≠ "" → B ≠ "" → Js.trim body ≠ "" →
  friends_in (friendships st) A B → sid envB ≠ sid envA →
  let send := send_message (Some (mkSendMessageData (Some A) (Some B) (Some body))) in
  let st1 := exec (user_connected (Some (mkUserConnectedData (Some B) nameB))) envB
                  (exec connection envB st) in
  let st2 := exec (join_chat (Some (mkPairData (Some B) (Some A)))) envB st1 in
  (∃ m sn rn,
      NewMessage m sn rn
      ∈ received (rooms (exec send envA st1)) all (sid envA) (sid envB)
                 (emitted send envA st1))
  ∧ (∃ m sn rn,
        received (rooms (exec send envA st2)) all (sid envA) (sid envB)
                 (emitted send envA st2)
        = [NewMessage m sn rn; NewMessage m sn rn]).
Proof.
  intros HfB Hrel _ _ Hbody Hfr Hsid send st1 st2.
  destruct (friends_in_castable _ _ _ Hfr) as [Hca Hcb]. unfold castable in Hca, Hcb.
  destruct (castObjectId A) as [i|] eqn:Hi; [|discriminate].
  destruct (castObjectId B) as [j|] eqn:Hj; [|discriminate].
  set (st0 := exec connection envB st) in *.
  destruct (user_connected_run envB st0 B j nameB Hj HfB)
    as (s1 & Hrun & _ & Hrooms & _ & _ & _ & Hfs & _).
  assert (Hst1 : st1 = s1) by (subst st1; unfold exec; rewrite Hrun; reflexivity).
  assert (Hfr1 : friends_in (friendships st1) A B) by (rewrite Hst1, Hfs; exact Hfr).
  assert (Hbox1 : sid envB ∈ default ∅ (rooms st1 !! Some B)).
  { rewrite Hst1, Hrooms. apply joined_in. }
  assert (Hst2 : st2 = set_rooms
            (fun r => <[Some (chatRoom B A) :=
                          {[sid envB]} ∪ default ∅ (r !! Some (chatRoom B A))]> r) st1).
  { subst st2. unfold exec. rewrite join_chat_run. reflexivity. }
  assert (Hfr2 : friends_in (friendships st2) A B) by (rewrite Hst2; exact Hfr1).
  assert (Hbox2 : sid envB ∈ default ∅ (rooms st2 !! Some B)).
  { rewrite Hst2. simpl. apply joined_stays. exact Hbox1. }
  assert (Hchat2 : sid envB ∈ default ∅ (rooms st2 !! Some (chatRoom A B))).
  { rewrite Hst2. simpl. rewrite (chatRoom_swap A B). apply joined_in. }
  split.
  - destruct (send_message_delivers envA st1 A B body i j) as (_ & Hout & _);
      try apply Hrel; try assumption.
    eexists _, _, _. unfold received. subst send.
    rewrite (emitted_app envA st1 _ _ Hout), send_message_rooms.
    apply list_elem_of_fmap. eexists. split; [|apply list_elem_of_filter; split].
    2:{ instantiate (1 := Emit (ToRoomOthers (Some B)) _). simpl.
        apply elem_of_difference. split; [exact Hbox1|].
        rewrite elem_of_singleton. exact Hsid. }
    + reflexivity.
    + apply elem_of_cons. right. apply list_elem_of_here.
  - destruct (send_message_delivers envA st2 A B body i j) as (_ & Hout & _);
      try apply Hrel; try assumption.
    eexists _, _, _. unfold received. subst send.
    rewrite (emitted_app envA st2 _ _ Hout), send_message_rooms.
    rewrite filter_cons, decide_True by exact Hchat2.
    rewrite filter_cons, decide_True.
    2:{ simpl. apply elem_of_difference. split; [exact Hbox2|].
        rewrite elem_of_singleton. exact Hsid. }
    rewrite filter_cons, decide_False.
    2:{ simpl. rewrite elem_of_singleton. exact Hsid. }
    reflexivity.
Qed.

Lemma new_message_reaches_recipient_witness :
  let send :=
    send_message (Some (mkSendMessageData (Some Sample.a) (Some Sample.b) (Some "hi"))) in
  let st2 :=
    exec (join_chat (Some (mkPairData (Some Sample.b) (Some Sample.a)))) Sample.env2
         (exec (user_connected (Some (mkUserConnectedData (Some Sample.b) (Some "bob"))))
               Sample.env2 (exec connection Sample.env2 Sample.friends)) in
  ∃ m sn rn,
    received (rooms (exec send Sample.env st2)) ∅ "s1" "s2" (emitted send Sample.env st2)
    = [NewMessage m sn rn; NewMessage m sn rn].
Proof.
  refine (proj2 (new_message_reaches_recipient Sample.env Sample.env2
    Sample.friends Sample.a Sample.b "hi" (Some "bob") ∅ _ _ _ _ _ _ _)).
  - reflexivity.
  - intros op. reflexivity.
  - discriminate.
  - discriminate.
  - discriminate.
  - eexists. split; [apply list_elem_of_here|]. split; [reflexivity|].
    left. split; reflexivity.
  - discriminate.
Defined.

(** X19: a typing indicator goes to the pair channel without its sender:
    typing-start and typing-stop name the sender and target the room that
    join-chat joins for the two ids in either order, so a socket that
    joined it receives the event and the typing socket does not; on an
    undefined payload the handler throws, having no try. *)
Theorem typing_reaches_partner
    (envB : Env) (st : St) (A B typist : string) (isTyping : bool)
    (all : gset string) :
  typist ≠ sid envB →
  let st1 := exec (join_chat (Some (mkPairData (Some B) (Some A)))) envB st in
  ∃ tgt,
    typing isTyping (Some (mkPairData (Some A) (Some B)))
    = Ok (tgt, UserTyping (Some A) isTyping)
    ∧ sid envB ∈ deliver (rooms st1) all typist tgt
    ∧ (typist ∉ deliver (rooms st1) all typist tgt)
    ∧ typing isTyping None = Throw "TypeError".
Proof.
  intros Hne st1. subst st1. unfold exec. rewrite join_chat_run.
  eexists. split; [reflexivity|]. simpl.
  rewrite (chatRoom_swap A B), lookup_insert_eq. simpl.
  split; [|split; [|reflexivity]].
  - apply elem_of_difference. split.
    + apply elem_of_union. left. apply elem_of_singleton. reflexivity.
    + rewrite elem_of_singleton. congruence.
  - intros H. apply elem_of_difference in H as [_ H]. apply H.
    apply elem_of_singleton. reflexivity.
Qed.

Lemma typing_reaches_partner_witness :
  ∃ tgt,
    typing true (Some (mkPairData (Some "a") (Some "b")))
    = Ok (tgt, UserTyping (Some "a") true)
    ∧ "s1" ∈ deliver (rooms (exec (join_chat (Some (mkPairData (Some "b") (Some "a"))))
                                  Sample.env Sample.friends)) ∅ "s9" tgt
    ∧ ("s9" ∉ deliver (rooms (exec (join_chat (Some (mkPairData (Some "b") (Some "a"))))
                                   Sample.env Sample.friends)) ∅ "s9" tgt)
    ∧ typing true None = Throw "TypeError".
Proof.
  apply (typing_reaches_partner Sample.env Sample.friends "a" "b" "s9" true ∅).
  discriminate.
Defined.

(** ** Queries of the friendship model *)

Section Sorting.

Context {A : Type} (le : A → A → bool) (R : A → A → Prop).
Hypothesis le_true : ∀ x y, le x y = true → R x y.
Hypothesis le_false : ∀ x y, le x y = false → R y x.
Hypothesis R_trans : ∀ x y z, R x y → R y z → R x z.

Lemma elem_of_insert_by (x y : A) (l : list A) :
  y ∈ insert_by le x l ↔ y = x ∨ y ∈ l.
Proof.
  induction l as [|z l IH]; simpl.
  - rewrite list_elem_of_singleton, elem_of_nil. tauto.
  - destruct (le x z); rewrite !elem_of_cons; [tauto|]. rewrite IH. tauto.
Qed.

Lemma elem_of_sort_by (y : A) (l : list A) : y ∈ sort_by le l ↔ y ∈ l.
Proof.
  induction l as [|x l IH]; simpl; [reflexivity|].
  rewrite elem_of_insert_by, elem_of_cons, IH. reflexivity.
Qed.

Lemma insert_by_sorted (x : A) (l : list A) :
  StronglySorted R l → StronglySorted R (insert_by le x l).
Proof.
  induction 1 as [|z l Hl IH Hz]; simpl.
  - constructor; constructor.
  - destruct (le x z) eqn:E.
    + constructor; [constructor; assumption|].
      constructor; [exact (le_true _ _ E)|].
      eapply Forall_impl; [exact Hz|]. intros w Hw.
      exact (R_trans _ _ _ (le_true _ _ E) Hw).
    + constructor; [exact IH|].
      apply Forall_forall. intros w Hw. apply elem_of_insert_by in Hw as [->|Hw].
      * exact (le_false _ _ E).
      * rewrite Forall_forall in Hz. exact (Hz w Hw).
Qed.

Lemma sort_by_sorted (l : list A) : StronglySorted R (sort_by le l).
Proof.
  induction l as [|x l IH]; simpl; [constructor|].
  apply insert_by_sorted, IH.
Qed.

End Sorting.

Section MapM.

Context {A B : Type} (f : A → M B).

Lemma mapM_pure (g : A → B) (l : list A) (env : Env) (st : St) :
  (∀ x, x ∈ l → f x env st = (Ok (g x), st)) →
  mapM f l env st = (Ok (map g l), st).
Proof.
  induction l as [|x l IH]; intros H; [reflexivity|].
  simpl. unfold_monad. rewrite (H x) by apply list_elem_of_here. simpl.
  rewrite IH by (intros y Hy; apply H; apply elem_of_cons; auto). reflexivity.
Qed.

Lemma mapM_throws (e : string) (l : list A) (x : A) (env : Env) (st : St) :
  x ∈ l → f x env st = (Throw e, st) →
  (∀ y, y ∈ l → (∃ b, f y env st = (Ok b, st)) ∨ f y env st = (Throw e, st)) →
  mapM f l env st = (Throw e, st).
Proof.
  induction l as [|z l IH]; intros Hx Hfx Hall.
  - apply elem_of_nil in Hx. destruct Hx.
  - simpl. unfold_monad.
    destruct (Hall z) as [[b Hb]|Hb]; [apply list_elem_of_here| |].
    + rewrite Hb. simpl. apply elem_of_cons in Hx as [->|Hx]; [congruence|].
      rewrite IH; [reflexivity|assumption..|].
      intros y Hy. apply Hall. apply elem_of_cons. auto.
    + rewrite Hb. reflexivity.
Qed.

End MapM.

Section Friends.

Variables (env : Env) (st : St) (u : string).

Lemma end_with_status_true (i : string) (s : Status) (f : Friendship) :
  castObjectId u = Some i →
  end_with_status u s f = true ↔ status f = s ∧ (requester f = i ∨ recipient f = i).
Proof.
  intros Hi. unfold end_with_status.
  rewrite orb_true_iff, !andb_true_iff, !is_id_true, Status_eqb_true, Hi.
  split.
  - intros [[[= ->] ->]|[[= ->] ->]]; auto.
  - intros [-> [->| ->]]; auto.
Qed.

Lemma end_with_status_castable (s : Status) (f : Friendship) :
  end_with_status u s f = true → castable u = true.
Proof.
  unfold end_with_status, is_id, castable.
  destruct (castObjectId u); [reflexivity|]. discriminate.
Qed.

(** The other end of a populated edge, as [getFriends] picks it. *)
Lemma getFriends_run :
  castable u = true →
  (∀ f, f ∈ friendships st → end_with_status u accepted f = true →
        is_Some (users st !! requester f)) →
  getFriends false u env st
  = (Ok (map (fun f => if String.eqb (requester f) u
                       then populated (users st) (recipient f)
                       else populated (users st) (requester f))
             (List.filter (end_with_status u accepted) (friendships st))),
     st).
Proof.
  intros Hc Hreq. unfold getFriends, Friendship_find, dbcall_when. unfold_monad. simpl.
  rewrite Hc. simpl.
  rewrite (mapM_pure _
    (fun r : Friendship * option (string * User) * option (string * User) =>
       match r.1.2 with
       | Some (i, x) => if String.eqb i u then r.2 else Some (i, x)
       | None => None
       end)).
  - f_equal. f_equal. rewrite List.map_map. apply List.map_ext_in.
    intros f Hf. apply filter_In in Hf as [Hin Hp]. apply list_elem_of_In in Hin.
    simpl. destruct (Hreq f Hin Hp) as [x Hx]. unfold populated. rewrite Hx. simpl.
    destruct (String.eqb (requester f) u); reflexivity.
  - intros [[f rq] rc] Hin. apply list_elem_of_fmap in Hin as (g & [= -> -> ->] & Hg).
    apply list_elem_of_In, filter_In in Hg as [Hg Hp]. apply list_elem_of_In in Hg.
    destruct (Hreq g Hg Hp) as [x Hx]. unfold populated. rewrite Hx. simpl.
    destruct (String.eqb (requester g) u); reflexivity.
Qed.

Lemma pending_run (i : string) :
  castObjectId u = Some i →
  getPendingRequests false u env st
  = (Ok ((fun r => (r.1.1, r.1.2))
           <$> sort_by newest_first
                 ((fun f => (f, populated (users st) (requester f),
                                populated (users st) (recipient f)))
                    <$> List.filter (fun f => is_id u (recipient f)
                                              && Status_eqb (status f) pending)
                                    (friendships st))),
     st)
  ∧ getSentRequests false u env st
    = (Ok ((fun r => (r.1.1, r.2))
             <$> sort_by newest_first
                   ((fun f => (f, populated (users st) (requester f),
                                  populated (users st) (recipient f)))
                      <$> List.filter (fun f => is_id u (requester f)
                                                && Status_eqb (status f) pending)
                                      (friendships st))),
       st).
Proof.
  intros Hi. unfold getPendingRequests, getSentRequests, Friendship_find, dbcall_when.
  unfold_monad. simpl. rewrite (castable_cast _ _ Hi). split; reflexivity.
Qed.

End Friends.

(** X20: [getFriends] and [areFriends] agree: for the id of the session as
    the database prints it, and when the users of the edges exist, the
    users that [getFriends] lists are exactly the other ends of the
    accepted edges of the user, that is those with whom [areFriends] holds,
    however their id is written; and nothing is changed. *)
Theorem getFriends_lists_friends (env : Env) (st : St) (u : string) :
  castObjectId u = Some u →
  (∀ f, f ∈ friendships st →
        is_Some (users st !! requester f) ∧ is_Some (users st !! recipient f)) →
  ∃ l, getFriends false u env st = (Ok l, st)
       ∧ (∀ v, (∃ doc, Some (v, doc) ∈ l)
               ↔ ∃ f, f ∈ friendships st ∧ status f = accepted
                      ∧ ((requester f = u ∧ recipient f = v)
                         ∨ (requester f = v ∧ recipient f = u)))
       ∧ (∀ v j, castObjectId v = Some j →
                 (∃ doc, Some (j, doc) ∈ l)
                 ↔ accepted_between (friendships st) u v = true).
Proof.
  intros Hu Hex.
  assert (Hraw : ∀ v,
    (∃ doc, Some (v, doc)
            ∈ map (fun f => if String.eqb (requester f) u
                            then populated (users st) (recipient f)
                            else populated (users st) (requester f))
                  (List.filter (end_with_status u accepted) (friendships st)))
    ↔ ∃ f, f ∈ friendships st ∧ status f = accepted
           ∧ ((requester f = u ∧ recipient f = v) ∨ (requester f = v ∧ recipient f = u))).
  { intros v. split.
    - intros (doc & Hin). apply list_elem_of_fmap in Hin as (f & Hv & Hf).
      apply list_elem_of_In, filter_In in Hf as [Hf Hp]. apply list_elem_of_In in Hf.
      exists f. split; [exact Hf|].
      destruct (Hex f Hf) as [[x Hx] [y Hy]]. unfold populated in Hv.
      rewrite Hx, Hy in Hv. simpl in Hv.
      apply (end_with_status_true u u accepted f Hu) in Hp as [Hs Hends].
      split; [exact Hs|].
      destruct (String.eqb_spec (requester f) u) as [Hr|Hr]; injection Hv as -> _.
      + left. auto.
      + right. destruct Hends as [?|?]; [congruence|auto].
    - intros (f & Hf & Hs & Hab).
      destruct (Hex f Hf) as [[x Hx] [y Hy]].
      assert (Hp : end_with_status u accepted f = true).
      { apply (end_with_status_true u u accepted f Hu). split; [exact Hs|].
        destruct Hab as [[? _]|[_ ?]]; auto. }
      exists (if String.eqb (requester f) u then y else x).
      apply list_elem_of_fmap. exists f. split.
      + unfold populated. rewrite Hx, Hy. simpl.
        destruct (String.eqb_spec (requester f) u) as [Hr|Hr]; simpl.
        * destruct Hab as [[_ ->]|[<- ->]]; [reflexivity|]. rewrite Hr. reflexivity.
        * destruct Hab as [[? _]|[-> _]]; [congruence|reflexivity].
      + apply list_elem_of_In, filter_In. split; [apply list_elem_of_In, Hf|exact Hp]. }
  eexists. split.
  { apply getFriends_run; [exact (castable_cast _ _ Hu)|].
    intros f Hf _. apply (Hex f Hf). }
  split; [exact Hraw|].
  intros v j Hj. rewrite Hraw, accepted_between_true. unfold friends_in, joins.
  rewrite Hu, Hj. split.
  - intros (f & Hf & Hs & Hab). exists f. split; [exact Hf|]. split; [exact Hs|].
    destruct Hab as [[-> ->]|[-> ->]]; auto.
  - intros (f & Hf & Hs & Hab). exists f. split; [exact Hf|]. split; [exact Hs|].
    destruct Hab as [[[= ->] [= ->]]|[[= ->] [= ->]]]; auto.
Qed.

Lemma getFriends_lists_friends_witness :
  ∃ l, getFriends false Sample.b Sample.env Sample.friends = (Ok l, Sample.friends)
       ∧ ((∃ doc, Some (Sample.a, doc) ∈ l)
          ↔ accepted_between (friendships Sample.friends) Sample.b Sample.a_upper = true).
Proof.
  destruct (getFriends_lists_friends Sample.env Sample.friends Sample.b)
    as (l & Hrun & _ & Hl).
  - reflexivity.
  - intros f Hf. simpl in Hf. apply list_elem_of_singleton in Hf. subst f.
    split; eexists; reflexivity.
  - exists l. split; [exact Hrun|]. apply Hl. reflexivity.
Defined.

(** The comparison of [getFriends] is on the ids as printed: for an id of
    the session written in upper case the filter finds the edge, and the
    end that is listed is the requester, the user of the session here. *)
Example getFriends_upper_case :
  getFriends false Sample.a_upper Sample.env Sample.friends
  = (Ok [Some (Sample.a, Sample.alice)], Sample.friends)
  ∧ getFriends false Sample.a Sample.env Sample.friends
    = (Ok [Some (Sample.b, Sample.bob)], Sample.friends).
Proof. split; reflexivity. Qed.

(** X21: [getFriends] throws when the requester of one of the user's
    accepted edges has no user record: the edge populates to null and the
    read of its [_id] fails; the friend list of [/api/users] is then
    answered with the 500 error, for that user. *)
Theorem getFriends_dangling_requester
    (env : Env) (st : St) (u : string) (f : Friendship) :
  f ∈ friendships st → end_with_status u accepted f = true →
  users st !! requester f = None → u ≠ "" →
  getFriends false u env st = (Throw "TypeError", st)
  ∧ api_users false (Some u) env st = (Ok (Failure 500 "Server error"), st).
Proof.
  intros Hf Hp Hnone Hu.
  assert (Hthrow : getFriends false u env st = (Throw "TypeError", st)).
  { unfold getFriends, Friendship_find, dbcall_when. unfold_monad. simpl.
    rewrite (end_with_status_castable u accepted f Hp). simpl.
    apply (mapM_throws _ "TypeError" _
             (f, populated (users st) (requester f), populated (users st) (recipient f))).
    - apply list_elem_of_fmap. exists f. split; [reflexivity|].
      apply list_elem_of_In, filter_In. split; [apply list_elem_of_In, Hf|exact Hp].
    - unfold populated. rewrite Hnone. reflexivity.
    - intros [[g rq] rc] Hin. apply list_elem_of_fmap in Hin as (h & [= -> -> ->] & Hh).
      unfold populated. destruct (users st !! requester h); simpl; [left|right; reflexivity].
      destruct (String.eqb (requester h) u); eauto. }
  split; [exact Hthrow|].
  unfold api_users, tryReply. rewrite (truthy_Some u Hu). unfold_monad.
  rewrite Hthrow. reflexivity.
Qed.

Lemma getFriends_dangling_requester_witness :
  api_users false (Some Sample.b) Sample.env (set_users (delete Sample.a) Sample.friends)
  = (Ok (Failure 500 "Server error"), set_users (delete Sample.a) Sample.friends).
Proof.
  refine (proj2 (getFriends_dangling_requester Sample.env
           (set_users (delete Sample.a) Sample.friends) Sample.b
           (mkFriendship 0 Sample.a Sample.b accepted 0%Z 0%Z) _ _ _ _)).
  - apply list_elem_of_here.
  - reflexivity.
  - reflexivity.
  - discriminate.
Defined.

(** X22: the received and the sent requests of a user are its pending
    edges, seen from the two ends: the received list holds exactly the
    pending edges addressed to the user, each with its requester populated,
    the sent list exactly the pending edges the user requested, each with
    its recipient populated, both newest first. *)
Theorem pending_requests_listed (env : Env) (st : St) (u i : string) :
  castObjectId u = Some i →
  ∃ received sent,
    getPendingRequests false u env st = (Ok received, st)
    ∧ getSentRequests false u env st = (Ok sent, st)
    ∧ (∀ f p, (f, p) ∈ received
              ↔ f ∈ friendships st ∧ status f = pending ∧ recipient f = i
                ∧ p = populated (users st) (requester f))
    ∧ (∀ f p, (f, p) ∈ sent
              ↔ f ∈ friendships st ∧ status f = pending ∧ requester f = i
                ∧ p = populated (users st) (recipient f))
    ∧ StronglySorted (fun x y => (f_createdAt y.1 ≤ f_createdAt x.1)%Z) received
    ∧ StronglySorted (fun x y => (f_createdAt y.1 ≤ f_createdAt x.1)%Z) sent.
Proof.
  intros Hi.
  assert (Hsorted : ∀ l, StronglySorted
            (fun x y : Friendship * option (string * User) * option (string * User) =>
               (f_createdAt y.1.1 ≤ f_createdAt x.1.1)%Z)
            (sort_by newest_first l)).
  { intros l. apply sort_by_sorted.
    - intros x y H. unfold newest_first in H. lia.
    - intros x y H. unfold newest_first in H. lia.
    - intros x y z ? ?. lia. }
  assert (Hid : ∀ x, is_id u x = true ↔ x = i).
  { intros x. rewrite is_id_true, Hi. split; congruence. }
  destruct (pending_run env st u i Hi) as [Hpend Hsent].
  eexists _, _. split; [exact Hpend|]. split; [exact Hsent|].
  split; [|split; [|split]].
  - intros f p. rewrite list_elem_of_fmap. split.
    + intros ([[g rq] rc] & [= -> ->] & Hin). simpl.
      apply elem_of_sort_by, list_elem_of_fmap in Hin as (h & [= -> -> ->] & Hh).
      apply list_elem_of_In, filter_In in Hh as [Hh Hp]. apply list_elem_of_In in Hh.
      apply andb_prop in Hp as [Hr Hs]. apply Hid in Hr. apply Status_eqb_true in Hs.
      auto.
    + intros (Hf & Hs & Hr & ->).
      exists (f, populated (users st) (requester f), populated (users st) (recipient f)).
      split; [reflexivity|]. apply elem_of_sort_by, list_elem_of_fmap.
      exists f. split; [reflexivity|]. apply list_elem_of_In, filter_In.
      split; [apply list_elem_of_In, Hf|].
      rewrite (proj2 (Hid _) Hr). apply Status_eqb_true, Hs.
  - intros f p. rewrite list_elem_of_fmap. split.
    + intros ([[g rq] rc] & [= -> ->] & Hin). simpl.
      apply elem_of_sort_by, list_elem_of_fmap in Hin as (h & [= -> -> ->] & Hh).
      apply list_elem_of_In, filter_In in Hh as [Hh Hp]. apply list_elem_of_In in Hh.
      apply andb_prop in Hp as [Hr Hs]. apply Hid in Hr. apply Status_eqb_true in Hs.
      auto.
    + intros (Hf & Hs & Hr & ->).
      exists (f, populated (users st) (requester f), populated (users st) (recipient f)).
      split; [reflexivity|]. apply elem_of_sort_by, list_elem_of_fmap.
      exists f. split; [reflexivity|]. apply list_elem_of_In, filter_In.
      split; [apply list_elem_of_In, Hf|].
      rewrite (proj2 (Hid _) Hr). apply Status_eqb_true, Hs.
  - eapply StronglySorted_fmap; [|apply Hsorted]. simpl. auto.
  - eapply StronglySorted_fmap; [|apply Hsorted]. simpl. auto.
Qed.

Lemma pending_requests_listed_witness :
  ∃ received sent,
    getPendingRequests false Sample.a_upper Sample.env Sample.friends
    = (Ok received, Sample.friends)
    ∧ getSentRequests false Sample.a_upper Sample.env Sample.friends
      = (Ok sent, Sample.friends).
Proof.
  destruct (pending_requests_listed Sample.env Sample.friends Sample.a_upper Sample.a)
    as (received & sent & Hr & Hs & _).
  - reflexivity.
  - exists received, sent. split; [exact Hr|exact Hs].
Defined.

(** ** The message routes *)

(** X23: the HTTP fallback stores what the socket handler stores: for the
    same sender, recipient and content, in the same state and with the same
    database calls rejected, [POST /api/messages] leaves the same messages
    as send-message does, emits nothing to any socket, and answers with the
    message exactly when send-message ends with the delivery
    acknowledgment. *)
Theorem api_messages_post_matches_socket
    (env : Env) (st : St) (s r c : option string) :
  let http := api_messages_post s r c in
  let sock := send_message (Some (mkSendMessageData s r c)) in
  (∃ reply, (http env st).1 = Ok reply)
  ∧ messages (exec http env st) = messages (exec sock env st)
  ∧ out (exec http env st) = out st
  ∧ ((∃ d, (http env st).1 = Ok (Json d))
     ↔ (∃ i t, last (out (exec sock env st))
               = Some (Emit ToSelf (MessageDelivered i t)))).
Proof.
  intros http sock. subst http sock.
  unfold exec, api_messages_post, send_message, tryReply.
  unfold_db. unfold_monad. unfold Js.truthy.
  repeat (simpl; case_split); simpl.
  all: split; [eexists; reflexivity|].
  all: split; [reflexivity|].
  all: split; [reflexivity|].
  all: split;
    [ intros [d H]; first [discriminate H | eexists _, _; apply last_snoc]
    | intros (i & t & H);
      first [eexists; reflexivity | rewrite last_snoc in H; discriminate H] ].
Qed.

Section History.

Variables (env : Env) (st : St) (u v : string).

Lemma api_messages_history_run :
  u ≠ "" → fails env FriendshipFindOne = false →
  fails env MessageUpdateMany = false → friends_in (friendships st) u v →
  ∃ st',
    api_messages_history false (Some u) v env st
    = (Ok (Json ((fun m => (m, username <$> users st !! sender m,
                               username <$> users st !! m_recipient m))
                   <$> take 50 (sort_by oldest_first
                                        (List.filter (between u v) (messages st))))),
       st')
    ∧ messages st'
      = map (fun m => if unread_from_to (Some v) (Some u) m
                      then mark_read (clock env (ticks st)) m else m)
            (messages st).
Proof.
  intros Hu Hfo Hup Hfr.
  destruct (friends_in_castable _ _ _ Hfr) as [Hcu Hcv].
  apply accepted_between_true in Hfr.
  unfold api_messages_history, tryReply. rewrite (truthy_Some u Hu).
  unfold_monad. rewrite areFriends_run, Hcu, Hcv, Hfo, Hfr.
  unfold Message_history, Message_updateMany, dbcall_when. unfold_monad. simpl.
  rewrite Hcu, Hcv. simpl. rewrite Hup. simpl. eexists. split; reflexivity.
Qed.

Lemma oldest_first_sorted (l : list Message) :
  StronglySorted (fun x y => (createdAt x ≤ createdAt y)%Z) (sort_by oldest_first l).
Proof.
  apply sort_by_sorted.
  - intros x y H. unfold oldest_first in H. lia.
  - intros x y H. unfold oldest_first in H. lia.
  - intros x y z ? ?. lia.
Qed.

End History.

(** X24: the chat history is the oldest fifty messages of the two users:
    between friends, [GET /api/messages/:userId] answers with at most 50
    messages, all exchanged between the two users, oldest first; a message
    of theirs that is left out is no older than any message returned; and
    afterwards every message from the other user to the user of the session
    is read. *)
Theorem api_messages_history_oldest (env : Env) (st : St) (u v : string) :
  u ≠ "" → fails env FriendshipFindOne = false →
  fails env MessageUpdateMany = false → friends_in (friendships st) u v →
  ∃ l,
    (api_messages_history false (Some u) v env st).1 = Ok (Json l)
    ∧ (length l ≤ 50)%nat
    ∧ (∀ e, e ∈ l → e.1.1 ∈ messages st ∧ between u v e.1.1 = true)
    ∧ StronglySorted (fun x y => (createdAt x.1.1 ≤ createdAt y.1.1)%Z) l
    ∧ (∀ m, m ∈ messages st → between u v m = true →
            (∃ e, e ∈ l ∧ e.1.1 = m)
            ∨ ∀ e, e ∈ l → (createdAt e.1.1 ≤ createdAt m)%Z)
    ∧ (∀ m i j, m ∈ messages (exec (api_messages_history false (Some u) v) env st) →
                castObjectId v = Some i → castObjectId u = Some j →
                sender m = i → m_recipient m = j → isRead m = true).
Proof.
  intros Hu Hfo Hup Hfr.
  destruct (api_messages_history_run env st u v Hu Hfo Hup Hfr) as (st' & Hrun & Hmsg).
  unfold exec. rewrite Hrun. simpl.
  set (s := sort_by oldest_first (List.filter (between u v) (messages st))).
  pose proof (oldest_first_sorted (List.filter (between u v) (messages st))) as Hs.
  fold s in Hs. rewrite <- (take_drop 50 s) in Hs.
  assert (Hin : ∀ m, m ∈ take 50 s → m ∈ messages st ∧ between u v m = true).
  { intros m Hm. apply elem_of_take in Hm as (i & Hi & _).
    apply list_elem_of_lookup_2 in Hi. unfold s in Hi.
    apply elem_of_sort_by, list_elem_of_In, filter_In in Hi as [Hi Hb].
    split; [apply list_elem_of_In, Hi|exact Hb]. }
  eexists. split; [reflexivity|]. split; [|split; [|split; [|split]]].
  - rewrite length_fmap, length_take. lia.
  - intros e He. apply list_elem_of_fmap in He as (m & -> & Hm). simpl.
    apply Hin, Hm.
  - eapply StronglySorted_fmap; [|exact (StronglySorted_app_1_l _ _ _ Hs)].
    simpl. auto.
  - intros m Hm Hb.
    assert (Hms : m ∈ (take 50 s ++ drop 50 s)%list).
    { rewrite take_drop. unfold s. apply elem_of_sort_by, list_elem_of_In, filter_In.
      split; [apply list_elem_of_In, Hm|exact Hb]. }
    apply elem_of_app in Hms as [Ht|Hd].
    + left. eexists. split; [apply list_elem_of_fmap_2, Ht|reflexivity].
    + right. intros e He. apply list_elem_of_fmap in He as (m' & -> & Hm'). simpl.
      exact (StronglySorted_app_1_elem_of _ _ _ _ _ Hs Hm' Hd).
  - intros m i j Hm Hi Hj Hsnd Hrcp. rewrite Hmsg in Hm.
    apply list_elem_of_fmap in Hm as (m0 & -> & _).
    revert Hsnd Hrcp.
    destruct (unread_from_to (Some v) (Some u) m0) eqn:E; [reflexivity|].
    intros Hsnd Hrcp. unfold unread_from_to, id_is in E.
    rewrite <- Hsnd in Hi. rewrite <- Hrcp in Hj.
    rewrite (is_id_cast _ _ Hi), (is_id_cast _ _ Hj) in E. simpl in E.
    destruct (isRead m0); [reflexivity|discriminate].
Qed.

Lemma api_messages_history_oldest_witness :
  ∃ l,
    (api_messages_history false (Some Sample.b) Sample.a Sample.env Sample.chatting).1
    = Ok (Json l)
    ∧ (length l ≤ 50)%nat.
Proof.
  destruct (api_messages_history_oldest Sample.env Sample.chatting Sample.b Sample.a)
    as (l & Hl & Hlen & _).
  - discriminate.
  - reflexivity.
  - reflexivity.
  - eexists. split; [apply list_elem_of_here|]. split; [reflexivity|].
    right. split; reflexivity.
  - exists l. split; [exact Hl|exact Hlen].
Defined.

(** X25: the unread-counts route is never reached: it is registered after
    [/api/messages/:userId], so for every request path, however literal
    segments are compared, the router of the message routes never hands a
    GET request to the unread-counts handler; a path that matches
    [/api/messages/unread-counts] goes to the chat-history route, with its
    last segment as user id. *)
Theorem unread_counts_shadowed (lit : string → string → bool) (path : list string) :
  (∀ h params, dispatch lit messages_get_routes path = Some (h, params) →
               h ≠ UnreadCounts)
  ∧ (is_Some (match_path lit [Lit "api"; Lit "messages"; Lit "unread-counts"] path) →
     ∃ userId, dispatch lit messages_get_routes path = Some (History, [userId])).
Proof.
  unfold messages_get_routes.
  destruct path as [|x1 [|x2 [|x3 [|x4 path]]]]; simpl;
    repeat match goal with
           | |- context [lit ?a ?b] => destruct (lit a b) eqn:?; simpl
           end;
    (split; [intros h params [= <- <-]; discriminate || congruence
            | intros [? ?]; (discriminate || eauto)]).
Qed.

(** ** Escaping on the client *)

Section Escaping.

Import Client.

Lemma append_assoc (a b c : string) : (a ++ b) ++ c = a ++ (b ++ c).
Proof.
  induction a as [|x a IH]; [reflexivity|].
  rewrite !append_String, IH. reflexivity.
Qed.

Lemma replaceAll_app (c : ascii) (by_ a b : string) :
  replaceAll c by_ (a ++ b) = replaceAll c by_ a ++ replaceAll c by_ b.
Proof.
  induction a as [|x a IH]; [reflexivity|].
  rewrite append_String. simpl. rewrite IH.
  destruct (Ascii.eqb x c); [rewrite append_assoc|rewrite append_String]; reflexivity.
Qed.

Lemma occurs_app (c : ascii) (a b : string) :
  occurs c (a ++ b) = occurs c a || occurs c b.
Proof.
  induction a as [|x a IH]; [reflexivity|].
  rewrite append_String. simpl. rewrite IH, orb_assoc. reflexivity.
Qed.

Lemma escapeHtml_cons (x : ascii) (r : string) :
  escapeHtml (String x r) = entity x ++ escapeHtml r.
Proof.
  unfold escapeHtml, entity. cbn [replaceAll].
  destruct (Ascii.eqb_spec x "&") as [->|H1].
  { rewrite !replaceAll_app. reflexivity. }
  cbn [replaceAll]. destruct (Ascii.eqb_spec x "<") as [->|H2].
  { rewrite !replaceAll_app. reflexivity. }
  cbn [replaceAll]. destruct (Ascii.eqb_spec x ">") as [->|H3].
  { rewrite !replaceAll_app. reflexivity. }
  cbn [replaceAll]. destruct (Ascii.eqb_spec x "034") as [->|H4].
  { rewrite !replaceAll_app. reflexivity. }
  cbn [replaceAll]. destruct (Ascii.eqb_spec x "'") as [->|H5]; reflexivity.
Qed.

Lemma escapeHtml_each (s : string) : escapeHtml s = escape_each s.
Proof.
  induction s as [|x r IH]; [reflexivity|].
  rewrite escapeHtml_cons, IH. reflexivity.
Qed.

Lemma occurs_entity (c x : ascii) :
  c = "<"%char ∨ c = ">"%char ∨ c = "034"%char ∨ c = "'"%char →
  occurs c (entity x) = false.
Proof.
  intros Hc. unfold entity.
  destruct (Ascii.eqb_spec x "&") as [->|H1];
    [destruct Hc as [->|[->|[->| ->]]]; reflexivity|].
  destruct (Ascii.eqb_spec x "<") as [->|H2];
    [destruct Hc as [->|[->|[->| ->]]]; reflexivity|].
  destruct (Ascii.eqb_spec x ">") as [->|H3];
    [destruct Hc as [->|[->|[->| ->]]]; reflexivity|].
  destruct (Ascii.eqb_spec x "034") as [->|H4];
    [destruct Hc as [->|[->|[->| ->]]]; reflexivity|].
  destruct (Ascii.eqb_spec x "'") as [->|H5];
    [destruct Hc as [->|[->|[->| ->]]]; reflexivity|].
  simpl. rewrite orb_false_r. apply Ascii.eqb_neq.
  destruct Hc as [->|[->|[->| ->]]]; assumption.
Qed.

End Escaping.

(** X26: [escapeHtml] leaves no markup character and escapes nothing
    twice: its five replacements in a row give what replacing every
    character by its entity in one pass gives, and the result contains none
    of the characters less-than, greater-than, double quote and single
    quote, for every string. *)
Theorem escapeHtml_safe (unsafe : string) :
  Client.escapeHtml unsafe = Client.escape_each unsafe
  ∧ ∀ c, c = "<"%char ∨ c = ">"%char ∨ c = "034"%char ∨ c = "'"%char →
         Client.occurs c (Client.escapeHtml unsafe) = false.
Proof.
  split; [apply escapeHtml_each|].
  intros c Hc. rewrite escapeHtml_each.
  induction unsafe as [|x r IH]; [reflexivity|].
  simpl. rewrite occurs_app, (occurs_entity c x Hc), IH. reflexivity.
Qed.
